(** * Best-Inventory-Bot: the checkout/return engine over its ledger store

    A shallow embedding of [app/db/models.py], [app/db/repositories.py],
    [app/core/inventory_service.py] and [app/core/admin_service.py], and
    the properties of the custody life cycle proved about it. *)

From stdpp Require Import base option list gmap fin_maps strings pretty sorting.
From Stdlib Require Import ZArith Lia Ascii.

Local Open Scope Z_scope.

(** ** Strings as the services use them *)

(** One character of [str.lower()].  Telegram handles are ASCII, and the
    embedding lower-cases the ASCII letters. *)
Definition ascii_lower (c : ascii) : ascii :=
  let n := N_of_ascii c in
  if ((65 <=? n) && (n <=? 90))%N then ascii_of_N (n + 32) else c.

(** [s.lower()] *)
Fixpoint lower (s : string) : string :=
  match s with
  | EmptyString => EmptyString
  | String c r => String (ascii_lower c) (lower r)
  end.

(** [s.lstrip(ch)] for a one-character argument: every leading [ch] goes. *)
Fixpoint lstrip (ch : ascii) (s : string) : string :=
  match s with
  | EmptyString => EmptyString
  | String c r => if Ascii.eqb c ch then lstrip ch r else s
  end.

(** [username or '']: the string, or the empty one for [None]. *)
Definition or_empty (x : option string) : string := default EmptyString x.

(** White space as [str.strip()] sees it among the ASCII characters: tab,
    line feed, vertical tab, form feed, carriage return, the four
    separators 28 to 31, and the blank. *)
Definition is_space (c : ascii) : bool :=
  let n := N_of_ascii c in
  (((9 <=? n) && (n <=? 13)) || ((28 <=? n) && (n <=? 32)))%N.

Fixpoint lstrip_space (s : string) : string :=
  match s with
  | EmptyString => EmptyString
  | String c r => if is_space c then lstrip_space r else s
  end.

Fixpoint rstrip_space (s : string) : string :=
  match s with
  | EmptyString => EmptyString
  | String c r =>
      match rstrip_space r with
      | EmptyString => if is_space c then EmptyString else String c EmptyString
      | r' => String c r'
      end
  end.

(** [s.strip()] *)
Definition strip (s : string) : string := rstrip_space (lstrip_space s).

(** [s.split(sep)] for a one-character separator: every occurrence cuts,
    and a string without one comes back whole. *)
Fixpoint split (sep : ascii) (s : string) : list string :=
  match s with
  | EmptyString => [EmptyString]
  | String c r =>
      if Ascii.eqb c sep then EmptyString :: split sep r
      else match split sep r with
           | h :: t => String c h :: t
           | [] => [String c EmptyString]
           end
  end.

(** [s.split(sep, maxsplit=1)]: only the first occurrence cuts. *)
Fixpoint split_once (sep : ascii) (s : string) : list string :=
  match s with
  | EmptyString => [EmptyString]
  | String c r =>
      if Ascii.eqb c sep then [EmptyString; r]
      else match split_once sep r with
           | h :: t => String c h :: t
           | [] => [String c EmptyString]
           end
  end.

(** [sep.join(parts)] *)
Fixpoint join (sep : string) (parts : list string) : string :=
  match parts with
  | [] => EmptyString
  | [p] => p
  | p :: ps => p +:+ sep +:+ join sep ps
  end.

(** Every character of the string passes the test. *)
Fixpoint all_chars (P : ascii → bool) (s : string) : bool :=
  match s with
  | EmptyString => true
  | String c r => P c && all_chars P r
  end.

Definition digit_value (c : ascii) : option Z :=
  let n := N_of_ascii c in
  if ((48 <=? n) && (n <=? 57))%N then Some (Z.of_N n - 48) else None.

Definition is_digit (c : ascii) : bool := bool_decide (is_Some (digit_value c)).

(** The digits of a decimal literal, where single underscores may stand
    between digits.  [digit] tells whether the character before was one. *)
Fixpoint int_digits (acc : Z) (digit : bool) (s : string) : option Z :=
  match s with
  | EmptyString => if digit then Some acc else None
  | String c r =>
      match digit_value c with
      | Some d => int_digits (acc * 10 + d) true r
      | None =>
          if Ascii.eqb c "_" && digit then int_digits acc false r else None
      end
  end.

(** [int(s)] on ASCII text, [None] where it raises [ValueError]: blanks
    around, an optional sign, then the digits. *)
Definition int (s : string) : option Z :=
  match strip s with
  | EmptyString => None
  | String c r =>
      if Ascii.eqb c "-" then Z.opp <$> int_digits 0 false r
      else if Ascii.eqb c "+" then int_digits 0 false r
      else int_digits 0 false (String c r)
  end.

(** ** models.py *)

Inductive ItemStatus := AVAILABLE | TAKEN | LOST | MAINTENANCE.

Inductive TransactionAction := TAKE | RETURN.

#[global] Instance ItemStatus_eq_dec : EqDecision ItemStatus.
Proof. solve_decision. Defined.

#[global] Instance TransactionAction_eq_dec : EqDecision TransactionAction.
Proof. solve_decision. Defined.

(** [status.value] *)
Definition status_value (st : ItemStatus) : string :=
  match st with
  | AVAILABLE => "available"
  | TAKEN => "taken"
  | LOST => "lost"
  | MAINTENANCE => "maintenance"
  end.

(** The columns of a row next to its primary key.  Time stamps are
    integers (an instant of [datetime.utcnow]). *)
Record User := mkUser {
  telegram_id : Z;
  username : option string;
  first_name : option string;
  last_name : option string;
  is_admin : bool;
  user_created_at : Z
}.

Record Category := mkCategory {
  category_name : string;
  description : option string;
  is_active : bool;
  category_created_at : Z
}.

Record Item := mkItem {
  category_id : Z;
  item_name : string;
  inventory_code : option string;
  status : ItemStatus;
  current_holder_id : option Z;
  item_created_at : Z
}.

Record Transaction := mkTransaction {
  item_id : Z;
  user_id : Z;
  action : TransactionAction;
  photo_file_id : string;
  photo_url : option string;
  comment : option string;
  created_at : Z
}.

Record AdminLog := mkAdminLog {
  admin_id : option Z;
  log_action : string;
  details : option string;
  log_created_at : Z
}.

(** A mapped object: a row together with the primary key it is stored
    under, so that [obj_id u] reads [u.id]. *)
Record entity (A : Type) := Entity { obj_id : Z; row : A }.
Arguments Entity {A} _ _.
Arguments obj_id {A} _.
Arguments row {A} _.

(** ** The ledger store *)

(** The five tables.  [users], [categories] and [items] are addressed by
    primary key; [transactions] and [admin_logs] are only ever appended to
    and are kept in insertion order. *)
Record DB := mkDB {
  users : gmap Z User;
  categories : gmap Z Category;
  items : gmap Z Item;
  transactions : list Transaction;
  admin_logs : list AdminLog
}.

Definition set_users (f : gmap Z User → gmap Z User) (d : DB) : DB :=
  mkDB (f (users d)) (categories d) (items d) (transactions d) (admin_logs d).

Definition set_categories (f : gmap Z Category → gmap Z Category) (d : DB) : DB :=
  mkDB (users d) (f (categories d)) (items d) (transactions d) (admin_logs d).

Definition set_items (f : gmap Z Item → gmap Z Item) (d : DB) : DB :=
  mkDB (users d) (categories d) (f (items d)) (transactions d) (admin_logs d).

Definition set_transactions (f : list Transaction → list Transaction) (d : DB) : DB :=
  mkDB (users d) (categories d) (items d) (f (transactions d)) (admin_logs d).

Definition set_admin_logs (f : list AdminLog → list AdminLog) (d : DB) : DB :=
  mkDB (users d) (categories d) (items d) (transactions d) (f (admin_logs d)).

(** [autoincrement=True] on an integer primary key: one more than the
    largest key in the table, counting from 1. *)
Definition next_id {A : Type} (t : gmap Z A) : Z :=
  map_fold (λ k _ acc, Z.max (k + 1) acc) 1 t.

(** The constraints that models.py declares and that the store checks
    when a row is written. *)
Inductive Constraint :=
  | users_telegram_id_key
  | categories_name_key
  | items_inventory_code_key
  | items_category_id_fkey
  | transactions_item_id_fkey
  | transactions_user_id_fkey
  | admin_logs_admin_id_fkey.

Inductive Exception :=
  | ValueError (msg : string)
  | IntegrityError (c : Constraint)
  | MultipleResultsFound.

#[global] Instance Constraint_eq_dec : EqDecision Constraint.
Proof. solve_decision. Defined.

#[global] Instance Exception_eq_dec : EqDecision Exception.
Proof. solve_decision. Defined.

(** ** session.py: the unit of work *)

(** An [AsyncSession]: the state as of the last commit, the state the open
    transaction sees, and whether the engine behind it enforces the
    declared foreign keys.  [get_engine] passes no option for that, so it
    is the engine's own setting (SQLite leaves foreign keys unchecked
    unless told otherwise, other engines check them). *)
Record Session := mkSession {
  foreign_keys : bool;
  committed : DB;
  db : DB
}.

Definition begin (fk : bool) (d : DB) : Session := mkSession fk d d.

Definition commit (s : Session) : Session :=
  mkSession (foreign_keys s) (db s) (db s).

Definition rollback (s : Session) : Session :=
  mkSession (foreign_keys s) (committed s) (committed s).

(** [session.close()] without a commit drops the open transaction. *)
Definition close (s : Session) : DB := committed s.

Inductive outcome (A : Type) :=
  | Ok (a : A)
  | Raise (e : Exception).
Arguments Ok {A} _.
Arguments Raise {A} _.

(** Code that runs against a session and returns or raises. *)
Definition M (A : Type) : Type := Session → outcome A * Session.

#[global] Instance M_ret : MRet M := λ A a s, (Ok a, s).

#[global] Instance M_bind : MBind M := λ A B f m s,
  match m s with
  | (Ok a, s') => f a s'
  | (Raise e, s') => (Raise e, s')
  end.

Definition raise {A : Type} (e : Exception) : M A := λ s, (Raise e, s).

Definition gets {A : Type} (f : DB → A) : M A := λ s, (Ok (f (db s)), s).

(** A write inside the open transaction. *)
Definition write (f : DB → DB) (s : Session) : Session :=
  mkSession (foreign_keys s) (committed s) (f (db s)).

Definition modify (f : DB → DB) : M unit := λ s, (Ok tt, write f s).

Definition enforces_foreign_keys : M bool := λ s, (Ok (foreign_keys s), s).

(** A row that a flush of the session sends and the store rejects: the
    failed flush rolls the session's transaction back and the error
    reaches the caller. *)
Definition integrity_error {A : Type} (c : Constraint) : M A :=
  λ s, (Raise (IntegrityError c), rollback s).

(** A statement sent with [session.execute] that the store rejects.  The
    error reaches the caller, the store undoes that one statement, and the
    transaction stays open: what the session has written before is still
    pending. *)
Definition statement_error {A : Type} (c : Constraint) : M A :=
  λ s, (Raise (IntegrityError c), s).

(** A foreign key column: checked only where the engine enforces them. *)
Definition references {A : Type} (c : Constraint) (t : DB → gmap Z A) (k : Z) : M unit :=
  fk ← enforces_foreign_keys;
  tbl ← gets t;
  if fk && bool_decide (tbl !! k = None) then integrity_error c else mret tt.

(** [session.get(Model, key)] *)
Definition session_get {A : Type} (t : DB → gmap Z A) (k : Z) : M (option (entity A)) :=
  tbl ← gets t;
  mret (Entity k <$> tbl !! k).

(** The unit of work.  SQLAlchemy queues the INSERT of a [session.add] and
    the UPDATE of an attribute assignment until the session is flushed.
    Every operation embedded here ends with [session.flush()] and reads
    nothing between its writes and that flush, so the embedding sends each
    statement where the code queues it, inside the same transaction: the
    checks of the store are part of [add_user], [add_category], [add_item],
    [add_tx] and [add_admin_log], which fill in the primary key and the
    defaults as the flush would, and a rejected statement rolls the
    transaction back as a failed flush does.  The closing flush then finds
    the queue empty. *)
Definition flush : M unit := mret tt.

(** INSERT INTO users.  [telegram_id] is declared unique. *)
Definition add_user (now : Z) (tid : Z) (uname fname lname : option string)
    (adm : bool) : M (entity User) :=
  tbl ← gets users;
  if bool_decide (map_Exists (λ _ u, telegram_id u = tid) tbl)
  then integrity_error users_telegram_id_key
  else
    let k := next_id tbl in
    let u := mkUser tid uname fname lname adm now in
    modify (set_users (insert k u));;
    mret (Entity k u).

(** INSERT INTO categories.  [name] is declared unique; [is_active]
    defaults to true. *)
Definition add_category (now : Z) (name : string) (descr : option string)
    : M (entity Category) :=
  tbl ← gets categories;
  if bool_decide (map_Exists (λ _ c, category_name c = name) tbl)
  then integrity_error categories_name_key
  else
    let k := next_id tbl in
    let c := mkCategory name descr true now in
    modify (set_categories (insert k c));;
    mret (Entity k c).

(** INSERT INTO items.  [inventory_code] is declared unique (a NULL code
    never collides), [category_id] references categories; [status]
    defaults to AVAILABLE and the holder to NULL. *)
Definition add_item (now : Z) (cat : Z) (name : string) (code : option string)
    : M (entity Item) :=
  tbl ← gets items;
  if bool_decide (is_Some code ∧ map_Exists (λ _ i, inventory_code i = code) tbl)
  then integrity_error items_inventory_code_key
  else
    references items_category_id_fkey categories cat;;
    let k := next_id tbl in
    let i := mkItem cat name code AVAILABLE None now in
    modify (set_items (insert k i));;
    mret (Entity k i).

(** INSERT INTO transactions.  [item_id] and [user_id] are foreign keys;
    [photo_url] is never set by the services. *)
Definition add_tx (now : Z) (iid uid : Z) (act : TransactionAction)
    (photo : string) (cmt : option string) : M Transaction :=
  references transactions_item_id_fkey items iid;;
  references transactions_user_id_fkey users uid;;
  let tx := mkTransaction iid uid act photo None cmt now in
  modify (set_transactions (λ l, l ++ [tx]));;
  mret tx.

(** INSERT INTO admin_logs.  [admin_id] is a nullable foreign key. *)
Definition add_admin_log (now : Z) (adm : option Z) (act : string)
    (det : option string) : M AdminLog :=
  match adm with
  | Some a => references admin_logs_admin_id_fkey users a
  | None => mret tt
  end;;
  let entry := mkAdminLog adm act det now in
  modify (set_admin_logs (λ l, l ++ [entry]));;
  mret entry.

(** An attribute assignment on a loaded item, as the UPDATE it becomes.
    The one holder the services ever assign is the account whose id the
    same operation inserts into transactions, where the store checks it. *)
Definition update_item (k : Z) (i : Item) : M unit :=
  modify (set_items (insert k i)).

Definition update_user (k : Z) (u : User) : M unit :=
  modify (set_users (insert k u)).

(** The statements that [session.execute] sends at once.  [values(...)]
    names the columns an UPDATE assigns; a column left out keeps its
    value. *)
Record CategoryValues := mkCategoryValues {
  values_category_name : option string;
  values_description : option string;
  values_is_active : option bool
}.

Record ItemValues := mkItemValues {
  values_item_name : option string;
  values_inventory_code : option string
}.

Definition assign_category (v : CategoryValues) (c : Category) : Category :=
  mkCategory (default (category_name c) (values_category_name v))
    (match values_description v with Some x => Some x | None => description c end)
    (default (is_active c) (values_is_active v))
    (category_created_at c).

Definition assign_item (v : ItemValues) (i : Item) : Item :=
  mkItem (category_id i)
    (default (item_name i) (values_item_name v))
    (match values_inventory_code v with Some x => Some x | None => inventory_code i end)
    (status i) (current_holder_id i) (item_created_at i).

(** [UPDATE categories SET ... WHERE id = :k], giving [rowcount].  A name
    that another row carries violates the unique constraint; the statement
    goes through [session.execute], so that the failure leaves the
    transaction open. *)
Definition update_categories (k : Z) (v : CategoryValues) : M Z :=
  tbl ← gets categories;
  match tbl !! k with
  | None => mret 0
  | Some c =>
      if match values_category_name v with
         | Some n => bool_decide (map_Exists (λ k' c', k' ≠ k ∧ category_name c' = n) tbl)
         | None => false
         end
      then statement_error categories_name_key
      else modify (set_categories (insert k (assign_category v c)));; mret 1
  end.

(** [UPDATE items SET ... WHERE id = :k], giving [rowcount].  A code that
    another row carries violates the unique constraint, with the
    transaction left open as for [update_categories]. *)
Definition update_items (k : Z) (v : ItemValues) : M Z :=
  tbl ← gets items;
  match tbl !! k with
  | None => mret 0
  | Some i =>
      if match values_inventory_code v with
         | Some c =>
             bool_decide (map_Exists (λ k' i', k' ≠ k ∧ inventory_code i' = Some c) tbl)
         | None => false
         end
      then statement_error items_inventory_code_key
      else modify (set_items (insert k (assign_item v i)));; mret 1
  end.

(** The custody event belongs to an item of category [k]. *)
Definition of_category (d : DB) (k : Z) (t : Transaction) : Prop :=
  ∃ i, items d !! item_id t = Some i ∧ category_id i = k.

#[global] Instance of_category_dec d k t : Decision (of_category d k t).
Proof.
  unfold of_category. destruct (items d !! item_id t) as [i|].
  - destruct (decide (category_id i = k)) as [H|H].
    + left. by exists i.
    + right. intros (i' & [= <-] & ?). done.
  - right. by intros (i' & ? & _).
Defined.

(** What [ON DELETE CASCADE] removes with category [k]: its items, and
    the custody events of those items. *)
Definition cascade_category (k : Z) (d : DB) : DB :=
  set_items (filter (λ kv : Z * Item, category_id kv.2 ≠ k))
    (set_transactions (filter (λ t, ¬ of_category d k t)) d).

(** What [ON DELETE CASCADE] removes with item [k]: its custody events. *)
Definition cascade_item (k : Z) (d : DB) : DB :=
  set_transactions (filter (λ t, item_id t ≠ k)) d.

(** [DELETE FROM categories WHERE id = :k], giving [rowcount].  The
    statement does not go through the mapped relationships, so whatever
    follows the category follows it by the foreign keys of the store,
    where the engine enforces them. *)
Definition delete_categories (k : Z) : M Z :=
  tbl ← gets categories;
  match tbl !! k with
  | None => mret 0
  | Some _ =>
      fk ← enforces_foreign_keys;
      modify (λ d, set_categories (delete k) (if fk : bool then cascade_category k d else d));;
      mret 1
  end.

(** [DELETE FROM items WHERE id = :k], giving [rowcount]. *)
Definition delete_items (k : Z) : M Z :=
  tbl ← gets items;
  match tbl !! k with
  | None => mret 0
  | Some _ =>
      fk ← enforces_foreign_keys;
      modify (λ d, set_items (delete k) (if fk : bool then cascade_item k d else d));;
      mret 1
  end.

(** The rows of a table that a WHERE clause keeps, as mapped objects. *)
Definition select_where {A : Type} (P : Z * A → Prop) `{!∀ kv, Decision (P kv)}
    (tbl : gmap Z A) : list (entity A) :=
  (λ kv, Entity kv.1 kv.2) <$> map_to_list (filter P tbl).

(** [ORDER BY name], [ORDER BY id] and [ORDER BY created_at DESC].  Names
    compare character by character. *)
Definition order_by_category_name : list (entity Category) → list (entity Category) :=
  merge_sort (λ a b, String.le (category_name (row a)) (category_name (row b))).

Definition order_by_item_name : list (entity Item) → list (entity Item) :=
  merge_sort (λ a b, String.le (item_name (row a)) (item_name (row b))).

Definition id_le {A : Type} (a b : entity A) : Prop := obj_id a ≤ obj_id b.

#[global] Instance id_le_dec {A : Type} (a b : entity A) : Decision (id_le a b).
Proof. unfold id_le. apply _. Defined.

Definition order_by_id {A : Type} : list (entity A) → list (entity A) :=
  merge_sort id_le.

Definition not_older (a b : Transaction) : Prop := created_at b ≤ created_at a.

#[global] Instance not_older_dec (a b : Transaction) : Decision (not_older a b).
Proof. unfold not_older. apply _. Defined.

Definition order_by_created_at_desc : list Transaction → list Transaction :=
  merge_sort not_older.

(** [LIMIT :n] for a limit that is not negative. *)
Definition limit_rows {A : Type} (n : Z) (rows : list A) : list A :=
  take (Z.to_nat n) rows.

(** [result.scalar_one_or_none()] *)
Definition scalar_one_or_none {A : Type} (rows : list A) : M (option A) :=
  match rows with
  | [] => mret None
  | [r] => mret (Some r)
  | _ => raise MultipleResultsFound
  end.

(** [ORDER BY created_at DESC LIMIT 1]: the row with the largest time
    stamp.  SQL leaves the choice among equal stamps open; the fold keeps
    the row met first. *)
Definition newer (acc : option Transaction) (t : Transaction) : option Transaction :=
  match acc with
  | None => Some t
  | Some a => if created_at a <? created_at t then Some t else Some a
  end.

Definition order_by_created_at_desc_limit_1 (rows : list Transaction) : list Transaction :=
  match fold_left newer rows None with
  | Some t => [t]
  | None => []
  end.

(** Truth value of a string: empty is false. *)
Definition truthy (s : string) : bool :=
  match s with
  | EmptyString => false
  | String _ _ => true
  end.

Definition with_is_admin (b : bool) (u : User) : User :=
  mkUser (telegram_id u) (username u) (first_name u) (last_name u) b (user_created_at u).

Definition with_username (x : option string) (u : User) : User :=
  mkUser (telegram_id u) x (first_name u) (last_name u) (is_admin u) (user_created_at u).

Definition with_first_name (x : option string) (u : User) : User :=
  mkUser (telegram_id u) (username u) x (last_name u) (is_admin u) (user_created_at u).

Definition with_last_name (x : option string) (u : User) : User :=
  mkUser (telegram_id u) (username u) (first_name u) x (is_admin u) (user_created_at u).

Definition with_status (st : ItemStatus) (i : Item) : Item :=
  mkItem (category_id i) (item_name i) (inventory_code i) st (current_holder_id i)
    (item_created_at i).

Definition with_current_holder_id (h : option Z) (i : Item) : Item :=
  mkItem (category_id i) (item_name i) (inventory_code i) (status i) h
    (item_created_at i).

(** [WHERE users.telegram_id = :telegram_id] *)
Definition has_telegram_id (tid : Z) (kv : Z * User) : Prop :=
  telegram_id kv.2 = tid.

#[global] Instance has_telegram_id_dec tid kv : Decision (has_telegram_id tid kv).
Proof. unfold has_telegram_id. apply _. Defined.

(** [WHERE transactions.item_id = :item_id AND transactions.action = 'take'] *)
Definition is_take_of (k : Z) (t : Transaction) : Prop :=
  item_id t = k ∧ action t = TAKE.

#[global] Instance is_take_of_dec k t : Decision (is_take_of k t).
Proof. unfold is_take_of. apply _. Defined.

(** [WHERE items.category_id = :category_id] *)
Definition in_category (k : Z) (kv : Z * Item) : Prop := category_id kv.2 = k.

#[global] Instance in_category_dec k kv : Decision (in_category k kv).
Proof. unfold in_category. apply _. Defined.

(** [WHERE transactions.item_id = :item_id] and
    [WHERE transactions.user_id = :user_id] *)
Definition of_item (k : Z) (t : Transaction) : Prop := item_id t = k.

#[global] Instance of_item_dec k t : Decision (of_item k t).
Proof. unfold of_item. apply _. Defined.

Definition of_user (k : Z) (t : Transaction) : Prop := user_id t = k.

#[global] Instance of_user_dec k t : Decision (of_user k t).
Proof. unfold of_user. apply _. Defined.

(** A custody event with the account its [user] relationship loads. *)
Definition with_user (tbl : gmap Z User) (t : Transaction)
    : Transaction * option (entity User) :=
  (t, Entity (user_id t) <$> tbl !! user_id t).

(** ** repositories.py *)

(** Whatever writes a row takes the instant [now] that [datetime.utcnow]
    yields when the row is sent; it becomes the row's [created_at]. *)

Module UserRepository.

Definition get_or_create_from_telegram (now : Z) (telegram_id : Z)
    (username first_name last_name : option string) (make_admin : bool)
    : M (entity User) :=
  tbl ← gets users;
  let result :=
    (λ kv, Entity kv.1 kv.2) <$>
      map_to_list (filter (has_telegram_id telegram_id) tbl) in
  user ← scalar_one_or_none result;
  match user with
  | Some user =>
      let u := row user in
      let u := if make_admin && negb (is_admin u) then with_is_admin true u else u in
      let u := with_username username u in
      let u := with_first_name first_name u in
      let u := with_last_name last_name u in
      update_user (obj_id user) u;;
      mret (Entity (obj_id user) u)
  | None =>
      add_user now telegram_id username first_name last_name make_admin
  end.

Definition get_by_id (user_id : Z) : M (option (entity User)) :=
  session_get users user_id.

Definition list_all : M (list (entity User)) :=
  tbl ← gets users;
  mret (order_by_id (select_where (λ _, True) tbl)).

Definition list_admins : M (list (entity User)) :=
  tbl ← gets users;
  mret (select_where (λ kv, is_admin kv.2 = true) tbl).

Definition toggle_admin (user_id : Z) : M (option bool) :=
  user ← session_get users user_id;
  match user with
  | None => mret None
  | Some user =>
      let u := with_is_admin (negb (is_admin (row user))) (row user) in
      update_user (obj_id user) u;;
      mret (Some (is_admin u))
  end.

End UserRepository.

Module CategoryRepository.

Definition create (now : Z) (name : string) (description : option string)
    : M (entity Category) :=
  add_category now name description.

Definition list_active : M (list (entity Category)) :=
  tbl ← gets categories;
  mret (order_by_category_name (select_where (λ kv, is_active kv.2 = true) tbl)).

Definition list_all : M (list (entity Category)) :=
  tbl ← gets categories;
  mret (order_by_category_name (select_where (λ _, True) tbl)).

Definition get_by_id (category_id : Z) : M (option (entity Category)) :=
  session_get categories category_id.

Definition update (category_id : Z) (name description : option string) : M bool :=
  match name, description with
  | None, None => mret false
  | _, _ =>
      rowcount ← update_categories category_id (mkCategoryValues name description None);
      mret (0 <? rowcount)
  end.

Definition rename (category_id : Z) (new_name : string) : M bool :=
  rowcount ← update_categories category_id (mkCategoryValues (Some new_name) None None);
  mret (0 <? rowcount).

Definition soft_delete (category_id : Z) : M bool :=
  rowcount ← update_categories category_id (mkCategoryValues None None (Some false));
  mret (0 <? rowcount).

Definition hard_delete (category_id : Z) : M bool :=
  rowcount ← delete_categories category_id;
  mret (0 <? rowcount).

Definition set_active (category_id : Z) (active : bool) : M bool :=
  rowcount ← update_categories category_id (mkCategoryValues None None (Some active));
  mret (0 <? rowcount).

End CategoryRepository.

Module ItemRepository.

Definition get_by_id (item_id : Z) : M (option (entity Item)) :=
  session_get items item_id.

Definition create (now : Z) (category_id : Z) (name : string)
    (inventory_code : option string) : M (entity Item) :=
  add_item now category_id name inventory_code.

Definition list_by_category (category_id : Z) : M (list (entity Item)) :=
  tbl ← gets items;
  mret (order_by_item_name
          (select_where (in_category category_id) tbl)).

Definition list_on_hands : M (list (entity Item)) :=
  tbl ← gets items;
  mret (select_where (λ kv, status kv.2 = TAKEN) tbl).

Definition list_available : M (list (entity Item)) :=
  tbl ← gets items;
  mret (order_by_item_name (select_where (λ kv, status kv.2 = AVAILABLE) tbl)).

Definition list_for_holder (user_id : Z) : M (list (entity Item)) :=
  tbl ← gets items;
  mret (order_by_item_name
          (select_where (λ kv, current_holder_id kv.2 = Some user_id) tbl)).

Definition update (item_id : Z) (name inventory_code : option string) : M bool :=
  match name, inventory_code with
  | None, None => mret false
  | _, _ =>
      rowcount ← update_items item_id (mkItemValues name inventory_code);
      mret (0 <? rowcount)
  end.

Definition delete (item_id : Z) : M bool :=
  rowcount ← delete_items item_id;
  mret (0 <? rowcount).

End ItemRepository.

Module TransactionRepository.

Definition add_transaction (now : Z) (item_id user_id : Z)
    (action : TransactionAction) (photo_file_id : string)
    (comment : option string) : M Transaction :=
  add_tx now item_id user_id action photo_file_id comment.

Definition get_latest_take_for_item (item_id : Z) : M (option Transaction) :=
  tbl ← gets transactions;
  let result :=
    order_by_created_at_desc_limit_1 (filter (is_take_of item_id) tbl) in
  scalar_one_or_none result.

Definition list_for_item (item_id : Z) (limit : Z) : M (list Transaction) :=
  tbl ← gets transactions;
  mret (limit_rows limit
          (order_by_created_at_desc (filter (of_item item_id) tbl))).

Definition list_for_user (user_id : Z) (limit : Z) : M (list Transaction) :=
  tbl ← gets transactions;
  mret (limit_rows limit
          (order_by_created_at_desc (filter (of_user user_id) tbl))).

(** The same rows as [list_for_item], each with its [user] loaded (none
    where the account is not in the store). *)
Definition list_for_item_with_user (item_id : Z) (limit : Z)
    : M (list (Transaction * option (entity User))) :=
  rows ← list_for_item item_id limit;
  tbl ← gets users;
  mret (with_user tbl <$> rows).

End TransactionRepository.

Module AdminLogRepository.

Definition log (now : Z) (admin_id : option Z) (action : string)
    (details : option string) : M AdminLog :=
  add_admin_log now admin_id action details.

End AdminLogRepository.

(** ** inventory_service.py *)

Module InventoryService.

(** The two locals that open [ensure_user]. *)
Definition normalized_username (username : option string) : string :=
  lower (lstrip "@" (or_empty username)).

Definition make_admin (telegram_id : Z) (username : option string)
    (initial_admin_ids : list Z) (initial_admin_usernames : list string) : bool :=
  bool_decide (telegram_id ∈ initial_admin_ids)
  || (if truthy (normalized_username username)
      then bool_decide (normalized_username username ∈ initial_admin_usernames)
      else false).

Definition ensure_user (now : Z) (telegram_id : Z)
    (username first_name last_name : option string)
    (initial_admin_ids : list Z) (initial_admin_usernames : list string)
    : M (entity User) :=
  user ← UserRepository.get_or_create_from_telegram now telegram_id username
           first_name last_name
           (make_admin telegram_id username initial_admin_ids initial_admin_usernames);
  flush;;
  mret user.

Definition take_item (now : Z) (item_id : Z) (user : entity User)
    (photo_file_id : string) (comment : option string) : M Transaction :=
  item ← ItemRepository.get_by_id item_id;
  match item with
  | None => raise (ValueError "Item not found")
  | Some item =>
      if bool_decide (status (row item) ≠ AVAILABLE)
      then raise (ValueError "Item is not available")
      else
        let i := with_status TAKEN (row item) in
        let i := with_current_holder_id (Some (obj_id user)) i in
        update_item (obj_id item) i;;
        tx ← TransactionRepository.add_transaction now (obj_id item) (obj_id user)
               TAKE photo_file_id comment;
        flush;;
        mret tx
  end.

Definition return_item (now : Z) (item_id : Z) (user : entity User)
    (photo_file_id : string) (comment : option string) : M Transaction :=
  item ← ItemRepository.get_by_id item_id;
  match item with
  | None => raise (ValueError "Item not found")
  | Some item =>
      if bool_decide (status (row item) ≠ TAKEN)
      then raise (ValueError "Item is not currently taken")
      else if bool_decide (current_holder_id (row item) ≠ Some (obj_id user))
      then raise (ValueError "Item is held by another user")
      else
        let i := with_status AVAILABLE (row item) in
        let i := with_current_holder_id None i in
        update_item (obj_id item) i;;
        tx ← TransactionRepository.add_transaction now (obj_id item) (obj_id user)
               RETURN photo_file_id comment;
        flush;;
        mret tx
  end.

Definition list_categories : M (list (entity Category)) :=
  CategoryRepository.list_active.

Definition list_items_for_category (category_id : Z) : M (list (entity Item)) :=
  ItemRepository.list_by_category category_id.

Definition list_items_for_user (user_id : Z) : M (list (entity Item)) :=
  ItemRepository.list_for_holder user_id.

End InventoryService.

(** [str(b)] for a Boolean, as an f-string prints it. *)
Definition pretty_bool (b : bool) : string := if b then "True" else "False".

(** [if ok: await self.logs.log(...)] followed by [return ok].  The call
    only queues the audit row: there is no flush in these operations, so
    the row is sent, its foreign key checked and its [created_at] taken by
    the next flush of the session, the commit that ends the handler's
    transaction at the latest.  [flushed_at] is the instant of that flush,
    not of the call.  Nothing embedded here reads [admin_logs], and the
    rows of one session are sent in the order in which they were queued, so
    the embedding writes the row where the code queues it.  A row that the
    store refuses makes that flush fail and roll the transaction back; the
    embedding raises at the call, which the handlers do not tell apart, as
    each of them commits right after the call. *)
Definition log_if (ok : bool) (flushed_at : Z) (admin : entity User) (action : string)
    (details : string) : M bool :=
  if ok
  then AdminLogRepository.log flushed_at (Some (obj_id admin)) action (Some details);;
       mret ok
  else mret ok.

(** ** admin_service.py *)

Module AdminService.

Definition create_category (now : Z) (admin : entity User) (name : string)
    (description : option string) : M (entity Category) :=
  category ← CategoryRepository.create now name description;
  AdminLogRepository.log now (Some (obj_id admin)) "create_category"
    (Some ("name=" +:+ name));;
  flush;;
  mret category.

Definition create_item (now : Z) (admin : entity User) (category_id : Z)
    (name : string) (inventory_code : option string) : M (entity Item) :=
  item ← ItemRepository.create now category_id name inventory_code;
  AdminLogRepository.log now (Some (obj_id admin)) "create_item"
    (Some ("category_id=" +:+ pretty category_id +:+ ",name=" +:+ name));;
  flush;;
  mret item.

Definition set_item_status (now : Z) (admin : entity User) (item_id : Z)
    (status : ItemStatus) : M bool :=
  item ← ItemRepository.get_by_id item_id;
  match item with
  | None => mret false
  | Some item =>
      let i := with_status status (row item) in
      let i := if bool_decide (status ≠ TAKEN) then with_current_holder_id None i else i in
      update_item (obj_id item) i;;
      AdminLogRepository.log now (Some (obj_id admin)) "set_item_status"
        (Some ("item_id=" +:+ pretty item_id +:+ ",status=" +:+ status_value status));;
      flush;;
      mret true
  end.

Definition rename_category (flushed_at : Z) (admin : entity User) (category_id : Z)
    (new_name : string) : M bool :=
  ok ← CategoryRepository.rename category_id new_name;
  log_if ok flushed_at admin "rename_category"
    ("id=" +:+ pretty category_id +:+ ",new_name=" +:+ new_name).

Definition deactivate_category (flushed_at : Z) (admin : entity User) (category_id : Z)
    : M bool :=
  ok ← CategoryRepository.soft_delete category_id;
  log_if ok flushed_at admin "deactivate_category" ("id=" +:+ pretty category_id).

Definition activate_category (flushed_at : Z) (admin : entity User) (category_id : Z)
    : M bool :=
  ok ← CategoryRepository.set_active category_id true;
  log_if ok flushed_at admin "activate_category" ("id=" +:+ pretty category_id).

Definition delete_category (flushed_at : Z) (admin : entity User) (category_id : Z)
    : M bool :=
  ok ← CategoryRepository.hard_delete category_id;
  log_if ok flushed_at admin "delete_category" ("id=" +:+ pretty category_id).

Definition rename_item (flushed_at : Z) (admin : entity User) (item_id : Z)
    (new_name : string) : M bool :=
  ok ← ItemRepository.update item_id (Some new_name) None;
  log_if ok flushed_at admin "rename_item"
    ("id=" +:+ pretty item_id +:+ ",new_name=" +:+ new_name).

Definition update_item_code (flushed_at : Z) (admin : entity User) (item_id : Z)
    (new_code : string) : M bool :=
  ok ← ItemRepository.update item_id None (Some new_code);
  log_if ok flushed_at admin "update_item_code"
    ("id=" +:+ pretty item_id +:+ ",new_code=" +:+ new_code).

Definition delete_item (flushed_at : Z) (admin : entity User) (item_id : Z) : M bool :=
  ok ← ItemRepository.delete item_id;
  log_if ok flushed_at admin "delete_item" ("id=" +:+ pretty item_id).

Definition toggle_admin (now : Z) (admin : entity User) (target_user_id : Z)
    : M (option bool) :=
  new_value ← UserRepository.toggle_admin target_user_id;
  match new_value with
  | Some b =>
      AdminLogRepository.log now (Some (obj_id admin)) "toggle_admin"
        (Some ("target_user_id=" +:+ pretty target_user_id
               +:+ ",new_is_admin=" +:+ pretty_bool b));;
      flush;;
      mret new_value
  | None => mret new_value
  end.

End AdminService.

(** ** config.py *)

Module Config.

Record Settings := mkSettings {
  bot_token : string;
  db_url : string;
  initial_admin_ids : list Z;
  initial_admin_usernames : list string
}.

Definition _parse_admin_ids (raw : option string) : list Z :=
  if truthy (or_empty raw)
  then omap (λ part, let part := strip part in
                     if truthy part then int part else None)
         (split "," (or_empty raw))
  else [].

Definition _parse_admin_usernames (raw : option string) : list string :=
  if truthy (or_empty raw)
  then omap (λ part, let part := strip part in
                     if truthy part
                     then let normalized := lower (lstrip "@" part) in
                          if truthy normalized then Some normalized else None
                     else None)
         (split "," (or_empty raw))
  else [].

(** [get_settings] on the process environment; [inl] carries the message
    of the [RuntimeError] it raises. *)
Definition get_settings (environ : gmap string string) : string + Settings :=
  let bot_token := default EmptyString (environ !! "BOT_TOKEN") in
  if truthy bot_token
  then inr (mkSettings bot_token
              (default "sqlite+aiosqlite:///./inventory.db" (environ !! "DB_URL"))
              (_parse_admin_ids (environ !! "INITIAL_ADMIN_IDS"))
              (_parse_admin_usernames (environ !! "INITIAL_ADMIN_USERNAMES")))
  else inl "BOT_TOKEN is not set in environment".

End Config.

(** ** keyboards.py *)

Module Keyboards.

Record InlineKeyboardButton := mkButton {
  text : string;
  callback_data : string
}.

(** [InlineKeyboardMarkup(inline_keyboard=rows)] *)
Definition InlineKeyboardMarkup : Type := list (list InlineKeyboardButton).

#[global] Instance InlineKeyboardButton_eq_dec : EqDecision InlineKeyboardButton.
Proof. solve_decision. Defined.

Definition item_actions_keyboard (item_id : Z) (can_take can_return : bool)
    (category_id : option Z) : InlineKeyboardMarkup :=
  let buttons := [] in
  let buttons :=
    if can_take
    then buttons ++ [[mkButton "✋ Взять позицию" ("take:" +:+ pretty item_id)]]
    else buttons in
  let buttons :=
    if can_return
    then buttons ++ [[mkButton "↩️ Вернуть позицию" ("return:" +:+ pretty item_id)]]
    else buttons in
  let back_data := "back:items:" +:+ pretty item_id in
  let buttons := buttons ++ [[mkButton "← Назад к списку" back_data]] in
  buttons ++ [[mkButton "← К категориям" "back:categories"]].

Definition STATUS_LIST : list (string * string) :=
  [("available", "✅ Доступно");
   ("taken", "🔴 Выдано");
   ("maintenance", "🔧 На обслуживании");
   ("lost", "❓ Утеряно")].

Definition admin_item_actions_keyboard (item_id category_id : Z) (status : string)
    : InlineKeyboardMarkup :=
  let status_buttons :=
    omap (λ '(st_key, st_label),
            if bool_decide (st_key ≠ status)
            then Some (mkButton ("→ " +:+ st_label)
                         ("adm_item_status:" +:+ pretty item_id +:+ ":" +:+ st_key))
            else None)
      STATUS_LIST in
  let buttons :=
    [[mkButton "✏️ Переименовать" ("adm_item_rename:" +:+ pretty item_id)];
     [mkButton "🏷 Изменить инв. код" ("adm_item_code:" +:+ pretty item_id)];
     status_buttons;
     [mkButton "🗑 Удалить позицию" ("adm_item_del:" +:+ pretty item_id)];
     [mkButton "← Назад к списку" ("adm_items:" +:+ pretty category_id)]] in
  filter (λ row, row ≠ []) buttons.

Definition admin_user_actions_keyboard (user_id : Z) (is_admin : bool)
    : InlineKeyboardMarkup :=
  let toggle_text :=
    if is_admin then "⬇️ Снять права админа" else "⬆️ Назначить админом" in
  [[mkButton toggle_text ("adm_user_toggle:" +:+ pretty user_id)];
   [mkButton "← Назад к пользователям" "adm_back:users"]].

End Keyboards.

(** ** handlers_user.py and handlers_admin.py *)

(** [message.from_user] and [callback.from_user]: the Telegram account
    behind an update. *)
Record FromUser := mkFromUser {
  from_id : Z;
  from_username : option string;
  from_first_name : option string;
  from_last_name : option string
}.

(** The call every handler opens its session with. *)
Definition ensure_from (now : Z) (settings : Config.Settings) (from_user : FromUser)
    : M (entity User) :=
  InventoryService.ensure_user now (from_id from_user) (from_username from_user)
    (from_first_name from_user) (from_last_name from_user)
    (Config.initial_admin_ids settings) (Config.initial_admin_usernames settings).

(** [int(data.split(":", maxsplit=1)[1])], [None] where the subscript or
    [int] raises. *)
Definition int_after_colon (data : string) : option Z :=
  part ← split_once ":" data !! 1%nat;
  int part.

Module HandlersUser.

(** The reply of [on_item_selected]: no keyboard where the item is not
    found.  The handler leaves its session without a commit. *)
Definition on_item_selected (now : Z) (settings : Config.Settings)
    (from_user : FromUser) (data : string)
    : option (M (option Keyboards.InlineKeyboardMarkup)) :=
  item_id ← int_after_colon data;
  Some (user ← ensure_from now settings from_user;
        item ← ItemRepository.get_by_id item_id;
        match item with
        | None => mret None
        | Some item =>
            let can_take := bool_decide (status (row item) = AVAILABLE) in
            let can_return :=
              bool_decide (status (row item) = TAKEN)
              && bool_decide (current_holder_id (row item) = Some (obj_id user)) in
            mret (Some (Keyboards.item_actions_keyboard (obj_id item) can_take
                          can_return (Some (category_id (row item)))))
        end).

(** [start_take_item] and [start_return_item] keep the item id of the
    button for the photo that follows. *)
Definition start_take_item (data : string) : option Z := int_after_colon data.

Definition start_return_item (data : string) : option Z := int_after_colon data.

(** The session of [receive_take_photo]: a [ValueError] is answered and
    any other exception propagates, and neither way is there a commit. *)
Definition receive_take_photo (now : Z) (settings : Config.Settings)
    (from_user : FromUser) (item_id : Z) (photo_file_id : string) : M Transaction :=
  user ← ensure_from now settings from_user;
  InventoryService.take_item now item_id user photo_file_id None.

Definition receive_return_photo (now : Z) (settings : Config.Settings)
    (from_user : FromUser) (item_id : Z) (photo_file_id : string) : M Transaction :=
  user ← ensure_from now settings from_user;
  InventoryService.return_item now item_id user photo_file_id None.

End HandlersUser.

Module HandlersAdmin.

(** [_get_admin_user]: the account, committed, if it is an administrator. *)
Definition _get_admin_user (now : Z) (settings : Config.Settings)
    (from_user : FromUser) : M (option (entity User)) :=
  user ← ensure_from now settings from_user;
  mret (if is_admin (row user) then Some user else None).

(** [_require_admin], for an update that has a sender. *)
Definition _require_admin (now : Z) (settings : Config.Settings)
    (from_user : FromUser) : M bool :=
  user ← _get_admin_user now settings from_user;
  mret (bool_decide (is_Some user)).

Definition STATUS_MAP (status_key : string) : option ItemStatus :=
  if bool_decide (status_key = "available") then Some AVAILABLE
  else if bool_decide (status_key = "taken") then Some TAKEN
  else if bool_decide (status_key = "lost") then Some LOST
  else if bool_decide (status_key = "maintenance") then Some MAINTENANCE
  else None.

(** What [adm_item_set_status] does with its callback data: outer [None]
    where [parts[1]], [parts[2]] or [int] raises, inner [None] where the
    status key is refused with an alert, before any session is opened. *)
Definition adm_item_set_status (now : Z) (settings : Config.Settings)
    (from_user : FromUser) (data : string) : option (option (M bool)) :=
  let parts := split ":" data in
  item_id ← parts !! 1%nat ≫= int;
  status_key ← parts !! 2%nat;
  Some (new_status ← STATUS_MAP status_key;
        Some (admin ← ensure_from now settings from_user;
              AdminService.set_item_status now admin item_id new_status)).

Definition adm_toggle_admin (now : Z) (settings : Config.Settings)
    (from_user : FromUser) (data : string) : option (M (option bool)) :=
  target_user_id ← int_after_colon data;
  Some (admin ← ensure_from now settings from_user;
        AdminService.toggle_admin now admin target_user_id).

(** [adm_item_code_finish], with the item id the conversation kept. *)
Definition adm_item_code_finish (now : Z) (settings : Config.Settings)
    (from_user : FromUser) (message_text : option string) (item_id : Z) : M bool :=
  let text := if truthy (or_empty message_text) then strip (or_empty message_text)
              else EmptyString in
  let new_code := if bool_decide (text = "/skip") then EmptyString else text in
  admin ← ensure_from now settings from_user;
  AdminService.update_item_code now admin item_id new_code.

(** [_user_short]: the display name of the account a custody event
    loads, for names whose white space is ASCII. *)
Definition _user_short (user : option (entity User)) : string :=
  match user with
  | None => "неизвестно"
  | Some user =>
      let parts := [] in
      let parts :=
        if truthy (or_empty (first_name (row user)))
        then parts ++ [or_empty (first_name (row user))] else parts in
      let parts :=
        if truthy (or_empty (last_name (row user)))
        then parts ++ [or_empty (last_name (row user))] else parts in
      let name := if bool_decide (parts ≠ []) then join " " parts else EmptyString in
      let name :=
        if truthy (or_empty (username (row user)))
        then strip (name +:+ " (@" +:+ or_empty (username (row user)) +:+ ")")
        else name in
      if truthy name then name else "ID " +:+ pretty (telegram_id (row user))
  end.

(** What [_build_overview_text_and_kb] hands to the keyboard of the
    overview: for every item on hands its id, its name and the display name
    of the account of its most recent take event, and next to that list the
    number of available items.  The text of the message, built from the
    same rows, is left out. *)
Definition _build_overview_text_and_kb : M (list (Z * string * string) * Z) :=
  on_hands ← ItemRepository.list_on_hands;
  available ← ItemRepository.list_available;
  categories ← CategoryRepository.list_all;
  on_hands_details ←
    mapM (λ item : entity Item,
            tx ← TransactionRepository.get_latest_take_for_item (obj_id item);
            tbl ← gets users;
            let holder_name :=
              match tx with
              | Some tx => _user_short (with_user tbl tx).2
              | None => "неизвестно"
              end in
            mret (obj_id item, item_name (row item), holder_name))
      on_hands;
  mret (on_hands_details, Z.of_nat (length available)).

End HandlersAdmin.

(** ** The handlers' unit of work *)

(** [async with get_session() as session: ...; await session.commit()]:
    the handlers of [app/bot] open a session per request, commit when the
    service call returns and leave the block without a commit when it
    raises. *)
Definition transact {A : Type} (fk : bool) (body : M A) (d : DB) : outcome A * DB :=
  match body (begin fk d) with
  | (Ok a, s) => (Ok a, db (commit s))
  | (Raise e, s) => (Raise e, close s)
  end.

(** The requests that reach the two services: every call of
    [InventoryService] and [AdminService] that writes to the store. *)
Inductive Request :=
  | CheckOut (now : Z) (item : Z) (user : entity User) (photo : string)
      (cmt : option string)
  | CheckIn (now : Z) (item : Z) (user : entity User) (photo : string)
      (cmt : option string)
  | ForceStatus (now : Z) (admin : entity User) (item : Z) (st : ItemStatus)
  | CreateItem (now : Z) (admin : entity User) (cat : Z) (name : string)
      (code : option string)
  | EnsureUser (now : Z) (tid : Z) (uname fname lname : option string)
      (ids : list Z) (names : list string)
  | CreateCategory (now : Z) (admin : entity User) (name : string)
      (descr : option string)
  | RenameCategory (now : Z) (admin : entity User) (cat : Z) (name : string)
  | DeactivateCategory (now : Z) (admin : entity User) (cat : Z)
  | ActivateCategory (now : Z) (admin : entity User) (cat : Z)
  | DeleteCategory (now : Z) (admin : entity User) (cat : Z)
  | RenameItem (now : Z) (admin : entity User) (item : Z) (name : string)
  | UpdateItemCode (now : Z) (admin : entity User) (item : Z) (code : string)
  | DeleteItem (now : Z) (admin : entity User) (item : Z)
  | ToggleAdmin (now : Z) (admin : entity User) (target : Z).

Definition handle (r : Request) : M unit :=
  match r with
  | CheckOut now k u photo cmt =>
      InventoryService.take_item now k u photo cmt;; mret tt
  | CheckIn now k u photo cmt =>
      InventoryService.return_item now k u photo cmt;; mret tt
  | ForceStatus now a k st =>
      AdminService.set_item_status now a k st;; mret tt
  | CreateItem now a cat name code =>
      AdminService.create_item now a cat name code;; mret tt
  | EnsureUser now tid uname fname lname ids names =>
      InventoryService.ensure_user now tid uname fname lname ids names;; mret tt
  | CreateCategory now a name descr =>
      AdminService.create_category now a name descr;; mret tt
  | RenameCategory now a cat name =>
      AdminService.rename_category now a cat name;; mret tt
  | DeactivateCategory now a cat =>
      AdminService.deactivate_category now a cat;; mret tt
  | ActivateCategory now a cat =>
      AdminService.activate_category now a cat;; mret tt
  | DeleteCategory now a cat =>
      AdminService.delete_category now a cat;; mret tt
  | RenameItem now a k name =>
      AdminService.rename_item now a k name;; mret tt
  | UpdateItemCode now a k code =>
      AdminService.update_item_code now a k code;; mret tt
  | DeleteItem now a k =>
      AdminService.delete_item now a k;; mret tt
  | ToggleAdmin now a target =>
      AdminService.toggle_admin now a target;; mret tt
  end.


(** One request served in its own transaction. *)
Definition step (fk : bool) (d : DB) (r : Request) : outcome unit * DB :=
  transact fk (handle r) d.

(** Requests served one after the other: the outcomes, and the store at
    the end. *)
Fixpoint serve (fk : bool) (d : DB) (rs : list Request) : list (outcome unit) * DB :=
  match rs with
  | [] => ([], d)
  | r :: rs' =>
      let (o, d') := step fk d r in
      let (os, d'') := serve fk d' rs' in
      (o :: os, d'')
  end.





Definition is_ok {A : Type} (o : outcome A) : bool :=
  match o with
  | Ok _ => true
  | Raise _ => false
  end.


(** ** The properties of the specification *)

(** The failure kinds the specification names, as the exceptions the
    services raise for them. *)
Definition ItemNotFound : Exception := ValueError "Item not found".
Definition InvalidTransition_not_available : Exception :=
  ValueError "Item is not available".
Definition InvalidTransition_not_taken : Exception :=
  ValueError "Item is not currently taken".
Definition NotHolder : Exception := ValueError "Item is held by another user".
Definition DuplicateCode : Exception := IntegrityError items_inventory_code_key.
Definition DuplicateName : Exception := IntegrityError categories_name_key.
Definition CategoryNotFound : Exception := IntegrityError items_category_id_fkey.

(** The account is a row of the users table. *)
Definition known_user (d : DB) (u : entity User) : Prop :=
  is_Some (users d !! obj_id u).

(** A property of every item of the store. *)
Definition every_item (R : Item → Prop) (d : DB) : Prop :=
  ∀ k i, items d !! k = Some i → R i.

(** [state == taken ⇔ current_holder != none], for every item. *)
Definition holder_iff_taken : DB → Prop :=
  every_item (λ i, status i = TAKEN ↔ current_holder_id i ≠ None).

(** The half of it that an override to [TAKEN] keeps. *)
Definition holder_only_if_taken : DB → Prop :=
  every_item (λ i, current_holder_id i ≠ None → status i = TAKEN).

(** A property of the store that holds of both states of a session. *)
Definition session_inv (P : DB → Prop) (s : Session) : Prop :=
  P (committed s) ∧ P (db s).

(** The account of the most recent [take] event of item [k], read with
    [get_latest_take_for_item] in a fresh session. *)
Definition latest_taker (d : DB) (k : Z) : option Z :=
  match (TransactionRepository.get_latest_take_for_item k (begin false d)).1 with
  | Ok (Some tx) => Some (user_id tx)
  | _ => None
  end.

(** A relation between every item and the account of its latest take. *)
Definition agrees_with (R : Item → option Z → Prop) (d : DB) : Prop :=
  ∀ k i, items d !! k = Some i → R i (latest_taker d k).

(** History agreement: the holder of a taken item is the account of its
    most recent [take] event, and no other item has a holder. *)
Definition taken_by_latest (i : Item) (latest : option Z) : Prop :=
  (status i = TAKEN →
     is_Some (current_holder_id i) ∧ current_holder_id i = latest)
  ∧ (status i ≠ TAKEN → current_holder_id i = None).

Definition history_agrees : DB → Prop := agrees_with taken_by_latest.




(** The item as [set_item_status] rewrites it. *)
Definition forced (st : ItemStatus) (i : Item) : Item :=
  if bool_decide (st ≠ TAKEN)
  then with_current_holder_id None (with_status st i)
  else with_status st i.

(** The audit entries the administrative calls write. *)
Definition set_item_status_entry (now : Z) (admin : entity User) (k : Z)
    (st : ItemStatus) : AdminLog :=
  mkAdminLog (Some (obj_id admin)) "set_item_status"
    (Some ("item_id=" +:+ pretty k +:+ ",status=" +:+ status_value st)) now.

Definition create_item_entry (now : Z) (admin : entity User) (cat : Z)
    (name : string) : AdminLog :=
  mkAdminLog (Some (obj_id admin)) "create_item"
    (Some ("category_id=" +:+ pretty cat +:+ ",name=" +:+ name)) now.

(** No item carries the code yet (a NULL code is always free). *)
Definition code_free (d : DB) (code : option string) : Prop :=
  ∀ c, code = Some c → ∀ k i, items d !! k = Some i → inventory_code i ≠ Some c.

(** ** What the remaining code is measured against *)

(** [k] with row [u] is the one account with the telegram id of the sender:
    what the unique constraint on [telegram_id] provides. *)
Definition account_of (d : DB) (f : FromUser) (k : Z) (u : User) : Prop :=
  users d !! k = Some u
  ∧ telegram_id u = from_id f
  ∧ ∀ k' u', users d !! k' = Some u' → telegram_id u' = from_id f → k' = k.

(** No two accounts share a telegram id: the unique constraint of the
    column. *)
Definition unique_telegram_ids (d : DB) : Prop :=
  ∀ k1 u1 k2 u2, users d !! k1 = Some u1 → users d !! k2 = Some u2 →
                 telegram_id u1 = telegram_id u2 → k1 = k2.

(** Whether the allow-lists of the settings name the sender. *)
Definition allow_listed (settings : Config.Settings) (f : FromUser) : bool :=
  InventoryService.make_admin (from_id f) (from_username f)
    (Config.initial_admin_ids settings) (Config.initial_admin_usernames settings).

(** The row of the sender's account once [ensure_user] has seen the
    sender. *)
Definition refreshed (settings : Config.Settings) (f : FromUser) (u : User) : User :=
  mkUser (from_id f) (from_username f) (from_first_name f) (from_last_name f)
    (is_admin u || allow_listed settings f) (user_created_at u).

(** The audit entry of an administrative call. *)
Definition audit (now : Z) (admin : entity User) (action details : string) : AdminLog :=
  mkAdminLog (Some (obj_id admin)) action (Some details) now.

(** The call keeps [P] true of both states of its session, however it
    ends. *)
Definition keeps {A : Type} (P : DB → Prop) (m : M A) : Prop :=
  ∀ s, session_inv P s → session_inv P (m s).2.

(** ** Sample data *)

Module Sample.

Definition alice : entity User := Entity 1 (mkUser 100 (Some "@Alice") None None false 0).
Definition bob : entity User := Entity 2 (mkUser 200 (Some "bob") (Some "Bob") None false 0).
Definition root : entity User := Entity 3 (mkUser 300 (Some "root") None None true 0).

Definition drill : Item := mkItem 1 "drill" (Some "D-1") AVAILABLE None 0.

Definition store : DB :=
  mkDB {[1 := row alice; 2 := row bob; 3 := row root]}
       {[1 := mkCategory "tools" None true 0]}
       {[1 := drill]}
       [] [].

(** The same store once alice has checked the drill out. *)
Definition lent_drill : Item := mkItem 1 "drill" (Some "D-1") TAKEN (Some 1) 0.

Definition lent : DB :=
  mkDB {[1 := row alice; 2 := row bob; 3 := row root]}
       {[1 := mkCategory "tools" None true 0]}
       {[1 := lent_drill]}
       [mkTransaction 1 1 TAKE "photo-1" None None 10] [].

(** The store with a second category and a second item. *)
Definition saw : Item := mkItem 2 "saw" (Some "S-1") AVAILABLE None 0.

Definition two_items : DB :=
  mkDB {[1 := row alice; 2 := row bob; 3 := row root]}
       {[1 := mkCategory "tools" None true 0; 2 := mkCategory "garden" None true 0]}
       {[1 := drill; 2 := saw]}
       [] [].

(** The two items once alice has had the drill and bob the saw, and
    both are back. *)
Definition returned : DB :=
  mkDB {[1 := row alice; 2 := row bob; 3 := row root]}
       {[1 := mkCategory "tools" None true 0; 2 := mkCategory "garden" None true 0]}
       {[1 := drill; 2 := saw]}
       [mkTransaction 1 1 TAKE "photo-1" None None 10;
        mkTransaction 2 2 TAKE "photo-2" None None 11;
        mkTransaction 1 1 RETURN "photo-3" None None 12;
        mkTransaction 2 2 RETURN "photo-4" None None 13] [].

(** A session on the two items in which bob has been made an
    administrator and nothing is committed yet. *)
Definition toggled : Session :=
  write (set_users (insert 2 (with_is_admin true (row bob)))) (begin true two_items).

(** A configuration whose allow-lists name root, and the senders behind
    the three accounts. *)
Definition settings : Config.Settings :=
  Config.mkSettings "token" "sqlite+aiosqlite:///./inventory.db" [300] ["root"].

Definition from_alice : FromUser := mkFromUser 100 (Some "@Alice") None None.
Definition from_bob : FromUser := mkFromUser 200 (Some "bob") (Some "Bob") None.
Definition from_root : FromUser := mkFromUser 300 (Some "root") None None.

(** A sender the store has not seen, and an environment that lists it. *)
Definition from_carol : FromUser := mkFromUser 400 (Some "carol") None None.

Definition environ : gmap string string :=
  {["BOT_TOKEN" := "token"; "INITIAL_ADMIN_IDS" := "300, 400"]}.

End Sample.

(** ** Running the session code *)

Lemma bind_run {A B : Type} (m : M A) (f : A → M B) (s : Session) :
  (m ≫= f) s =
    match m s with
    | (Ok a, s') => f a s'
    | (Raise e, s') => (Raise e, s')
    end.
Proof. reflexivity. Qed.

Lemma references_cases {A : Type} (c : Constraint) (t : DB → gmap Z A) (k : Z)
    (s : Session) :
  (references c t k s = (Ok tt, s)
   ∧ (foreign_keys s = true → is_Some (t (db s) !! k)))
  ∨ (references c t k s = (Raise (IntegrityError c), rollback s)
     ∧ foreign_keys s = true ∧ t (db s) !! k = None).
Proof.
  unfold references, enforces_foreign_keys, gets, integrity_error.
  rewrite !bind_run. destruct (foreign_keys s); simpl.
  - case_bool_decide as H; [by right|].
    left. split; [done|]. intros _. by destruct (t (db s) !! k); [eexists|].
  - by left.
Qed.

Lemma references_found {A : Type} (c : Constraint) (t : DB → gmap Z A) (k : Z)
    (s : Session) :
  is_Some (t (db s) !! k) → references c t k s = (Ok tt, s).
Proof.
  intros [x Hx].
  destruct (references_cases c t k s) as [[-> _]|(_ & _ & H)]; [done|congruence].
Qed.

Lemma references_unchecked {A : Type} (c : Constraint) (t : DB → gmap Z A) (k : Z)
    (s : Session) :
  foreign_keys s = false → references c t k s = (Ok tt, s).
Proof.
  intros Hfk.
  destruct (references_cases c t k s) as [[-> _]|(_ & H & _)]; [done|congruence].
Qed.

Lemma references_missing {A : Type} (c : Constraint) (t : DB → gmap Z A) (k : Z)
    (s : Session) :
  foreign_keys s = true → t (db s) !! k = None →
  references c t k s = (Raise (IntegrityError c), rollback s).
Proof.
  intros Hfk Hk.
  destruct (references_cases c t k s) as [[_ H]|[-> _]]; [|done].
  destruct (H Hfk) as [x Hx]. congruence.
Qed.

Lemma add_tx_cases now k uid act photo cmt s :
  add_tx now k uid act photo cmt s =
    (Ok (mkTransaction k uid act photo None cmt now),
     write (set_transactions (λ l, l ++ [mkTransaction k uid act photo None cmt now])) s)
  ∨ ∃ c, add_tx now k uid act photo cmt s = (Raise (IntegrityError c), rollback s).
Proof.
  unfold add_tx. rewrite bind_run.
  destruct (references_cases transactions_item_id_fkey items k s) as [[-> _]|[-> _]];
    [|right; eauto].
  rewrite bind_run.
  destruct (references_cases transactions_user_id_fkey users uid s) as [[-> _]|[-> _]];
    [|right; eauto].
  by left.
Qed.

Lemma add_tx_ok now k uid act photo cmt s :
  is_Some (items (db s) !! k) → is_Some (users (db s) !! uid) →
  add_tx now k uid act photo cmt s =
    (Ok (mkTransaction k uid act photo None cmt now),
     write (set_transactions (λ l, l ++ [mkTransaction k uid act photo None cmt now])) s).
Proof.
  intros Hk Hu. unfold add_tx.
  rewrite bind_run, references_found by done.
  by rewrite bind_run, references_found by done.
Qed.

Lemma add_admin_log_cases now adm act det s :
  add_admin_log now adm act det s =
    (Ok (mkAdminLog adm act det now),
     write (set_admin_logs (λ l, l ++ [mkAdminLog adm act det now])) s)
  ∨ ∃ c, add_admin_log now adm act det s = (Raise (IntegrityError c), rollback s).
Proof.
  unfold add_admin_log. rewrite bind_run. destruct adm as [a|]; [|by left].
  destruct (references_cases admin_logs_admin_id_fkey users a s) as [[-> _]|[-> _]];
    [by left|right; eauto].
Qed.

Lemma add_admin_log_ok now a act det s :
  is_Some (users (db s) !! a) →
  add_admin_log now (Some a) act det s =
    (Ok (mkAdminLog (Some a) act det now),
     write (set_admin_logs (λ l, l ++ [mkAdminLog (Some a) act det now])) s).
Proof.
  intros Ha. unfold add_admin_log. by rewrite bind_run, references_found by done.
Qed.

(** ** The three transitions of an item, outcome by outcome *)

(** Run [ItemRepository.get_by_id] on a session whose lookup [H] gives. *)
Ltac get_item H :=
  unfold ItemRepository.get_by_id, session_get, gets;
  rewrite !bind_run; simpl; rewrite H; simpl.

(** Unfold the writes that follow the checks of an operation. *)
Ltac send_writes :=
  unfold update_item, modify, TransactionRepository.add_transaction,
    AdminLogRepository.log, flush;
  rewrite !bind_run.

(** The session [take_item] leaves behind when it returns. *)
Lemma take_item_ok now k u photo cmt s i :
  items (db s) !! k = Some i → status i = AVAILABLE → known_user (db s) u →
  InventoryService.take_item now k u photo cmt s =
    (Ok (mkTransaction k (obj_id u) TAKE photo None cmt now),
     write (set_transactions (λ l, l ++ [mkTransaction k (obj_id u) TAKE photo None cmt now]))
       (write (set_items (insert k (with_current_holder_id (Some (obj_id u))
                                       (with_status TAKEN i)))) s)).
Proof.
  intros Hi Hst Hu. unfold InventoryService.take_item. get_item Hi.
  rewrite bool_decide_eq_false_2 by (by rewrite Hst; intros []).
  send_writes. rewrite add_tx_ok; [done| |done].
  simpl. rewrite lookup_insert_eq. by eexists.
Qed.

Lemma take_item_not_found now k u photo cmt s :
  items (db s) !! k = None →
  InventoryService.take_item now k u photo cmt s = (Raise ItemNotFound, s).
Proof.
  intros Hi. unfold InventoryService.take_item. by get_item Hi.
Qed.

Lemma take_item_unavailable now k u photo cmt s i :
  items (db s) !! k = Some i → status i ≠ AVAILABLE →
  InventoryService.take_item now k u photo cmt s =
    (Raise InvalidTransition_not_available, s).
Proof.
  intros Hi Hst. unfold InventoryService.take_item. get_item Hi.
  by rewrite bool_decide_eq_true_2.
Qed.

Lemma take_item_cases now k u photo cmt s :
  (∃ e, InventoryService.take_item now k u photo cmt s = (Raise e, s))
  ∨ (∃ e, InventoryService.take_item now k u photo cmt s = (Raise e, rollback s))
  ∨ (∃ i, items (db s) !! k = Some i ∧ status i = AVAILABLE
       ∧ InventoryService.take_item now k u photo cmt s =
           (Ok (mkTransaction k (obj_id u) TAKE photo None cmt now),
            write (set_transactions
                     (λ l, l ++ [mkTransaction k (obj_id u) TAKE photo None cmt now]))
              (write (set_items (insert k (with_current_holder_id (Some (obj_id u))
                                              (with_status TAKEN i)))) s))).
Proof.
  destruct (items (db s) !! k) as [i|] eqn:Hi;
    [|left; eexists; by apply take_item_not_found].
  destruct (decide (status i = AVAILABLE)) as [Hst|Hst];
    [|left; eexists; by eapply take_item_unavailable].
  right. unfold InventoryService.take_item. get_item Hi.
  rewrite bool_decide_eq_false_2 by (by rewrite Hst; intros []).
  send_writes.
  match goal with |- context [add_tx ?a ?b ?c ?d ?e ?f ?g] =>
    destruct (add_tx_cases a b c d e f g) as [->|[c' ->]] end.
  - right. by exists i.
  - left. by eexists.
Qed.

Lemma return_item_ok now k u photo cmt s i :
  items (db s) !! k = Some i → status i = TAKEN →
  current_holder_id i = Some (obj_id u) → known_user (db s) u →
  InventoryService.return_item now k u photo cmt s =
    (Ok (mkTransaction k (obj_id u) RETURN photo None cmt now),
     write (set_transactions (λ l, l ++ [mkTransaction k (obj_id u) RETURN photo None cmt now]))
       (write (set_items (insert k (with_current_holder_id None
                                       (with_status AVAILABLE i)))) s)).
Proof.
  intros Hi Hst Hh Hu. unfold InventoryService.return_item. get_item Hi.
  rewrite bool_decide_eq_false_2 by (by rewrite Hst; intros []).
  rewrite bool_decide_eq_false_2 by (by rewrite Hh; intros []).
  send_writes. rewrite add_tx_ok; [done| |done].
  simpl. rewrite lookup_insert_eq. by eexists.
Qed.

Lemma return_item_not_found now k u photo cmt s :
  items (db s) !! k = None →
  InventoryService.return_item now k u photo cmt s = (Raise ItemNotFound, s).
Proof.
  intros Hi. unfold InventoryService.return_item. by get_item Hi.
Qed.

Lemma return_item_not_taken now k u photo cmt s i :
  items (db s) !! k = Some i → status i ≠ TAKEN →
  InventoryService.return_item now k u photo cmt s =
    (Raise InvalidTransition_not_taken, s).
Proof.
  intros Hi Hst. unfold InventoryService.return_item. get_item Hi.
  by rewrite bool_decide_eq_true_2.
Qed.

Lemma return_item_not_holder now k u photo cmt s i :
  items (db s) !! k = Some i → status i = TAKEN →
  current_holder_id i ≠ Some (obj_id u) →
  InventoryService.return_item now k u photo cmt s = (Raise NotHolder, s).
Proof.
  intros Hi Hst Hh. unfold InventoryService.return_item. get_item Hi.
  rewrite bool_decide_eq_false_2 by (by rewrite Hst; intros []).
  by rewrite bool_decide_eq_true_2.
Qed.

Lemma return_item_cases now k u photo cmt s :
  (∃ e, InventoryService.return_item now k u photo cmt s = (Raise e, s))
  ∨ (∃ e, InventoryService.return_item now k u photo cmt s = (Raise e, rollback s))
  ∨ (∃ i, items (db s) !! k = Some i ∧ status i = TAKEN
       ∧ current_holder_id i = Some (obj_id u)
       ∧ InventoryService.return_item now k u photo cmt s =
           (Ok (mkTransaction k (obj_id u) RETURN photo None cmt now),
            write (set_transactions
                     (λ l, l ++ [mkTransaction k (obj_id u) RETURN photo None cmt now]))
              (write (set_items (insert k (with_current_holder_id None
                                              (with_status AVAILABLE i)))) s))).
Proof.
  destruct (items (db s) !! k) as [i|] eqn:Hi;
    [|left; eexists; by apply return_item_not_found].
  destruct (decide (status i = TAKEN)) as [Hst|Hst];
    [|left; eexists; by eapply return_item_not_taken].
  destruct (decide (current_holder_id i = Some (obj_id u))) as [Hh|Hh];
    [|left; eexists; by eapply return_item_not_holder].
  right. unfold InventoryService.return_item. get_item Hi.
  rewrite bool_decide_eq_false_2 by (by rewrite Hst; intros []).
  rewrite bool_decide_eq_false_2 by (by rewrite Hh; intros []).
  send_writes.
  match goal with |- context [add_tx ?a ?b ?c ?d ?e ?f ?g] =>
    destruct (add_tx_cases a b c d e f g) as [->|[c' ->]] end.
  - right. by exists i.
  - left. by eexists.
Qed.

Lemma set_item_status_missing now admin k st s :
  items (db s) !! k = None →
  AdminService.set_item_status now admin k st s = (Ok false, s).
Proof.
  intros Hi. unfold AdminService.set_item_status. by get_item Hi.
Qed.

Lemma set_item_status_ok now admin k st s i :
  items (db s) !! k = Some i → known_user (db s) admin →
  AdminService.set_item_status now admin k st s =
    (Ok true,
     write (set_admin_logs (λ l, l ++ [set_item_status_entry now admin k st]))
       (write (set_items (insert k (forced st i))) s)).
Proof.
  intros Hi Ha. unfold AdminService.set_item_status. get_item Hi.
  send_writes. rewrite add_admin_log_ok by done.
  unfold forced. by destruct (bool_decide (st ≠ TAKEN)).
Qed.

Lemma set_item_status_cases now admin k st s :
  AdminService.set_item_status now admin k st s = (Ok false, s)
  ∨ (∃ e, AdminService.set_item_status now admin k st s = (Raise e, rollback s))
  ∨ (∃ i, items (db s) !! k = Some i
       ∧ AdminService.set_item_status now admin k st s =
           (Ok true,
            write (set_admin_logs (λ l, l ++ [set_item_status_entry now admin k st]))
              (write (set_items (insert k (forced st i))) s))).
Proof.
  destruct (items (db s) !! k) as [i|] eqn:Hi;
    [|left; by apply set_item_status_missing].
  right. unfold AdminService.set_item_status. get_item Hi.
  send_writes.
  match goal with |- context [add_admin_log ?a ?b ?c ?d ?e] =>
    destruct (add_admin_log_cases a b c d e) as [->|[c' ->]] end.
  - right. exists i. split; [done|]. unfold forced.
    by destruct (bool_decide (st ≠ TAKEN)).
  - left. by eexists.
Qed.

(** ** Creation *)

Lemma next_id_above {A : Type} (t : gmap Z A) :
  1 ≤ next_id t ∧ ∀ k, is_Some (t !! k) → k < next_id t.
Proof.
  unfold next_id.
  apply (map_fold_weak_ind (λ r m, 1 ≤ r ∧ ∀ k, is_Some (m !! k) → k < r)).
  - split; [lia|]. intros k [x Hx]. by rewrite lookup_empty in Hx.
  - intros i x m r Hi [Hr IH]. split; [lia|]. intros k Hk.
    destruct (decide (i = k)) as [->|Hne]; [lia|].
    rewrite lookup_insert_ne in Hk by done. specialize (IH k Hk). lia.
Qed.

Lemma next_id_fresh {A : Type} (t : gmap Z A) : t !! next_id t = None.
Proof.
  destruct (t !! next_id t) as [x|] eqn:Hx; [|done].
  pose proof (proj2 (next_id_above t) (next_id t) (mk_is_Some _ _ Hx)). lia.
Qed.

Lemma add_item_duplicate now cat name code s k i :
  items (db s) !! k = Some i → inventory_code i = Some code →
  add_item now cat name (Some code) s = (Raise DuplicateCode, rollback s).
Proof.
  intros Hi Hc. unfold add_item, gets, integrity_error. rewrite bind_run. simpl.
  rewrite bool_decide_eq_true_2; [done|].
  split; [by eexists|]. by apply (map_Exists_lookup_2 _ _ k i).
Qed.

Lemma code_free_check d code :
  code_free d code →
  bool_decide (is_Some code ∧ map_Exists (λ _ i, inventory_code i = code) (items d)) = false.
Proof.
  intros Hfree. apply bool_decide_eq_false_2. intros [[c ->] (k & i & Hi & Hc)].
  by apply (Hfree c eq_refl k i).
Qed.

Lemma add_item_no_category now cat name code s :
  code_free (db s) code → foreign_keys s = true → categories (db s) !! cat = None →
  add_item now cat name code s = (Raise CategoryNotFound, rollback s).
Proof.
  intros Hfree Hfk Hcat. unfold add_item, gets. rewrite bind_run. simpl.
  rewrite code_free_check by done. rewrite bind_run.
  by rewrite references_missing.
Qed.

Lemma add_item_ok now cat name code s :
  code_free (db s) code →
  foreign_keys s = false ∨ is_Some (categories (db s) !! cat) →
  add_item now cat name code s =
    (Ok (Entity (next_id (items (db s))) (mkItem cat name code AVAILABLE None now)),
     write (set_items (insert (next_id (items (db s)))
                         (mkItem cat name code AVAILABLE None now))) s).
Proof.
  intros Hfree Hcat. unfold add_item, gets. rewrite bind_run. simpl.
  rewrite code_free_check by done. rewrite bind_run.
  destruct Hcat as [Hfk|Hcat];
    [rewrite references_unchecked by done|rewrite references_found by done];
    done.
Qed.



Lemma add_category_duplicate now name descr s k c :
  categories (db s) !! k = Some c → category_name c = name →
  add_category now name descr s = (Raise DuplicateName, rollback s).
Proof.
  intros Hk Hc. unfold add_category, gets, integrity_error. rewrite bind_run. simpl.
  rewrite bool_decide_eq_true_2; [done|]. by apply (map_Exists_lookup_2 _ _ k c).
Qed.

(** ** Invariants of the item table *)

Lemma session_inv_rollback (P : DB → Prop) (s : Session) :
  session_inv P s → session_inv P (rollback s).
Proof. intros [Hc _]. by split. Qed.

Lemma every_item_insert (R : Item → Prop) (d d' : DB) (k : Z) (i : Item) :
  items d' = <[k := i]> (items d) → R i → every_item R d → every_item R d'.
Proof.
  intros Hd' Hi Hd k' i' Hk'. rewrite Hd' in Hk'.
  destruct (decide (k = k')) as [->|Hne].
  - rewrite lookup_insert_eq in Hk'. by injection Hk' as <-.
  - rewrite lookup_insert_ne in Hk' by done. by apply (Hd k').
Qed.

(** ** The most recent take *)


Lemma latest_taker_fold (d : DB) (k : Z) :
  latest_taker d k =
    user_id <$> fold_left newer (filter (is_take_of k) (transactions d)) None.
Proof.
  unfold latest_taker, TransactionRepository.get_latest_take_for_item, gets,
    order_by_created_at_desc_limit_1.
  rewrite bind_run. simpl.
  by destruct (fold_left newer (filter (is_take_of k) (transactions d)) None).
Qed.

Lemma latest_taker_items (f : gmap Z Item → gmap Z Item) (d : DB) (k : Z) :
  latest_taker (set_items f d) k = latest_taker d k.
Proof. by rewrite !latest_taker_fold. Qed.




Lemma agrees_with_insert (R : Item → option Z → Prop) (d d' : DB) (k : Z) (i : Item) :
  items d' = <[k := i]> (items d) →
  (∀ k', k' ≠ k → latest_taker d' k' = latest_taker d k') →
  R i (latest_taker d' k) →
  agrees_with R d → agrees_with R d'.
Proof.
  intros Hd' Hlatest Hi Hd k' i' Hk'. rewrite Hd' in Hk'.
  destruct (decide (k = k')) as [->|Hne].
  - rewrite lookup_insert_eq in Hk'. by injection Hk' as <-.
  - rewrite lookup_insert_ne in Hk' by done. rewrite Hlatest by done.
    by apply (Hd k').
Qed.

(** ** One request in its own transaction *)





(** ** Identity bootstrap *)

(** The row [get_or_create_from_telegram] leaves for an account it found. *)
Lemma refreshed_user (mk : bool) (un fn ln : option string) (u : User) :
  with_last_name ln (with_first_name fn (with_username un
    (if mk && negb (is_admin u) then with_is_admin true u else u)))
  = mkUser (telegram_id u) un fn ln (is_admin u || mk) (user_created_at u).
Proof. destruct u as [t a b c adm ts]. by destruct mk, adm. Qed.

Lemma select_by_telegram_id_elem (tbl : gmap Z User) (tid k : Z) (u : User) :
  (k, u) ∈ map_to_list (filter (has_telegram_id tid) tbl)
  ↔ tbl !! k = Some u ∧ telegram_id u = tid.
Proof. by rewrite elem_of_map_to_list, map_lookup_filter_Some. Qed.

Lemma add_user_ok now tid un fn ln adm s :
  (∀ k u, users (db s) !! k = Some u → telegram_id u ≠ tid) →
  add_user now tid un fn ln adm s =
    (Ok (Entity (next_id (users (db s))) (mkUser tid un fn ln adm now)),
     write (set_users (insert (next_id (users (db s))) (mkUser tid un fn ln adm now))) s).
Proof.
  intros Hnone. unfold add_user, gets. rewrite bind_run. simpl.
  rewrite bool_decide_eq_false_2; [done|].
  intros (k & u & Hk & Hu). by apply (Hnone k u).
Qed.

Lemma ensure_user_cases now tid un fn ln ids names s :
  (∃ k u, users (db s) !! k = Some u ∧ telegram_id u = tid
     ∧ InventoryService.ensure_user now tid un fn ln ids names s =
         (Ok (Entity k (mkUser tid un fn ln
                          (is_admin u || InventoryService.make_admin tid un ids names)
                          (user_created_at u))),
          write (set_users (insert k (mkUser tid un fn ln
                          (is_admin u || InventoryService.make_admin tid un ids names)
                          (user_created_at u)))) s))
  ∨ ((∀ k u, users (db s) !! k = Some u → telegram_id u ≠ tid)
     ∧ InventoryService.ensure_user now tid un fn ln ids names s =
         (Ok (Entity (next_id (users (db s)))
                (mkUser tid un fn ln (InventoryService.make_admin tid un ids names) now)),
          write (set_users (insert (next_id (users (db s)))
                (mkUser tid un fn ln (InventoryService.make_admin tid un ids names) now))) s))
  ∨ ((∃ k1 u1 k2 u2, k1 ≠ k2
        ∧ users (db s) !! k1 = Some u1 ∧ telegram_id u1 = tid
        ∧ users (db s) !! k2 = Some u2 ∧ telegram_id u2 = tid)
     ∧ InventoryService.ensure_user now tid un fn ln ids names s =
         (Raise MultipleResultsFound, s)).
Proof.
  unfold InventoryService.ensure_user, UserRepository.get_or_create_from_telegram,
    gets, flush.
  rewrite !bind_run. simpl.
  pose proof (select_by_telegram_id_elem (users (db s)) tid) as Helem.
  pose proof (NoDup_map_to_list (filter (has_telegram_id tid) (users (db s)))) as Hnd.
  destruct (map_to_list (filter (has_telegram_id tid) (users (db s))))
    as [|[k u] [|[k2 u2] rest]]; simpl.
  - right. left.
    assert (∀ k u, users (db s) !! k = Some u → telegram_id u ≠ tid) as Hnone.
    { intros k u Hk Hu. by apply (not_elem_of_nil (k, u)), Helem. }
    split; [done|]. by rewrite add_user_ok by done.
  - left. exists k, u.
    destruct (proj1 (Helem k u) (list_elem_of_here _ _)) as [Hk Hu].
    split; [done|]. split; [done|].
    unfold update_user, modify. rewrite !bind_run. rewrite refreshed_user.
    by rewrite Hu.
  - right. right. split; [|done]. exists k, u, k2, u2.
    destruct (proj1 (Helem k u) (list_elem_of_here _ _)) as [Hk Hu].
    destruct (proj1 (Helem k2 u2) (list_elem_of_further _ _ _ (list_elem_of_here _ _)))
      as [Hk2 Hu2].
    split; [|done]. intros ->. apply NoDup_cons in Hnd as [Hnotin _].
    apply Hnotin. assert (u = u2) as -> by congruence. apply list_elem_of_here.
Qed.

(** ** The statements of the maintenance calls *)

Lemma update_items_run k v s :
  update_items k v s
  = match items (db s) !! k with
    | None => (Ok 0, s)
    | Some i =>
        if match values_inventory_code v with
           | Some c =>
               bool_decide (map_Exists (λ k' i', k' ≠ k ∧ inventory_code i' = Some c)
                              (items (db s)))
           | None => false
           end
        then (Raise DuplicateCode, s)
        else (Ok 1, write (set_items (insert k (assign_item v i))) s)
    end.
Proof.
  unfold update_items, gets. rewrite bind_run.
  destruct (items (db s) !! k) as [i|]; [|done].
  by destruct (match values_inventory_code v with Some _ => _ | None => _ end).
Qed.

Lemma update_categories_run k v s :
  update_categories k v s
  = match categories (db s) !! k with
    | None => (Ok 0, s)
    | Some c =>
        if match values_category_name v with
           | Some n =>
               bool_decide (map_Exists (λ k' c', k' ≠ k ∧ category_name c' = n)
                              (categories (db s)))
           | None => false
           end
        then (Raise DuplicateName, s)
        else (Ok 1, write (set_categories (insert k (assign_category v c))) s)
    end.
Proof.
  unfold update_categories, gets. rewrite bind_run.
  destruct (categories (db s) !! k) as [c|]; [|done].
  by destruct (match values_category_name v with Some _ => _ | None => _ end).
Qed.

Lemma delete_items_run k s :
  delete_items k s
  = match items (db s) !! k with
    | None => (Ok 0, s)
    | Some _ =>
        (Ok 1, write (λ d, set_items (delete k)
                             (if foreign_keys s then cascade_item k d else d)) s)
    end.
Proof.
  unfold delete_items, gets. rewrite bind_run.
  by destruct (items (db s) !! k).
Qed.

Lemma delete_categories_run k s :
  delete_categories k s
  = match categories (db s) !! k with
    | None => (Ok 0, s)
    | Some _ =>
        (Ok 1, write (λ d, set_categories (delete k)
                             (if foreign_keys s then cascade_category k d else d)) s)
    end.
Proof.
  unfold delete_categories, gets. rewrite bind_run.
  by destruct (categories (db s) !! k).
Qed.

Lemma log_if_true now admin action details s :
  known_user (db s) admin →
  log_if true now admin action details s
  = (Ok true, write (set_admin_logs (λ l, l ++ [audit now admin action details])) s).
Proof.
  intros Ha. unfold log_if, AdminLogRepository.log.
  by rewrite bind_run, add_admin_log_ok.
Qed.

Lemma log_if_true_cases now admin action details s :
  log_if true now admin action details s
  = (Ok true, write (set_admin_logs (λ l, l ++ [audit now admin action details])) s)
  ∨ ∃ e, log_if true now admin action details s = (Raise e, rollback s).
Proof.
  unfold log_if, AdminLogRepository.log. rewrite bind_run.
  destruct (add_admin_log_cases now (Some (obj_id admin)) action (Some details) s)
    as [-> |[c ->]]; [by left|right; by eexists].
Qed.

Lemma log_if_cases ok now admin action details s :
  log_if ok now admin action details s = (Ok ok, s)
  ∨ log_if ok now admin action details s
    = (Ok ok, write (set_admin_logs (λ l, l ++ [audit now admin action details])) s)
  ∨ ∃ e, log_if ok now admin action details s = (Raise e, rollback s).
Proof.
  destruct ok; [|by left]. right. apply log_if_true_cases.
Qed.

Lemma no_other_code (tbl : gmap Z Item) (k : Z) (c : string) :
  (∀ k' i', tbl !! k' = Some i' → k' ≠ k → inventory_code i' ≠ Some c) →
  bool_decide (map_Exists (λ k' i', k' ≠ k ∧ inventory_code i' = Some c) tbl) = false.
Proof.
  intros Hfree. apply bool_decide_eq_false. intros (k' & i' & Hk' & Hne & Hc).
  by eapply Hfree.
Qed.

Lemma no_other_name (tbl : gmap Z Category) (k : Z) (n : string) :
  (∀ k' c', tbl !! k' = Some c' → k' ≠ k → category_name c' ≠ n) →
  bool_decide (map_Exists (λ k' c', k' ≠ k ∧ category_name c' = n) tbl) = false.
Proof.
  intros Hfree. apply bool_decide_eq_false. intros (k' & c' & Hk' & Hne & Hc).
  by eapply Hfree.
Qed.




(** ** What a call keeps true of its session *)

Lemma keeps_bind_ret {A B : Type} (P : DB → Prop) (m : M A) (g : A → B) :
  keeps P m → keeps P (x ← m; mret (g x)).
Proof.
  intros Hm s Hs. specialize (Hm s Hs). rewrite bind_run.
  by destruct (m s) as [[a|e] s1].
Qed.

Lemma keeps_logged (P : DB → Prop) (stmt : M bool) now admin action details :
  (∀ f d, P d → P (set_admin_logs f d)) →
  keeps P stmt →
  keeps P (ok ← stmt; log_if ok now admin action (details ok)).
Proof.
  intros Hlogs Hm s Hs. specialize (Hm s Hs). rewrite bind_run.
  destruct (stmt s) as [[ok|e] s1]; [|done]. simpl in Hm.
  destruct (log_if_cases ok now admin action (details ok) s1)
    as [-> |[-> |[e ->]]]; simpl.
  - done.
  - destruct Hm as [Hc Hd]. split; [done|]. by apply Hlogs.
  - by apply session_inv_rollback.
Qed.

Lemma keeps_update_categories (P : DB → Prop) k v :
  (∀ f d, P d → P (set_categories f d)) → keeps P (update_categories k v).
Proof.
  intros Hframe s Hs. rewrite update_categories_run.
  destruct (categories (db s) !! k) as [c|]; [|done].
  destruct (match values_category_name v with Some _ => _ | None => _ end); [done|].
  destruct Hs as [Hc Hd]. split; [done|]. by apply Hframe.
Qed.

Lemma keeps_update_items (P : DB → Prop) k v :
  (∀ d i, items d !! k = Some i → P d → P (set_items (insert k (assign_item v i)) d)) →
  keeps P (update_items k v).
Proof.
  intros Hframe s Hs. rewrite update_items_run.
  destruct (items (db s) !! k) as [i|] eqn:Hi; [|done].
  destruct (match values_inventory_code v with Some _ => _ | None => _ end); [done|].
  destruct Hs as [Hc Hd]. split; [done|]. by apply Hframe.
Qed.

Lemma keeps_delete_items (P : DB → Prop) k :
  (∀ d, P d → P (set_items (delete k) d)) →
  (∀ d, P d → P (set_items (delete k) (cascade_item k d))) →
  keeps P (delete_items k).
Proof.
  intros Hoff Hon s Hs. rewrite delete_items_run.
  destruct (items (db s) !! k) as [i|]; [|done].
  destruct Hs as [Hc Hd]. split; [done|]. simpl.
  destruct (foreign_keys s); [by apply Hon|by apply Hoff].
Qed.

Lemma keeps_delete_categories (P : DB → Prop) k :
  (∀ f d, P d → P (set_categories f d)) →
  (∀ d, P d → P (cascade_category k d)) →
  keeps P (delete_categories k).
Proof.
  intros Hframe Hon s Hs. rewrite delete_categories_run.
  destruct (categories (db s) !! k) as [c|]; [|done].
  destruct Hs as [Hc Hd]. split; [done|]. simpl.
  destruct (foreign_keys s); apply Hframe; [by apply Hon|done].
Qed.

(** The calls of the services, one by one.  [P] has to survive the writes
    the call may send; the tables it does not write do not matter. *)
Section KeepsService.

Context (P : DB → Prop).
Hypothesis P_logs : ∀ f d, P d → P (set_admin_logs f d).

Lemma keeps_rename_category now admin k name :
  (∀ f d, P d → P (set_categories f d)) →
  keeps P (AdminService.rename_category now admin k name).
Proof.
  intros Hcats.
  apply (keeps_logged P _ now admin "rename_category"
           (λ _, "id=" +:+ pretty k +:+ ",new_name=" +:+ name)); [done|].
  by apply keeps_bind_ret, keeps_update_categories.
Qed.

Lemma keeps_deactivate_category now admin k :
  (∀ f d, P d → P (set_categories f d)) →
  keeps P (AdminService.deactivate_category now admin k).
Proof.
  intros Hcats.
  apply (keeps_logged P _ now admin "deactivate_category"
           (λ _, "id=" +:+ pretty k)); [done|].
  by apply keeps_bind_ret, keeps_update_categories.
Qed.

Lemma keeps_activate_category now admin k :
  (∀ f d, P d → P (set_categories f d)) →
  keeps P (AdminService.activate_category now admin k).
Proof.
  intros Hcats.
  apply (keeps_logged P _ now admin "activate_category"
           (λ _, "id=" +:+ pretty k)); [done|].
  by apply keeps_bind_ret, keeps_update_categories.
Qed.

Lemma keeps_delete_category now admin k :
  (∀ f d, P d → P (set_categories f d)) →
  (∀ d, P d → P (cascade_category k d)) →
  keeps P (AdminService.delete_category now admin k).
Proof.
  intros Hcats Hfk.
  apply (keeps_logged P _ now admin "delete_category"
           (λ _, "id=" +:+ pretty k)); [done|].
  by apply keeps_bind_ret, keeps_delete_categories.
Qed.

Lemma keeps_rename_item now admin k name :
  (∀ v d i, items d !! k = Some i → P d →
            P (set_items (insert k (assign_item v i)) d)) →
  keeps P (AdminService.rename_item now admin k name).
Proof.
  intros Hassign.
  apply (keeps_logged P _ now admin "rename_item"
           (λ _, "id=" +:+ pretty k +:+ ",new_name=" +:+ name)); [done|].
  apply keeps_bind_ret, keeps_update_items. intros d i. apply Hassign.
Qed.

Lemma keeps_update_item_code now admin k code :
  (∀ v d i, items d !! k = Some i → P d →
            P (set_items (insert k (assign_item v i)) d)) →
  keeps P (AdminService.update_item_code now admin k code).
Proof.
  intros Hassign.
  apply (keeps_logged P _ now admin "update_item_code"
           (λ _, "id=" +:+ pretty k +:+ ",new_code=" +:+ code)); [done|].
  apply keeps_bind_ret, keeps_update_items. intros d i. apply Hassign.
Qed.

Lemma keeps_delete_item now admin k :
  (∀ d, P d → P (set_items (delete k) d)) →
  (∀ d, P d → P (set_items (delete k) (cascade_item k d))) →
  keeps P (AdminService.delete_item now admin k).
Proof.
  intros Hoff Hon.
  apply (keeps_logged P _ now admin "delete_item"
           (λ _, "id=" +:+ pretty k)); [done|].
  by apply keeps_bind_ret, keeps_delete_items.
Qed.

Lemma keeps_toggle_admin now admin k :
  (∀ f d, P d → P (set_users f d)) →
  keeps P (AdminService.toggle_admin now admin k).
Proof.
  intros Husers s Hs.
  unfold AdminService.toggle_admin, UserRepository.toggle_admin, session_get, gets,
    update_user, modify, AdminLogRepository.log, flush.
  rewrite !bind_run. simpl. destruct (users (db s) !! k) as [u|]; [|done].
  simpl. rewrite !bind_run. simpl.
  match goal with
  | |- context [add_admin_log ?n ?a ?act ?det ?s1] =>
      destruct (add_admin_log_cases n a act det s1) as [-> |[c ->]]
  end; simpl.
  - destruct Hs as [Hc Hd]. split; [done|]. by apply P_logs, Husers.
  - destruct Hs as [Hc Hd]. by split.
Qed.



End KeepsService.


(** ** Agreement with the ledger under maintenance *)

Lemma filter_filter_takes (P : Transaction → Prop) `{!∀ t, Decision (P t)}
    (k : Z) (l : list Transaction) :
  (∀ t, t ∈ l → is_take_of k t → P t) →
  filter (is_take_of k) (filter P l) = filter (is_take_of k) l.
Proof.
  induction l as [|t l IH]; intros HP; [done|].
  rewrite !filter_cons. destruct (decide (P t)) as [Ht|Ht].
  - rewrite filter_cons, IH; [done|]. intros t' Ht'. apply HP. by right.
  - rewrite IH by (intros t' Ht'; apply HP; by right).
    destruct (decide (is_take_of k t)) as [Hk|Hk]; [|done].
    destruct Ht. apply HP; [by left|done].
Qed.

Lemma latest_taker_filter (P : Transaction → Prop) `{!∀ t, Decision (P t)}
    (d : DB) (k : Z) :
  (∀ t, t ∈ transactions d → is_take_of k t → P t) →
  latest_taker (set_transactions (filter P) d) k = latest_taker d k.
Proof.
  intros HP. rewrite !latest_taker_fold. simpl. by rewrite filter_filter_takes.
Qed.

Lemma agrees_with_frame (R : Item → option Z → Prop) (d d' : DB) :
  transactions d' = transactions d →
  (∀ k i, items d' !! k = Some i → items d !! k = Some i) →
  agrees_with R d → agrees_with R d'.
Proof.
  intros Htx Hitems Hd k i Hi.
  assert (latest_taker d' k = latest_taker d k) as ->
    by (by rewrite !latest_taker_fold, Htx).
  by apply Hd, Hitems.
Qed.

Lemma agrees_with_assign (R : Item → option Z → Prop) v d k i :
  (∀ i o, R i o → R (assign_item v i) o) →
  items d !! k = Some i → agrees_with R d →
  agrees_with R (set_items (insert k (assign_item v i)) d).
Proof.
  intros HR Hi Hd. eapply agrees_with_insert; [reflexivity| | |exact Hd].
  - intros k' _. by rewrite latest_taker_items.
  - rewrite latest_taker_items. by apply HR, (Hd k i).
Qed.


Lemma agrees_with_cascade_item (R : Item → option Z → Prop) d k :
  agrees_with R d → agrees_with R (set_items (delete k) (cascade_item k d)).
Proof.
  intros Hd j i Hj. simpl in Hj. apply lookup_delete_Some in Hj as [Hne Hj].
  rewrite latest_taker_items. unfold cascade_item.
  rewrite latest_taker_filter; [by apply Hd|].
  intros t _ [Ht _]. congruence.
Qed.

Lemma agrees_with_cascade_category (R : Item → option Z → Prop) d k :
  agrees_with R d → agrees_with R (cascade_category k d).
Proof.
  intros Hd j i Hj. simpl in Hj. apply map_lookup_filter_Some in Hj as [Hj Hcat].
  unfold cascade_category. rewrite latest_taker_items.
  rewrite latest_taker_filter; [by apply Hd|].
  intros t _ [Ht _] (i' & Hi' & Hk). simpl in Hcat. rewrite Ht in Hi'. congruence.
Qed.

Lemma every_item_frame (R : Item → Prop) (d d' : DB) :
  (∀ k i, items d' !! k = Some i → items d !! k = Some i) →
  every_item R d → every_item R d'.
Proof. intros Hitems Hd k i Hi. by apply (Hd k i), Hitems. Qed.



Lemma take_item_every_item (R : Item → Prop) now k u photo cmt s :
  (∀ i, R (with_current_holder_id (Some (obj_id u)) (with_status TAKEN i))) →
  session_inv (every_item R) s →
  session_inv (every_item R) (InventoryService.take_item now k u photo cmt s).2.
Proof.
  intros HR Hs.
  destruct (take_item_cases now k u photo cmt s)
    as [[e ->]|[[e ->]|(i & Hi & Hst & ->)]]; simpl.
  - done.
  - by apply session_inv_rollback.
  - destruct Hs as [Hc Hd]. split; [done|].
    eapply every_item_insert; [reflexivity|apply HR|done].
Qed.

Lemma return_item_every_item (R : Item → Prop) now k u photo cmt s :
  (∀ i, R (with_current_holder_id None (with_status AVAILABLE i))) →
  session_inv (every_item R) s →
  session_inv (every_item R) (InventoryService.return_item now k u photo cmt s).2.
Proof.
  intros HR Hs.
  destruct (return_item_cases now k u photo cmt s)
    as [[e ->]|[[e ->]|(i & Hi & Hst & Hh & ->)]]; simpl.
  - done.
  - by apply session_inv_rollback.
  - destruct Hs as [Hc Hd]. split; [done|].
    eapply every_item_insert; [reflexivity|apply HR|done].
Qed.

Lemma set_item_status_every_item (R : Item → Prop) now a k st s :
  (∀ i, R i → R (forced st i)) →
  session_inv (every_item R) s →
  session_inv (every_item R) (AdminService.set_item_status now a k st s).2.
Proof.
  intros HR Hs.
  destruct (set_item_status_cases now a k st s) as [->|[[e ->]|(i & Hi & ->)]]; simpl.
  - done.
  - by apply session_inv_rollback.
  - destruct Hs as [Hc Hd]. split; [done|].
    eapply every_item_insert; [reflexivity| |done].
    apply HR. by apply (Hd k).
Qed.

Lemma sample_store_holder_iff_taken : holder_iff_taken Sample.store.
Proof.
  intros k i Hk. simpl in Hk. apply lookup_singleton_Some in Hk as [_ <-]. simpl.
  split; [discriminate|]. by intros [].
Qed.

(** ** The claims *)

(** C1, as the code has it.  For every item, a holder is recorded only
    while the item is [taken], and [take_item], [return_item] and
    [set_item_status] keep that true whether they succeed or fail.  The
    equivalence [state = taken ⇔ holder ≠ none] is kept by [take_item], by
    [return_item] and by [set_item_status] towards any status other than
    [taken]; an override to [taken] of an existing item succeeds, sets the
    status of that item and leaves its holder, and every other column and
    row of the item table, as it was. *)
Theorem transitions_keep_holder_invariant now k u photo cmt admin st s :
  (session_inv holder_iff_taken s →
     session_inv holder_iff_taken (InventoryService.take_item now k u photo cmt s).2
     ∧ session_inv holder_iff_taken (InventoryService.return_item now k u photo cmt s).2
     ∧ (st ≠ TAKEN →
        session_inv holder_iff_taken (AdminService.set_item_status now admin k st s).2))
  ∧ (session_inv holder_only_if_taken s →
     session_inv holder_only_if_taken (InventoryService.take_item now k u photo cmt s).2
     ∧ session_inv holder_only_if_taken (InventoryService.return_item now k u photo cmt s).2
     ∧ session_inv holder_only_if_taken (AdminService.set_item_status now admin k st s).2)
  ∧ (∀ i, items (db s) !! k = Some i → known_user (db s) admin →
     ∃ s' i',
       AdminService.set_item_status now admin k TAKEN s = (Ok true, s')
       ∧ items (db s') = <[k := i']> (items (db s))
       ∧ status i' = TAKEN
       ∧ current_holder_id i' = current_holder_id i
       ∧ category_id i' = category_id i ∧ item_name i' = item_name i
       ∧ inventory_code i' = inventory_code i
       ∧ item_created_at i' = item_created_at i).
Proof.
  split; [|split];
    [intros Hs; (split; [|split])|intros Hs; (split; [|split])|].
  - apply take_item_every_item; [|done]. intros i. simpl. split; [discriminate|done].
  - apply return_item_every_item; [|done]. intros i. simpl.
    split; [discriminate|by intros []].
  - intros Hst. apply set_item_status_every_item; [|done]. intros i _.
    unfold forced. rewrite bool_decide_eq_true_2 by done. simpl.
    split; [done|by intros []].
  - apply take_item_every_item; [|done]. by intros i.
  - apply return_item_every_item; [|done]. intros i. simpl. by intros [].
  - apply set_item_status_every_item; [|done]. intros i Hi.
    unfold forced. case_bool_decide as Hst; simpl; [by intros []|].
    intros _. by destruct st.
  - intros i Hi Ha. exists
      (write (set_admin_logs (λ l, l ++ [set_item_status_entry now admin k TAKEN]))
         (write (set_items (insert k (forced TAKEN i))) s)), (forced TAKEN i).
    split; [by apply set_item_status_ok|]. done.
Qed.

Lemma transitions_keep_holder_invariant_witness :
  session_inv holder_iff_taken (begin true Sample.store)
  ∧ session_inv holder_iff_taken
      (InventoryService.take_item 5 1 Sample.alice "photo-1" None
         (begin true Sample.store)).2
  ∧ session_inv holder_iff_taken
      (AdminService.set_item_status 5 Sample.root 1 LOST (begin true Sample.store)).2
  ∧ session_inv holder_only_if_taken
      (AdminService.set_item_status 5 Sample.root 1 TAKEN (begin true Sample.store)).2
  ∧ (∃ s' i',
       AdminService.set_item_status 20 Sample.root 1 TAKEN (begin true Sample.lent)
       = (Ok true, s')
       ∧ items (db s') = <[1 := i']> (items Sample.lent)
       ∧ status i' = TAKEN
       ∧ current_holder_id i' = Some 1
       ∧ category_id i' = 1 ∧ item_name i' = "drill"
       ∧ inventory_code i' = Some "D-1"
       ∧ item_created_at i' = 0).
Proof.
  assert (session_inv holder_iff_taken (begin true Sample.store)) as Hs.
  { split; apply sample_store_holder_iff_taken. }
  assert (session_inv holder_only_if_taken (begin true Sample.store)) as Hw.
  { split; intros k i Hk; apply (sample_store_holder_iff_taken k i Hk). }
  split; [exact Hs|]. split; [|split; [|split]].
  - exact (proj1 (proj1 (transitions_keep_holder_invariant 5 1 Sample.alice "photo-1"
                           None Sample.root LOST (begin true Sample.store)) Hs)).
  - apply (proj2 (proj2 (proj1 (transitions_keep_holder_invariant 5 1 Sample.alice
                                  "photo-1" None Sample.root LOST
                                  (begin true Sample.store)) Hs))).
    discriminate.
  - exact (proj2 (proj2 (proj1 (proj2 (transitions_keep_holder_invariant 5 1
                                         Sample.alice "photo-1" None Sample.root TAKEN
                                         (begin true Sample.store))) Hw))).
  - apply (proj2 (proj2 (transitions_keep_holder_invariant 20 1 Sample.alice
                           "photo-1" None Sample.root TAKEN (begin true Sample.lent)))
             Sample.lent_drill).
    + reflexivity.
    + by eexists.
Defined.

(** C1, as stated, fails: on a store where the equivalence holds, an
    administrator forcing the available item 1 to [taken] succeeds and
    leaves it [taken] with no holder. *)
Lemma force_taken_breaks_holder_iff_taken :
  session_inv holder_iff_taken (begin true Sample.store)
  ∧ (AdminService.set_item_status 5 Sample.root 1 TAKEN (begin true Sample.store)).1
    = Ok true
  ∧ ¬ session_inv holder_iff_taken
        (AdminService.set_item_status 5 Sample.root 1 TAKEN (begin true Sample.store)).2.
Proof.
  split; [split; apply sample_store_holder_iff_taken|].
  split; [reflexivity|].
  intros [_ H].
  assert (items (db (AdminService.set_item_status 5 Sample.root 1 TAKEN
                       (begin true Sample.store)).2) !! 1
          = Some (with_status TAKEN Sample.drill)) as Hk by reflexivity.
  apply H in Hk. simpl in Hk. by apply Hk.
Qed.

(** C2.  On an existing item whose state is [available], [take_item]
    returns a custody event; the item is then [taken] and held by the
    requesting account, and the event, of kind [take] with the photo and
    the comment of the call, is the one row appended to the ledger. *)
Theorem check_out_available now k u photo cmt s i :
  items (db s) !! k = Some i → status i = AVAILABLE → known_user (db s) u →
  ∃ tx s',
    InventoryService.take_item now k u photo cmt s = (Ok tx, s')
    ∧ items (db s')
      = <[k := with_current_holder_id (Some (obj_id u)) (with_status TAKEN i)]> (items (db s))
    ∧ (∃ i', items (db s') !! k = Some i' ∧ status i' = TAKEN
         ∧ current_holder_id i' = Some (obj_id u))
    ∧ transactions (db s') = transactions (db s) ++ [tx]
    ∧ item_id tx = k ∧ user_id tx = obj_id u ∧ action tx = TAKE
    ∧ photo_file_id tx = photo ∧ comment tx = cmt.
Proof.
  intros Hi Hst Hu. eexists _, _. rewrite (take_item_ok now k u photo cmt s i) by done.
  split; [reflexivity|]. simpl. split; [done|].
  split; [|done]. eexists. by rewrite lookup_insert_eq.
Qed.

Lemma check_out_available_witness :
  ∃ tx s',
    InventoryService.take_item 5 1 Sample.alice "photo-1" (Some "for the shed")
      (begin true Sample.store) = (Ok tx, s')
    ∧ items (db s')
      = <[1 := with_current_holder_id (Some 1) (with_status TAKEN Sample.drill)]>
          (items Sample.store)
    ∧ (∃ i', items (db s') !! 1 = Some i' ∧ status i' = TAKEN
         ∧ current_holder_id i' = Some 1)
    ∧ transactions (db s') = [] ++ [tx]
    ∧ item_id tx = 1 ∧ user_id tx = 1 ∧ action tx = TAKE
    ∧ photo_file_id tx = "photo-1" ∧ comment tx = Some "for the shed".
Proof.
  apply (check_out_available 5 1 Sample.alice "photo-1" (Some "for the shed")
           (begin true Sample.store) Sample.drill).
  - reflexivity.
  - reflexivity.
  - by eexists.
Defined.

(** C3.  [take_item] fails with [ItemNotFound] on an unknown item id and
    with [InvalidTransition] on an item in any state other than
    [available] (taken, lost or maintenance); these are its only failures
    for a known account, and a failed call leaves the session, its items
    and its ledger, as it was.  Whatever the account, a call that raises
    leaves the items and the ledger as they were before it or as of the
    last commit. *)
Theorem check_out_failures now k u photo cmt s :
  (items (db s) !! k = None →
     InventoryService.take_item now k u photo cmt s = (Raise ItemNotFound, s))
  ∧ (∀ i, items (db s) !! k = Some i → status i ≠ AVAILABLE →
     InventoryService.take_item now k u photo cmt s
     = (Raise InvalidTransition_not_available, s))
  ∧ (known_user (db s) u → ∀ e s',
     InventoryService.take_item now k u photo cmt s = (Raise e, s') →
     (e = ItemNotFound ∨ e = InvalidTransition_not_available) ∧ s' = s)
  ∧ (∀ e s',
     InventoryService.take_item now k u photo cmt s = (Raise e, s') →
     s' = s ∨ s' = rollback s).
Proof.
  split; [apply take_item_not_found|]. split; [apply take_item_unavailable|].
  split; cycle 1.
  { intros e s' Hrun.
    destruct (take_item_cases now k u photo cmt s)
      as [[e' H]|[[e' H]|(i & _ & _ & H)]]; rewrite H in Hrun; [| |done];
      injection Hrun as _ <-; auto. }
  intros Hu e s' Hrun. destruct (items (db s) !! k) as [i|] eqn:Hi.
  - destruct (decide (status i = AVAILABLE)) as [Hst|Hst].
    + by rewrite (take_item_ok now k u photo cmt s i) in Hrun.
    + rewrite (take_item_unavailable now k u photo cmt s i) in Hrun by done.
      injection Hrun as <- <-. auto.
  - rewrite take_item_not_found in Hrun by done. injection Hrun as <- <-. auto.
Qed.

Lemma check_out_failures_witness :
  InventoryService.take_item 5 9 Sample.bob "photo-2" None (begin true Sample.store)
  = (Raise ItemNotFound, begin true Sample.store)
  ∧ InventoryService.take_item 20 1 Sample.bob "photo-2" None (begin true Sample.lent)
    = (Raise InvalidTransition_not_available, begin true Sample.lent).
Proof.
  split.
  - apply (proj1 (check_out_failures 5 9 Sample.bob "photo-2" None
                    (begin true Sample.store))).
    reflexivity.
  - apply (proj1 (proj2 (check_out_failures 20 1 Sample.bob "photo-2" None
                           (begin true Sample.lent))) Sample.lent_drill).
    + reflexivity.
    + discriminate.
Defined.

(** C4.  [return_item] fails with [ItemNotFound] on an unknown item id,
    with [InvalidTransition] on an item that is not [taken], and with
    [NotHolder] on a taken item whose holder is not the requesting
    account; these are its only failures for a known account, and a failed
    call leaves the session, its items and its ledger, as it was.
    Whatever the account, a call that raises leaves the items and the
    ledger as they were before it or as of the last commit. *)
Theorem check_in_failures now k u photo cmt s :
  (items (db s) !! k = None →
     InventoryService.return_item now k u photo cmt s = (Raise ItemNotFound, s))
  ∧ (∀ i, items (db s) !! k = Some i → status i ≠ TAKEN →
     InventoryService.return_item now k u photo cmt s
     = (Raise InvalidTransition_not_taken, s))
  ∧ (∀ i, items (db s) !! k = Some i → status i = TAKEN →
     current_holder_id i ≠ Some (obj_id u) →
     InventoryService.return_item now k u photo cmt s = (Raise NotHolder, s))
  ∧ (known_user (db s) u → ∀ e s',
     InventoryService.return_item now k u photo cmt s = (Raise e, s') →
     (e = ItemNotFound ∨ e = InvalidTransition_not_taken ∨ e = NotHolder) ∧ s' = s)
  ∧ (∀ e s',
     InventoryService.return_item now k u photo cmt s = (Raise e, s') →
     s' = s ∨ s' = rollback s).
Proof.
  split; [apply return_item_not_found|]. split; [apply return_item_not_taken|].
  split; [apply return_item_not_holder|].
  split; cycle 1.
  { intros e s' Hrun.
    destruct (return_item_cases now k u photo cmt s)
      as [[e' H]|[[e' H]|(i & _ & _ & _ & H)]]; rewrite H in Hrun; [| |done];
      injection Hrun as _ <-; auto. }
  intros Hu e s' Hrun. destruct (items (db s) !! k) as [i|] eqn:Hi.
  - destruct (decide (status i = TAKEN)) as [Hst|Hst].
    + destruct (decide (current_holder_id i = Some (obj_id u))) as [Hh|Hh].
      * by rewrite (return_item_ok now k u photo cmt s i) in Hrun.
      * rewrite (return_item_not_holder now k u photo cmt s i) in Hrun by done.
        injection Hrun as <- <-. auto.
    + rewrite (return_item_not_taken now k u photo cmt s i) in Hrun by done.
      injection Hrun as <- <-. auto.
  - rewrite return_item_not_found in Hrun by done. injection Hrun as <- <-. auto.
Qed.

Lemma check_in_failures_witness :
  InventoryService.return_item 5 9 Sample.bob "photo-2" None (begin true Sample.store)
  = (Raise ItemNotFound, begin true Sample.store)
  ∧ InventoryService.return_item 5 1 Sample.bob "photo-2" None (begin true Sample.store)
    = (Raise InvalidTransition_not_taken, begin true Sample.store)
  ∧ InventoryService.return_item 20 1 Sample.bob "photo-2" None (begin true Sample.lent)
    = (Raise NotHolder, begin true Sample.lent).
Proof.
  split; [|split].
  - apply (proj1 (check_in_failures 5 9 Sample.bob "photo-2" None
                    (begin true Sample.store))).
    reflexivity.
  - apply (proj1 (proj2 (check_in_failures 5 1 Sample.bob "photo-2" None
                           (begin true Sample.store))) Sample.drill).
    + reflexivity.
    + discriminate.
  - apply (proj1 (proj2 (proj2 (check_in_failures 20 1 Sample.bob "photo-2" None
                                  (begin true Sample.lent)))) Sample.lent_drill).
    + reflexivity.
    + reflexivity.
    + discriminate.
Defined.

Lemma transact_ok {A : Type} (fk : bool) (body : M A) (d : DB) (a : A) (s : Session) :
  body (begin fk d) = (Ok a, s) → transact fk body d = (Ok a, db s).
Proof. intros H. unfold transact. by rewrite H. Qed.

(** C5.  On an item that is [available], a check-out followed by a
    check-in by the same account, each in its own transaction, both
    succeed; the item is [available] again with no holder, and the ledger
    has grown by exactly two events of that item, a [take] then a
    [return]. *)
Theorem check_out_check_in_round_trip fk d k i u now1 photo1 cmt1 now2 photo2 cmt2 :
  items d !! k = Some i → status i = AVAILABLE → known_user d u →
  ∃ tx1 d1 tx2 d2,
    transact fk (InventoryService.take_item now1 k u photo1 cmt1) d = (Ok tx1, d1)
    ∧ transact fk (InventoryService.return_item now2 k u photo2 cmt2) d1 = (Ok tx2, d2)
    ∧ (∃ i2, items d2 !! k = Some i2 ∧ status i2 = AVAILABLE
         ∧ current_holder_id i2 = None)
    ∧ transactions d2 = transactions d ++ [tx1; tx2]
    ∧ (item_id tx1 = k ∧ user_id tx1 = obj_id u ∧ action tx1 = TAKE)
    ∧ (item_id tx2 = k ∧ user_id tx2 = obj_id u ∧ action tx2 = RETURN).
Proof.
  intros Hi Hst Hu. eexists _, _, _, _.
  split.
  { apply transact_ok, (take_item_ok now1 k u photo1 cmt1 (begin fk d) i); done. }
  split.
  { apply transact_ok.
    apply (return_item_ok now2 k u photo2 cmt2 _
             (with_current_holder_id (Some (obj_id u)) (with_status TAKEN i))).
    - simpl. by rewrite lookup_insert_eq.
    - done.
    - done.
    - exact Hu. }
  simpl. split; [eexists; by rewrite lookup_insert_eq|].
  split; [by rewrite <- app_assoc|done].
Qed.

Lemma check_out_check_in_round_trip_witness :
  ∃ tx1 d1 tx2 d2,
    transact true (InventoryService.take_item 10 1 Sample.alice "photo-1" None)
      Sample.store = (Ok tx1, d1)
    ∧ transact true (InventoryService.return_item 20 1 Sample.alice "photo-2" None) d1
      = (Ok tx2, d2)
    ∧ (∃ i2, items d2 !! 1 = Some i2 ∧ status i2 = AVAILABLE
         ∧ current_holder_id i2 = None)
    ∧ transactions d2 = [] ++ [tx1; tx2]
    ∧ (item_id tx1 = 1 ∧ user_id tx1 = 1 ∧ action tx1 = TAKE)
    ∧ (item_id tx2 = 1 ∧ user_id tx2 = 1 ∧ action tx2 = RETURN).
Proof.
  apply (check_out_check_in_round_trip true Sample.store 1 Sample.drill Sample.alice
           10 "photo-1" None 20 "photo-2" None).
  - reflexivity.
  - reflexivity.
  - by eexists.
Defined.

(** C6.  On an existing item, [set_item_status] towards a status other
    than [taken] returns true, sets that status and clears the holder,
    keeps the name, the code and the category of the item, leaves the
    custody ledger as it was, and appends one audit entry that names the
    acting administrator. *)
Theorem force_status_clears_holder now admin k st s i :
  items (db s) !! k = Some i → st ≠ TAKEN → known_user (db s) admin →
  ∃ s' i' entry,
    AdminService.set_item_status now admin k st s = (Ok true, s')
    ∧ items (db s') = <[k := i']> (items (db s))
    ∧ status i' = st ∧ current_holder_id i' = None
    ∧ item_name i' = item_name i ∧ inventory_code i' = inventory_code i
    ∧ category_id i' = category_id i
    ∧ transactions (db s') = transactions (db s)
    ∧ admin_logs (db s') = admin_logs (db s) ++ [entry]
    ∧ admin_id entry = Some (obj_id admin).
Proof.
  intros Hi Hst Ha. eexists _, _, _.
  rewrite (set_item_status_ok now admin k st s i) by done.
  split; [reflexivity|]. simpl. unfold forced.
  rewrite bool_decide_eq_true_2 by done. done.
Qed.

Lemma force_status_clears_holder_witness :
  ∃ s' i' entry,
    AdminService.set_item_status 20 Sample.root 1 MAINTENANCE (begin true Sample.lent)
    = (Ok true, s')
    ∧ items (db s') = <[1 := i']> (items Sample.lent)
    ∧ status i' = MAINTENANCE ∧ current_holder_id i' = None
    ∧ item_name i' = "drill" ∧ inventory_code i' = Some "D-1"
    ∧ category_id i' = 1
    ∧ transactions (db s') = transactions Sample.lent
    ∧ admin_logs (db s') = [] ++ [entry]
    ∧ admin_id entry = Some 3.
Proof.
  apply (force_status_clears_holder 20 Sample.root 1 MAINTENANCE
           (begin true Sample.lent) Sample.lent_drill).
  - reflexivity.
  - discriminate.
  - by eexists.
Defined.

(** ** Requests served one after the other *)







(** ** Exclusive check-out *)














(** What creation does refuse.  Called by a known administrator,
    [create_item] raises the store's integrity error for the unique code
    when a code that is not NULL is already carried by an item,
    [create_category] raises it for the unique name when a category has
    that name already, and in both cases the transaction is rolled back, so
    that no row is added.  A category that does not exist is refused in the
    same way, with the integrity error of the foreign key that models.py
    declares, by a store that enforces foreign keys. *)
Theorem creation_rejects_duplicates now admin s :
  (∀ cat name code k i,
     known_user (db s) admin →
     items (db s) !! k = Some i → inventory_code i = Some code →
     AdminService.create_item now admin cat name (Some code) s
     = (Raise DuplicateCode, rollback s))
  ∧ (∀ name descr k c,
     known_user (db s) admin →
     categories (db s) !! k = Some c → category_name c = name →
     AdminService.create_category now admin name descr s
     = (Raise DuplicateName, rollback s))
  ∧ (∀ cat name code,
     known_user (db s) admin →
     code_free (db s) code → categories (db s) !! cat = None →
     foreign_keys s = true →
     AdminService.create_item now admin cat name code s
     = (Raise CategoryNotFound, rollback s))
  ∧ db (rollback s) = committed s.
Proof.
  split; [|split; [|split; [|done]]].
  - intros cat name code k i _ Hi Hc.
    unfold AdminService.create_item, ItemRepository.create. rewrite bind_run.
    by rewrite (add_item_duplicate now cat name code s k i).
  - intros name descr k c _ Hk Hc.
    unfold AdminService.create_category, CategoryRepository.create. rewrite bind_run.
    by rewrite (add_category_duplicate now name descr s k c).
  - intros cat name code _ Hfree Hcat Hfk.
    unfold AdminService.create_item, ItemRepository.create. rewrite bind_run.
    by rewrite add_item_no_category.
Qed.

Lemma sample_store_code_free : code_free Sample.store (Some "S-1").
Proof.
  intros c [= <-] k i Hk. simpl in Hk. apply lookup_singleton_Some in Hk as [_ <-].
  discriminate.
Qed.

Lemma creation_rejects_duplicates_witness :
  AdminService.create_item 5 Sample.root 1 "second drill" (Some "D-1")
    (begin true Sample.store)
  = (Raise DuplicateCode, rollback (begin true Sample.store))
  ∧ AdminService.create_category 5 Sample.root "tools" (Some "again")
      (begin true Sample.store)
    = (Raise DuplicateName, rollback (begin true Sample.store))
  ∧ AdminService.create_item 5 Sample.root 7 "saw" (Some "S-1")
      (begin true Sample.store)
    = (Raise CategoryNotFound, rollback (begin true Sample.store)).
Proof.
  split; [|split].
  - apply (proj1 (creation_rejects_duplicates 5 Sample.root (begin true Sample.store))
             1 "second drill" "D-1" 1 Sample.drill).
    + by eexists.
    + reflexivity.
    + reflexivity.
  - apply (proj1 (proj2 (creation_rejects_duplicates 5 Sample.root
                           (begin true Sample.store)))
             "tools" (Some "again") 1 (mkCategory "tools" None true 0)).
    + by eexists.
    + reflexivity.
    + reflexivity.
  - apply (proj1 (proj2 (proj2 (creation_rejects_duplicates 5 Sample.root
                                  (begin true Sample.store))))
             7 "saw" (Some "S-1")).
    + by eexists.
    + exact sample_store_code_free.
    + reflexivity.
    + reflexivity.
Defined.

(** C8.  The code at the failing input.  The store has no category 7, and
    the engine is the one the configuration selects by default, which
    session.py opens without turning the foreign keys of SQLite on:
    [create_item] under category 7 returns the new item instead of failing
    with [CategoryNotFound], and the item is stored, under a category that
    does not exist. *)
Lemma create_item_without_category :
  categories Sample.store !! 7 = None
  ∧ (AdminService.create_item 5 Sample.root 7 "saw" (Some "S-1")
       (begin false Sample.store)).1
    = Ok (Entity 2 (mkItem 7 "saw" (Some "S-1") AVAILABLE None 5))
  ∧ items (db (AdminService.create_item 5 Sample.root 7 "saw" (Some "S-1")
                 (begin false Sample.store)).2) !! 2
    = Some (mkItem 7 "saw" (Some "S-1") AVAILABLE None 5).
Proof. repeat split. Qed.

Lemma make_admin_true tid un ids names :
  InventoryService.make_admin tid un ids names = true →
  tid ∈ ids ∨ InventoryService.normalized_username un ∈ names.
Proof.
  unfold InventoryService.make_admin. intros H.
  apply orb_true_iff in H as [H|H].
  - left. by apply bool_decide_eq_true in H.
  - right. destruct (truthy _); [|done]. by apply bool_decide_eq_true in H.
Qed.

Lemma make_admin_matches tid un ids names :
  tid ∈ ids
  ∨ (InventoryService.normalized_username un ≠ EmptyString
     ∧ InventoryService.normalized_username un ∈ names) →
  InventoryService.make_admin tid un ids names = true.
Proof.
  unfold InventoryService.make_admin. intros [H|[Hne H]]; apply orb_true_iff.
  - left. by apply bool_decide_eq_true.
  - right. destruct (InventoryService.normalized_username un); [done|].
    by apply bool_decide_eq_true.
Qed.

(** C10.  [ensure_user] never demotes: whatever the allow-lists, every
    account that is an administrator before the call is one after it.
    For the account of the given telegram id, the call returns it with the
    username, first name and last name of the call stored over the old
    ones, and with the administrator flag set exactly when it was set
    before or the allow-lists match; they match only if the telegram id is
    listed or the username, stripped of leading '@' and lower-cased, is. *)
Theorem ensure_user_never_demotes now tid un fn ln ids names s :
  (∀ k u, users (db s) !! k = Some u → is_admin u = true →
     ∃ u', users (db (InventoryService.ensure_user now tid un fn ln ids names s).2) !! k
           = Some u'
           ∧ is_admin u' = true)
  ∧ (∀ k u, users (db s) !! k = Some u → telegram_id u = tid →
     (∀ k' u', users (db s) !! k' = Some u' → telegram_id u' = tid → k' = k) →
     ∃ u', InventoryService.ensure_user now tid un fn ln ids names s
           = (Ok (Entity k u'), write (set_users (insert k u')) s)
           ∧ username u' = un ∧ first_name u' = fn ∧ last_name u' = ln
           ∧ telegram_id u' = tid ∧ user_created_at u' = user_created_at u
           ∧ is_admin u'
             = is_admin u || InventoryService.make_admin tid un ids names)
  ∧ (InventoryService.make_admin tid un ids names = true →
     tid ∈ ids ∨ InventoryService.normalized_username un ∈ names)
  ∧ (tid ∈ ids
     ∨ (InventoryService.normalized_username un ≠ EmptyString
        ∧ InventoryService.normalized_username un ∈ names) →
     InventoryService.make_admin tid un ids names = true).
Proof.
  split; [|split; [|split; [apply make_admin_true|apply make_admin_matches]]].
  - intros k u Hk Hadm.
    destruct (ensure_user_cases now tid un fn ln ids names s)
      as [(k0 & u0 & Hk0 & Hu0 & ->)|[[Hnone ->]|[_ ->]]]; simpl.
    + destruct (decide (k0 = k)) as [->|Hne].
      * rewrite lookup_insert_eq. eexists. split; [done|]. simpl.
        assert (u0 = u) as -> by congruence. by rewrite Hadm.
      * rewrite lookup_insert_ne by done. by exists u.
    + rewrite lookup_insert_ne; [by exists u|].
      intros Heq. rewrite <- Heq in Hk. by rewrite next_id_fresh in Hk.
    + by exists u.
  - intros k u Hk Hu Huniq.
    destruct (ensure_user_cases now tid un fn ln ids names s)
      as [(k0 & u0 & Hk0 & Hu0 & ->)|[[Hnone _]|[(k1 & u1 & k2 & u2 & Hne & H1 & Ht1 & H2 & Ht2) _]]].
    + assert (k0 = k) as -> by by eapply Huniq.
      assert (u0 = u) as -> by congruence.
      eexists. split; [reflexivity|]. done.
    + by destruct (Hnone k u Hk).
    + destruct Hne. by rewrite (Huniq k1 u1 H1 Ht1), (Huniq k2 u2 H2 Ht2).
Qed.

Lemma sample_store_one_alice k u :
  users Sample.store !! k = Some u → telegram_id u = 100 → k = 1.
Proof.
  simpl. intros Hk Hu.
  apply lookup_insert_Some in Hk as [[<- _]|[_ Hk]]; [done|].
  apply lookup_insert_Some in Hk as [[_ <-]|[_ Hk]]; [done|].
  apply lookup_singleton_Some in Hk as [_ <-]. done.
Qed.

Lemma ensure_user_never_demotes_witness :
  (∃ u', users (db (InventoryService.ensure_user 5 300 (Some "root") None None [] []
                      (begin true Sample.store)).2) !! 3 = Some u'
         ∧ is_admin u' = true)
  ∧ (∃ u', InventoryService.ensure_user 5 100 (Some "@@ALICE") (Some "Al") None []
             ["alice"] (begin true Sample.store)
           = (Ok (Entity 1 u'), write (set_users (insert 1 u')) (begin true Sample.store))
           ∧ username u' = Some "@@ALICE" ∧ first_name u' = Some "Al"
           ∧ last_name u' = None
           ∧ telegram_id u' = 100 ∧ user_created_at u' = 0
           ∧ is_admin u'
             = false || InventoryService.make_admin 100 (Some "@@ALICE") [] ["alice"])
  ∧ InventoryService.make_admin 100 (Some "@@ALICE") [] ["alice"] = true.
Proof.
  split; [|split].
  - apply (proj1 (ensure_user_never_demotes 5 300 (Some "root") None None [] []
                    (begin true Sample.store)) 3 (row Sample.root)).
    + reflexivity.
    + reflexivity.
  - apply (proj1 (proj2 (ensure_user_never_demotes 5 100 (Some "@@ALICE") (Some "Al")
                           None [] ["alice"] (begin true Sample.store)))
             1 (row Sample.alice)).
    + reflexivity.
    + reflexivity.
    + exact sample_store_one_alice.
  - apply (proj2 (proj2 (proj2 (ensure_user_never_demotes 5 100 (Some "@@ALICE")
                                  (Some "Al") None [] ["alice"]
                                  (begin true Sample.store))))).
    right. split; [discriminate|]. vm_compute. apply list_elem_of_here.
Defined.

(** ** The scenarios of the specification, run *)

(** X is available; A checks it out; B's check-out and B's check-in are
    refused; A checks it in; two events are on record for X. *)
Example scenario_check_out_and_return :
  serve true Sample.store
    [CheckOut 10 1 Sample.alice "photoA" None;
     CheckOut 11 1 Sample.bob "photoB" None;
     CheckIn 12 1 Sample.bob "photoB" None;
     CheckIn 13 1 Sample.alice "photoA2" None]
  = ([Ok tt; Raise InvalidTransition_not_available; Raise NotHolder; Ok tt],
     set_transactions
       (λ _, [mkTransaction 1 1 TAKE "photoA" None None 10;
              mkTransaction 1 1 RETURN "photoA2" None None 13])
       Sample.store).
Proof. reflexivity. Qed.

(** Y is taken by C; an administrator forces it to maintenance: the
    holder is gone, the ledger is as it was, one audit entry names the
    administrator. *)
Example scenario_forced_to_maintenance :
  (step true Sample.lent (ForceStatus 20 Sample.root 1 MAINTENANCE)).2
  = set_admin_logs
      (λ _, [mkAdminLog (Some 3) "set_item_status"
               (Some "item_id=1,status=maintenance") 20])
      (set_items
         (λ _, {[1 := mkItem 1 "drill" (Some "D-1") MAINTENANCE None 0]})
         Sample.lent).
Proof. reflexivity. Qed.

Example normalized_username_strips_and_lowers :
  InventoryService.normalized_username (Some "@@Alice_B") = "alice_b"
  ∧ InventoryService.normalized_username None = EmptyString.
Proof. split; reflexivity. Qed.

(** ** Text: stripping, splitting, reading numbers *)

Lemma ascii_lower_idem (c : ascii) : ascii_lower (ascii_lower c) = ascii_lower c.
Proof. by destruct c as [[] [] [] [] [] [] [] []]. Qed.

Lemma ascii_lower_at (c : ascii) : Ascii.eqb (ascii_lower c) "@" = Ascii.eqb c "@".
Proof. by destruct c as [[] [] [] [] [] [] [] []]. Qed.

Lemma lower_idem (s : string) : lower (lower s) = lower s.
Proof. induction s as [|c r IH]; simpl; [done|]. by rewrite ascii_lower_idem, IH. Qed.

Lemma lstrip_lower (s : string) : lstrip "@" (lower s) = lower (lstrip "@" s).
Proof.
  induction s as [|c r IH]; simpl; [done|]. rewrite ascii_lower_at.
  by destruct (Ascii.eqb c "@").
Qed.

Lemma lstrip_idem (ch : ascii) (s : string) : lstrip ch (lstrip ch s) = lstrip ch s.
Proof.
  induction s as [|c r IH]; simpl; [done|].
  destruct (Ascii.eqb c ch) eqn:Hc; [done|]. simpl. by rewrite Hc.
Qed.

Lemma normalized_username_idem (x : option string) :
  InventoryService.normalized_username (Some (InventoryService.normalized_username x))
  = InventoryService.normalized_username x.
Proof.
  unfold InventoryService.normalized_username. simpl.
  by rewrite lstrip_lower, lstrip_idem, lower_idem.
Qed.

Lemma truthy_true (s : string) : truthy s = true ↔ s ≠ EmptyString.
Proof. by destruct s. Qed.

Lemma rstrip_space_cons (c : ascii) (r : string) :
  is_space c = false → rstrip_space (String c r) = String c (rstrip_space r).
Proof. intros Hc. simpl. rewrite Hc. by destruct (rstrip_space r). Qed.

Lemma strip_no_space (s : string) :
  all_chars (λ c, negb (is_space c)) s = true → strip s = s.
Proof.
  intros Hs. unfold strip.
  assert (lstrip_space s = s) as ->.
  { destruct s as [|c r]; simpl in *; [done|].
    apply andb_true_iff in Hs as [Hc _]. by destruct (is_space c). }
  induction s as [|c r IH]; [done|]. simpl in Hs.
  apply andb_true_iff in Hs as [Hc Hr].
  rewrite rstrip_space_cons by by destruct (is_space c). by rewrite IH.
Qed.

Lemma split_no_sep (sep : ascii) (a b : string) :
  all_chars (λ c, negb (Ascii.eqb c sep)) a = true →
  split sep (a +:+ String sep b) = a :: split sep b.
Proof.
  induction a as [|c r IH]; simpl; intros Ha.
  - by rewrite Ascii.eqb_refl.
  - apply andb_true_iff in Ha as [Hc Hr]. apply negb_true_iff in Hc.
    rewrite Hc. by rewrite IH.
Qed.

Lemma split_no_sep_end (sep : ascii) (a : string) :
  all_chars (λ c, negb (Ascii.eqb c sep)) a = true → split sep a = [a].
Proof.
  induction a as [|c r IH]; simpl; intros Ha; [done|].
  apply andb_true_iff in Ha as [Hc Hr]. apply negb_true_iff in Hc.
  rewrite Hc. by rewrite IH.
Qed.

Lemma all_chars_impl (P Q : ascii → bool) (s : string) :
  (∀ c, P c = true → Q c = true) → all_chars P s = true → all_chars Q s = true.
Proof.
  intros HPQ. induction s as [|c r IH]; simpl; [done|].
  intros [Hc Hr]%andb_true_iff. apply andb_true_iff. auto.
Qed.

Lemma digit_value_pretty_N_char (x : N) :
  (x < 10)%N → digit_value (pretty_N_char x) = Some (Z.of_N x).
Proof.
  intros Hx.
  assert (x = 0 ∨ x = 1 ∨ x = 2 ∨ x = 3 ∨ x = 4 ∨ x = 5 ∨ x = 6 ∨ x = 7
          ∨ x = 8 ∨ x = 9)%N as H by lia.
  by repeat (destruct H as [->|H]; [done|]); subst.
Qed.

Lemma pretty_N_go_digits (x : N) (s : string) :
  all_chars is_digit s = true → all_chars is_digit (pretty_N_go x s) = true.
Proof.
  revert s. induction (N.lt_wf_0 x) as [x _ IH]; intros s Hs.
  assert (x = 0 ∨ 0 < x)%N as [->|Hx] by lia; [done|].
  rewrite pretty_N_go_step by done. apply IH; [by apply N.div_lt|].
  simpl. rewrite Hs, andb_true_r. unfold is_digit.
  rewrite digit_value_pretty_N_char by (apply N.mod_lt; lia).
  by apply bool_decide_eq_true.
Qed.

Lemma int_digits_pretty_N_go (x : N) :
  (0 < x)%N →
  ∃ p, ∀ acc b s,
    int_digits acc b (pretty_N_go x s) = int_digits (acc * p + Z.of_N x) true s.
Proof.
  induction (N.lt_wf_0 x) as [x _ IH]; intros Hx.
  assert (x < 10 ∨ 10 ≤ x)%N as [Hsmall|Hbig] by lia.
  - exists 10. intros acc b s. rewrite pretty_N_go_step by done.
    rewrite N.div_small, N.mod_small by done. rewrite pretty_N_go_0. simpl.
    by rewrite digit_value_pretty_N_char.
  - destruct (IH (x `div` 10)%N) as [p Hp].
    { by apply N.div_lt. }
    { apply N.div_str_pos. lia. }
    exists (p * 10). intros acc b s. rewrite pretty_N_go_step by done.
    rewrite Hp. simpl.
    rewrite digit_value_pretty_N_char by (apply N.mod_lt; lia).
    f_equal. pose proof (N.div_mod x 10). lia.
Qed.

Lemma pretty_N_go_head (x : N) (s : string) :
  (0 < x)%N → ∃ d r, (d < 10)%N ∧ pretty_N_go x s = String (pretty_N_char d) r.
Proof.
  revert s. induction (N.lt_wf_0 x) as [x _ IH]; intros s Hx.
  rewrite pretty_N_go_step by done.
  assert (x < 10 ∨ 10 ≤ x)%N as [Hsmall|Hbig] by lia.
  - rewrite N.div_small by done. rewrite pretty_N_go_0.
    eexists _, _. split; [|done]. apply N.mod_lt. lia.
  - apply IH; [by apply N.div_lt|]. apply N.div_str_pos. lia.
Qed.

Lemma pretty_N_char_plain (d : N) :
  (d < 10)%N →
  Ascii.eqb (pretty_N_char d) "-" = false ∧ Ascii.eqb (pretty_N_char d) "+" = false.
Proof.
  intros Hd.
  assert (d = 0 ∨ d = 1 ∨ d = 2 ∨ d = 3 ∨ d = 4 ∨ d = 5 ∨ d = 6 ∨ d = 7
          ∨ d = 8 ∨ d = 9)%N as H by lia.
  by repeat (destruct H as [->|H]; [done|]); subst.
Qed.

Lemma is_digit_plain (c : ascii) :
  is_digit c = true →
  is_space c = false ∧ Ascii.eqb c ":" = false ∧ Ascii.eqb c "," = false.
Proof. by destruct c as [[] [] [] [] [] [] [] []]. Qed.

(** What [str(n)] looks like: digits, after a dash for a negative
    number. *)
Lemma pretty_Z_shape (n : Z) :
  ∃ x, (0 < x)%N
    ∧ ((0 ≤ n ∧ Z.of_N x = (if decide (n = 0) then 1 else n)
        ∧ pretty n = (if decide (n = 0) then "0" else pretty_N_go x EmptyString))
       ∨ (n < 0 ∧ Z.of_N x = - n
          ∧ pretty n = String "-" (pretty_N_go x EmptyString))).
Proof.
  destruct n as [|p|p].
  - exists 1%N. split; [done|]. left. done.
  - exists (N.pos p). split; [done|]. left. split; [done|]. split; done.
  - exists (N.pos p). split; [done|]. right. done.
Qed.

Lemma int_pretty (n : Z) : int (pretty n) = Some n.
Proof.
  destruct (pretty_Z_shape n) as (x & Hx & [(Hn & Hval & ->)|(Hn & Hval & ->)]).
  - case_decide as H0; [by subst|].
    unfold int. rewrite strip_no_space.
    2: { eapply all_chars_impl; [|by apply pretty_N_go_digits].
         intros c Hc. by rewrite (proj1 (is_digit_plain c Hc)). }
    destruct (pretty_N_go_head x EmptyString Hx) as (d & r & Hd & Heq).
    destruct (int_digits_pretty_N_go x Hx) as [p Hp].
    rewrite Heq. destruct (pretty_N_char_plain d Hd) as [-> ->].
    rewrite <- Heq, Hp. simpl. f_equal. lia.
  - unfold int. rewrite strip_no_space.
    2: { simpl. eapply all_chars_impl; [|by apply pretty_N_go_digits].
         intros c Hc. by rewrite (proj1 (is_digit_plain c Hc)). }
    simpl. destruct (int_digits_pretty_N_go x Hx) as [p Hp].
    rewrite Hp. simpl. f_equal. lia.
Qed.

Lemma pretty_Z_truthy (n : Z) : truthy (pretty n) = true.
Proof.
  destruct (pretty_Z_shape n) as (x & Hx & [(_ & _ & ->)|(_ & _ & ->)]); [|done].
  case_decide; [done|].
  by destruct (pretty_N_go_head x EmptyString Hx) as (d & r & _ & ->).
Qed.

Lemma pretty_Z_no_colon (n : Z) :
  all_chars (λ c, negb (Ascii.eqb c ":")) (pretty n) = true.
Proof.
  destruct (pretty_Z_shape n) as (x & Hx & [(_ & _ & ->)|(_ & _ & ->)]).
  - case_decide; [done|].
    eapply all_chars_impl; [|by apply (pretty_N_go_digits x EmptyString)].
    intros c Hc. by rewrite (proj1 (proj2 (is_digit_plain c Hc))).
  - simpl. eapply all_chars_impl; [|by apply (pretty_N_go_digits x EmptyString)].
    intros c Hc. by rewrite (proj1 (proj2 (is_digit_plain c Hc))).
Qed.

(** ** The allow-lists of the configuration *)

Lemma split_empty_part (sep : ascii) (part : string) :
  part ∈ split sep EmptyString → part = EmptyString.
Proof. simpl. by intros ->%list_elem_of_singleton. Qed.

(** X1.  Every name [_parse_admin_usernames] yields is not empty and is
    its own normal form: [ensure_user] normalises it to itself. *)
Theorem parsed_usernames_are_normalized raw name :
  name ∈ Config._parse_admin_usernames raw →
  name ≠ EmptyString ∧ InventoryService.normalized_username (Some name) = name.
Proof.
  unfold Config._parse_admin_usernames. destruct (truthy (or_empty raw));
    [|by intros ?%elem_of_nil].
  intros (part & _ & Hpart)%list_elem_of_omap. simpl in Hpart.
  destruct (truthy (strip part)); [|done].
  destruct (truthy (lower (lstrip "@" (strip part)))) eqn:Hn; [|done].
  injection Hpart as <-. split; [by apply truthy_true|].
  apply (normalized_username_idem (Some (strip part))).
Qed.

Lemma parsed_usernames_are_normalized_witness :
  "alice" ∈ Config._parse_admin_usernames (Some " @Alice , ,@@,bob")
  ∧ "alice" ≠ EmptyString
  ∧ InventoryService.normalized_username (Some "alice") = "alice".
Proof.
  assert ("alice" ∈ Config._parse_admin_usernames (Some " @Alice , ,@@,bob")) as H.
  { vm_compute. apply list_elem_of_here. }
  split; [exact H|].
  exact (parsed_usernames_are_normalized (Some " @Alice , ,@@,bob") "alice" H).
Defined.

(** X2.  A handle written in the list of administrator usernames, with
    whatever blanks around it, leading '@' and capitals, makes
    [ensure_user] raise the flag of every account whose username has the
    same normal form. *)
Theorem listed_username_makes_admin raw part telegram_id username ids :
  part ∈ split "," raw →
  InventoryService.normalized_username username
  = InventoryService.normalized_username (Some (strip part)) →
  InventoryService.normalized_username username ≠ EmptyString →
  InventoryService.make_admin telegram_id username ids
    (Config._parse_admin_usernames (Some raw)) = true.
Proof.
  intros Hpart Hsame Hne. unfold InventoryService.make_admin.
  apply orb_true_iff. right.
  rewrite (proj2 (truthy_true _) Hne). apply bool_decide_eq_true.
  unfold Config._parse_admin_usernames. simpl.
  destruct raw as [|c raw]; simpl.
  { apply split_empty_part in Hpart as ->. by rewrite Hsame in Hne. }
  apply list_elem_of_omap. exists part. split; [done|]. simpl.
  rewrite Hsame in *. unfold InventoryService.normalized_username in *. simpl in *.
  assert (truthy (strip part) = true) as ->.
  { destruct (strip part); [by destruct Hne|done]. }
  by rewrite (proj2 (truthy_true _) Hne).
Qed.

Lemma listed_username_makes_admin_witness :
  InventoryService.make_admin 100 (Some "ALICE") []
    (Config._parse_admin_usernames (Some "bob, @Alice ")) = true.
Proof.
  apply (listed_username_makes_admin "bob, @Alice " " @Alice " 100 (Some "ALICE") []).
  - vm_compute. apply list_elem_of_further, list_elem_of_here.
  - reflexivity.
  - discriminate.
Defined.

Lemma parse_admin_ids_elem raw part n :
  part ∈ split "," raw → strip part = pretty n →
  n ∈ Config._parse_admin_ids (Some raw).
Proof.
  intros Hpart Hn. unfold Config._parse_admin_ids. simpl.
  destruct raw as [|c raw]; simpl.
  { apply split_empty_part in Hpart as ->.
    pose proof (pretty_Z_truthy n) as Ht. by rewrite <- Hn in Ht. }
  apply list_elem_of_omap. exists part. split; [done|]. simpl.
  rewrite Hn, pretty_Z_truthy. apply int_pretty.
Qed.

(** X3.  A telegram id written in decimal in the list of administrator
    ids, with whatever blanks around it and whatever else the list holds,
    is among the ids [_parse_admin_ids] yields. *)
Theorem listed_id_is_parsed raw part n :
  part ∈ split "," raw → strip part = pretty n →
  n ∈ Config._parse_admin_ids (Some raw).
Proof. apply parse_admin_ids_elem. Qed.

Lemma listed_id_is_parsed_witness :
  -42 ∈ Config._parse_admin_ids (Some "7, x, -42 ,").
Proof.
  apply (listed_id_is_parsed "7, x, -42 ," " -42 " (-42)).
  - vm_compute. do 2 apply list_elem_of_further. apply list_elem_of_here.
  - reflexivity.
Defined.

(** ** Accounts: the sender, the gate, the administrator flag *)

Lemma ensure_from_account now settings f s k u :
  account_of (db s) f k u →
  ensure_from now settings f s
  = (Ok (Entity k (refreshed settings f u)),
     write (set_users (insert k (refreshed settings f u))) s).
Proof.
  intros (Hk & Hu & Huniq). unfold ensure_from.
  destruct (ensure_user_cases now (from_id f) (from_username f) (from_first_name f)
              (from_last_name f) (Config.initial_admin_ids settings)
              (Config.initial_admin_usernames settings) s)
    as [(k0 & u0 & Hk0 & Hu0 & ->)|[[Hnone _]|[(k1 & u1 & k2 & u2 & Hne & H1 & Ht1 & H2 & Ht2) _]]].
  - assert (k0 = k) as -> by by eapply Huniq.
    by assert (u0 = u) as -> by congruence.
  - by destruct (Hnone k u Hk).
  - destruct Hne. by rewrite (Huniq k1 u1 H1 Ht1), (Huniq k2 u2 H2 Ht2).
Qed.

Lemma account_of_refreshed settings f d k u :
  account_of d f k u →
  account_of (set_users (insert k (refreshed settings f u)) d) f k (refreshed settings f u).
Proof.
  intros (Hk & Hu & Huniq). split; [|split].
  - simpl. by rewrite lookup_insert_eq.
  - done.
  - intros k' u' Hk' Hu'. simpl in Hk'.
    destruct (decide (k = k')) as [->|Hne]; [done|].
    rewrite lookup_insert_ne in Hk' by done. by eapply Huniq.
Qed.

Lemma toggle_admin_found now admin target s u :
  users (db s) !! target = Some u → known_user (db s) admin →
  AdminService.toggle_admin now admin target s
  = (Ok (Some (negb (is_admin u))),
     write (set_admin_logs
              (λ l, l ++ [audit now admin "toggle_admin"
                            ("target_user_id=" +:+ pretty target +:+ ",new_is_admin="
                             +:+ pretty_bool (negb (is_admin u)))]))
       (write (set_users (insert target (with_is_admin (negb (is_admin u)) u))) s)).
Proof.
  intros Hu Ha. unfold AdminService.toggle_admin, UserRepository.toggle_admin,
    session_get, gets, update_user, modify, AdminLogRepository.log, flush.
  rewrite !bind_run. simpl. rewrite Hu. simpl. rewrite !bind_run. simpl.
  rewrite add_admin_log_ok; [done|]. simpl.
  destruct Ha as [a Ha]. destruct (decide (target = obj_id admin)) as [->|Hne].
  - rewrite lookup_insert_eq. by eexists.
  - rewrite lookup_insert_ne by done. by eexists.
Qed.


(** X4.  Toggling the administrator flag of an account twice gives the
    flag back: the first call returns the opposite of the stored flag,
    the second the stored flag, the users table is again what it was, and
    the audit trail has grown by two entries. *)
Theorem toggle_admin_twice now1 now2 admin target s u :
  users (db s) !! target = Some u → known_user (db s) admin →
  ∃ s1 s2,
    AdminService.toggle_admin now1 admin target s = (Ok (Some (negb (is_admin u))), s1)
    ∧ AdminService.toggle_admin now2 admin target s1 = (Ok (Some (is_admin u)), s2)
    ∧ users (db s2) = users (db s)
    ∧ length (admin_logs (db s2)) = S (S (length (admin_logs (db s)))).
Proof.
  intros Hu Ha. eexists _, _.
  rewrite (toggle_admin_found now1 admin target s u) by done.
  split; [reflexivity|].
  erewrite (toggle_admin_found now2 admin target _
              (with_is_admin (negb (is_admin u)) u)).
  - simpl. rewrite negb_involutive. split; [reflexivity|]. simpl. split.
    + rewrite insert_insert_eq. apply insert_id. rewrite Hu. by destruct u.
    + rewrite !length_app. simpl. lia.
  - simpl. by rewrite lookup_insert_eq.
  - destruct Ha as [a Ha]. unfold known_user. simpl.
    destruct (decide (target = obj_id admin)) as [->|Hne].
    + rewrite lookup_insert_eq. by eexists.
    + rewrite lookup_insert_ne by done. by eexists.
Qed.

Lemma toggle_admin_twice_witness :
  ∃ s1 s2,
    AdminService.toggle_admin 5 Sample.root 2 (begin true Sample.store)
    = (Ok (Some (negb false)), s1)
    ∧ AdminService.toggle_admin 6 Sample.root 2 s1 = (Ok (Some false), s2)
    ∧ users (db s2) = users Sample.store
    ∧ length (admin_logs (db s2)) = 2%nat.
Proof.
  apply (toggle_admin_twice 5 6 Sample.root 2 (begin true Sample.store)
           (row Sample.bob)).
  - reflexivity.
  - by eexists.
Defined.

Lemma transact_ok_eq {A : Type} (fk : bool) (body : M A) (d d' : DB) (a : A) (s : Session) :
  body (begin fk d) = (Ok a, s) → db s = d' → transact fk body d = (Ok a, d').
Proof. intros H <-. unfold transact. by rewrite H. Qed.

Lemma require_admin_account fk d now settings f k u :
  account_of d f k u →
  transact fk (HandlersAdmin._require_admin now settings f) d
  = (Ok (is_admin u || allow_listed settings f),
     set_users (insert k (refreshed settings f u)) d).
Proof.
  intros Hacc. unfold transact, HandlersAdmin._require_admin,
    HandlersAdmin._get_admin_user.
  rewrite !bind_run, (ensure_from_account now settings f (begin fk d) k u) by done.
  simpl. by destruct (is_admin u || allow_listed settings f).
Qed.

Lemma account_of_users settings f d d' k u b :
  account_of d f k u →
  users d' = <[k := with_is_admin b (refreshed settings f u)]> (users d) →
  account_of d' f k (with_is_admin b (refreshed settings f u)).
Proof.
  intros (Hk & Hu & Huniq) Hd'. split; [|split].
  - by rewrite Hd', lookup_insert_eq.
  - done.
  - intros k' u' Hk' Hu'. rewrite Hd' in Hk'.
    destruct (decide (k = k')) as [->|Hne]; [done|].
    rewrite lookup_insert_ne in Hk' by done. by eapply Huniq.
Qed.

(** X5.  The gate in front of the administrator menus lets a sender
    through exactly when the flag of its account is set or the
    allow-lists name it; the call stores the flag it has found together
    with the sender's current names.  A sender that has no account yet
    gets one, and is let through exactly when the allow-lists name it. *)
Theorem admin_gate fk d now settings f :
  (∀ k u, account_of d f k u →
     transact fk (HandlersAdmin._require_admin now settings f) d
     = (Ok (is_admin u || allow_listed settings f),
        set_users (insert k (refreshed settings f u)) d))
  ∧ ((∀ k u, users d !! k = Some u → telegram_id u ≠ from_id f) →
     transact fk (HandlersAdmin._require_admin now settings f) d
     = (Ok (allow_listed settings f),
        set_users (insert (next_id (users d))
                     (mkUser (from_id f) (from_username f) (from_first_name f)
                        (from_last_name f) (allow_listed settings f) now)) d)).
Proof.
  split.
  - intros k u Hacc. by apply require_admin_account.
  - intros Hnone. unfold transact, HandlersAdmin._require_admin,
      HandlersAdmin._get_admin_user, ensure_from.
    rewrite !bind_run.
    destruct (ensure_user_cases now (from_id f) (from_username f) (from_first_name f)
                (from_last_name f) (Config.initial_admin_ids settings)
                (Config.initial_admin_usernames settings) (begin fk d))
      as [(k0 & u0 & Hk0 & Hu0 & _)|[[_ ->]|[(k1 & u1 & _ & _ & _ & H1 & Ht1 & _) _]]].
    + by destruct (Hnone k0 u0 Hk0).
    + simpl. unfold allow_listed.
      by destruct (InventoryService.make_admin _ _ _ _).
    + by destruct (Hnone k1 u1 H1).
Qed.

(** ** The handlers behind the inline buttons *)

Lemma int_after_colon_pretty (a : string) (k : Z) :
  all_chars (λ c, negb (Ascii.eqb c ":")) a = true →
  int_after_colon (a +:+ String ":" (pretty k)) = Some k.
Proof.
  intros Ha. unfold int_after_colon.
  assert (split_once ":" (a +:+ String ":" (pretty k)) = [a; pretty k]) as ->.
  { induction a as [|c r IH]; simpl in *; [done|].
    apply andb_true_iff in Ha as [Hc Hr]. apply negb_true_iff in Hc.
    by rewrite Hc, IH. }
  simpl. apply int_pretty.
Qed.

Lemma sample_account (d : DB) (f : FromUser) (k : Z) (u : User) :
  users d = users Sample.store →
  users Sample.store !! k = Some u → telegram_id u = from_id f →
  account_of d f k u.
Proof.
  intros Hd Hk Hu. split; [by rewrite Hd|]. split; [done|].
  intros k' u' Hk' Hu'. rewrite Hd in Hk'.
  assert (map_Forall (λ k1 u1, map_Forall (λ k2 u2,
            telegram_id u1 = telegram_id u2 → k1 = k2) (users Sample.store))
            (users Sample.store)) as Hall
    by (by apply (bool_decide_unpack _)).
  apply (Hall k' u' Hk' k u Hk). congruence.
Qed.

(** X6.  The handler of the toggle button checks nothing about its
    sender.  An account that the gate of the menus refuses, and that sends
    the callback data of the toggle button for its own id, is made an
    administrator, and the gate lets it through from then on. *)
Theorem toggle_button_is_ungated fk d now settings f k u :
  account_of d f k u → is_admin u = false → allow_listed settings f = false →
  ∃ b body d',
    [b] ∈ Keyboards.admin_user_actions_keyboard k false
    ∧ (transact fk (HandlersAdmin._require_admin now settings f) d).1 = Ok false
    ∧ HandlersAdmin.adm_toggle_admin now settings f (Keyboards.callback_data b) = Some body
    ∧ transact fk body d = (Ok (Some true), d')
    ∧ ∀ now', (transact fk (HandlersAdmin._require_admin now' settings f) d').1 = Ok true.
Proof.
  intros Hacc Hflag Hlist.
  pose (u1 := refreshed settings f u).
  assert (is_admin u1 = false) as Hu1 by (simpl; by rewrite Hflag, Hlist).
  eexists (Keyboards.mkButton _ ("adm_user_toggle:" +:+ pretty k)), _, _.
  split; [by left|]. split.
  { rewrite (require_admin_account fk d now settings f k u) by done.
    simpl. by rewrite Hflag, Hlist. }
  split.
  { unfold HandlersAdmin.adm_toggle_admin. simpl Keyboards.callback_data.
    change ("adm_user_toggle:" +:+ pretty k)
      with ("adm_user_toggle" +:+ String ":" (pretty k)).
    rewrite int_after_colon_pretty by done. reflexivity. }
  assert (transact fk
            (admin ← ensure_from now settings f;
             AdminService.toggle_admin now admin k) d
          = (Ok (Some true),
             set_admin_logs
               (λ l, l ++ [audit now (Entity k u1) "toggle_admin"
                             ("target_user_id=" +:+ pretty k +:+ ",new_is_admin="
                              +:+ pretty_bool true)])
               (set_users (insert k (with_is_admin true u1))
                  (set_users (insert k u1) d)))) as Hrun.
  { unfold transact. rewrite bind_run.
    rewrite (ensure_from_account now settings f (begin fk d) k u) by done.
    fold u1. erewrite (toggle_admin_found now (Entity k u1) k _ u1).
    - by rewrite Hu1.
    - simpl. by rewrite lookup_insert_eq.
    - unfold known_user. simpl. rewrite lookup_insert_eq. by eexists. }
  split; [exact Hrun|].
  intros now'.
  erewrite (require_admin_account fk _ now' settings f k (with_is_admin true u1)).
  - done.
  - apply (account_of_users settings f d _ k u true); [done|].
    simpl. by rewrite insert_insert_eq.
Qed.

Lemma toggle_button_is_ungated_witness :
  ∃ b body d',
    [b] ∈ Keyboards.admin_user_actions_keyboard 2 false
    ∧ (transact true (HandlersAdmin._require_admin 5 Sample.settings Sample.from_bob)
         Sample.store).1 = Ok false
    ∧ HandlersAdmin.adm_toggle_admin 5 Sample.settings Sample.from_bob
        (Keyboards.callback_data b) = Some body
    ∧ transact true body Sample.store = (Ok (Some true), d')
    ∧ ∀ now', (transact true (HandlersAdmin._require_admin now' Sample.settings
                                Sample.from_bob) d').1 = Ok true.
Proof.
  apply (toggle_button_is_ungated true Sample.store 5 Sample.settings Sample.from_bob
           2 (row Sample.bob)).
  - by apply sample_account.
  - reflexivity.
  - reflexivity.
Defined.

Lemma elem_of_concat {A : Type} (x : A) (ls : list (list A)) :
  x ∈ concat ls ↔ ∃ l, l ∈ ls ∧ x ∈ l.
Proof.
  induction ls as [|l ls IH]; simpl.
  - split; [by intros ?%elem_of_nil|by intros (l & ?%elem_of_nil & _)].
  - rewrite elem_of_app, IH. split.
    + intros [H|(l' & Hl' & Hx)].
      * exists l. split; [by left|done].
      * exists l'. split; [by right|done].
    + intros (l' & Hl' & Hx). apply elem_of_cons in Hl' as [-> |Hl'].
      * by left.
      * right. by exists l'.
Qed.

Lemma append_inj_r (p a b : string) : p +:+ a = p +:+ b → a = b.
Proof. induction p as [|c r IH]; simpl; [done|]. intros [=]. by apply IH. Qed.

(** The buttons of the item card of the administrator menu. *)
Lemma elem_of_admin_item_actions_keyboard b k cat cur :
  b ∈ concat (Keyboards.admin_item_actions_keyboard k cat cur)
  ↔ b = Keyboards.mkButton "✏️ Переименовать" ("adm_item_rename:" +:+ pretty k)
    ∨ b = Keyboards.mkButton "🏷 Изменить инв. код" ("adm_item_code:" +:+ pretty k)
    ∨ (∃ key label, (key, label) ∈ Keyboards.STATUS_LIST ∧ key ≠ cur
         ∧ b = Keyboards.mkButton ("→ " +:+ label)
                 ("adm_item_status:" +:+ pretty k +:+ ":" +:+ key))
    ∨ b = Keyboards.mkButton "🗑 Удалить позицию" ("adm_item_del:" +:+ pretty k)
    ∨ b = Keyboards.mkButton "← Назад к списку" ("adm_items:" +:+ pretty cat).
Proof.
  unfold Keyboards.admin_item_actions_keyboard. cbv zeta.
  rewrite elem_of_concat. setoid_rewrite list_elem_of_filter.
  split.
  - intros (l & [_ Hl] & Hb).
    repeat (apply elem_of_cons in Hl as [-> |Hl]).
    + apply list_elem_of_singleton in Hb. by left.
    + apply list_elem_of_singleton in Hb. by right; left.
    + apply list_elem_of_omap in Hb as ([key label] & Hin & Hsome).
      case_bool_decide as Hne; [|done]. injection Hsome as <-.
      right; right; left. by exists key, label.
    + apply list_elem_of_singleton in Hb. by right; right; right; left.
    + apply list_elem_of_singleton in Hb. by right; right; right; right.
    + by apply elem_of_nil in Hl.
  - intros [-> |[-> |[(key & label & Hin & Hne & ->)|[-> | ->]]]].
    + eexists. split; [split; [|by left]|by left]. done.
    + eexists. split; [split; [|by right; left]|by left]. done.
    + eexists. split; [split; [|by right; right; left]|].
      * intros Hnil.
        assert (Keyboards.mkButton ("→ " +:+ label)
                  ("adm_item_status:" +:+ pretty k +:+ ":" +:+ key)
                ∈ @nil Keyboards.InlineKeyboardButton) as Hbad; [|by apply elem_of_nil in Hbad].
        rewrite <- Hnil. apply list_elem_of_omap. exists (key, label).
        split; [done|]. by rewrite bool_decide_true.
      * apply list_elem_of_omap. exists (key, label).
        split; [done|]. by rewrite bool_decide_true.
    + eexists. split; [split; [|by right; right; right; left]|by left]. done.
    + eexists. split; [split; [|by right; right; right; right; left]|by left]. done.
Qed.

Lemma status_data_decodes now settings f k st :
  HandlersAdmin.adm_item_set_status now settings f
    ("adm_item_status:" +:+ pretty k +:+ ":" +:+ status_value st)
  = Some (Some (admin ← ensure_from now settings f;
                AdminService.set_item_status now admin k st)).
Proof.
  unfold HandlersAdmin.adm_item_set_status. cbv zeta.
  change ("adm_item_status:" +:+ pretty k +:+ ":" +:+ status_value st)
    with ("adm_item_status" +:+ String ":" (pretty k +:+ String ":" (status_value st))).
  rewrite split_no_sep by done.
  rewrite split_no_sep by apply pretty_Z_no_colon.
  rewrite split_no_sep_end by (by destruct st).
  simpl. rewrite int_pretty. simpl. by destruct st.
Qed.

Lemma status_key_listed st :
  ∃ label, (status_value st, label) ∈ Keyboards.STATUS_LIST.
Proof.
  destruct st; eexists; unfold Keyboards.STATUS_LIST; simpl.
  - by left.
  - by right; left.
  - by right; right; right; left.
  - by right; right; left.
Qed.

Lemma status_value_inj st st' : status_value st = status_value st' → st = st'.
Proof. by destruct st, st'. Qed.

(** X7.  The card of an item in the administrator menu carries one status
    button for every status other than the item's own and none for its
    own.  The data of each button is decoded by the handler to the item
    and the status on the button, and the handler then overrides the
    status in the sender's name, whatever the administrator flag of the
    sender is. *)
Theorem status_buttons_override_status fk d now settings f ka u k cat i :
  account_of d f ka u → items d !! k = Some i →
  (∀ st, st ≠ status i →
     ∃ b body,
       b ∈ concat (Keyboards.admin_item_actions_keyboard k cat (status_value (status i)))
       ∧ HandlersAdmin.adm_item_set_status now settings f (Keyboards.callback_data b)
         = Some (Some body)
       ∧ transact fk body d
         = (Ok true,
            set_admin_logs
              (λ l, l ++ [set_item_status_entry now
                            (Entity ka (refreshed settings f u)) k st])
              (set_items (insert k (forced st i))
                 (set_users (insert ka (refreshed settings f u)) d))))
  ∧ (∀ b, b ∈ concat (Keyboards.admin_item_actions_keyboard k cat
                        (status_value (status i))) →
       Keyboards.callback_data b
       ≠ "adm_item_status:" +:+ pretty k +:+ ":" +:+ status_value (status i)).
Proof.
  intros Hacc Hi. split.
  - intros st Hst. destruct (status_key_listed st) as [label Hlabel].
    exists (Keyboards.mkButton ("→ " +:+ label)
              ("adm_item_status:" +:+ pretty k +:+ ":" +:+ status_value st)).
    eexists. split; [|split].
    + apply elem_of_admin_item_actions_keyboard. right; right; left.
      exists (status_value st), label. split; [done|]. split; [|done].
      intros Heq. by apply Hst, status_value_inj.
    + simpl. apply status_data_decodes.
    + eapply transact_ok_eq.
      * rewrite bind_run.
        rewrite (ensure_from_account now settings f (begin fk d) ka u) by done.
        apply (set_item_status_ok now _ k st _ i); [done|].
        unfold known_user. simpl. rewrite lookup_insert_eq. by eexists.
      * done.
  - intros b Hb%elem_of_admin_item_actions_keyboard.
    destruct Hb as [-> |[-> |[(key & label & Hin & Hne & ->)|[-> | ->]]]]; simpl;
      try by intros [=].
    intros [= Heq].
    change (pretty k +:+ ":" +:+ key
            = pretty k +:+ ":" +:+ status_value (status i)) in Heq.
    apply append_inj_r in Heq. by apply (append_inj_r ":") in Heq.
Qed.

Lemma status_buttons_override_status_witness :
  (∀ st, st ≠ status Sample.drill →
     ∃ b body,
       b ∈ concat (Keyboards.admin_item_actions_keyboard 1 1
                     (status_value (status Sample.drill)))
       ∧ HandlersAdmin.adm_item_set_status 5 Sample.settings Sample.from_bob
           (Keyboards.callback_data b) = Some (Some body)
       ∧ transact true body Sample.store
         = (Ok true,
            set_admin_logs
              (λ l, l ++ [set_item_status_entry 5
                            (Entity 2 (refreshed Sample.settings Sample.from_bob
                                         (row Sample.bob))) 1 st])
              (set_items (insert 1 (forced st Sample.drill))
                 (set_users (insert 2 (refreshed Sample.settings Sample.from_bob
                                         (row Sample.bob))) Sample.store))))
  ∧ (∀ b, b ∈ concat (Keyboards.admin_item_actions_keyboard 1 1
                        (status_value (status Sample.drill))) →
       Keyboards.callback_data b
       ≠ "adm_item_status:" +:+ pretty 1 +:+ ":" +:+ status_value (status Sample.drill)).
Proof.
  apply (status_buttons_override_status true Sample.store 5 Sample.settings
           Sample.from_bob 2 (row Sample.bob) 1 1 Sample.drill).
  - by apply sample_account.
  - reflexivity.
Defined.

(** The buttons of the item card of the user menu. *)
Lemma elem_of_item_actions_keyboard b k can_take can_return cat :
  b ∈ concat (Keyboards.item_actions_keyboard k can_take can_return cat)
  ↔ (can_take = true
     ∧ b = Keyboards.mkButton "✋ Взять позицию" ("take:" +:+ pretty k))
    ∨ (can_return = true
       ∧ b = Keyboards.mkButton "↩️ Вернуть позицию" ("return:" +:+ pretty k))
    ∨ b = Keyboards.mkButton "← Назад к списку" ("back:items:" +:+ pretty k)
    ∨ b = Keyboards.mkButton "← К категориям" "back:categories".
Proof.
  unfold Keyboards.item_actions_keyboard.
  destruct can_take, can_return; simpl; rewrite ?elem_of_cons, elem_of_nil;
    intuition discriminate.
Qed.

Lemma receive_take_photo_ok fk d now settings f ku u k i photo :
  account_of d f ku u → items d !! k = Some i →
  is_ok (transact fk (HandlersUser.receive_take_photo now settings f k photo) d).1
  = bool_decide (status i = AVAILABLE).
Proof.
  intros Hacc Hi. unfold transact, HandlersUser.receive_take_photo.
  rewrite bind_run, (ensure_from_account now settings f (begin fk d) ku u) by done.
  case_bool_decide as Hst.
  - erewrite (take_item_ok now k _ photo None _ i); [done|done|done|].
    unfold known_user. simpl. rewrite lookup_insert_eq. by eexists.
  - by erewrite (take_item_unavailable now k _ photo None _ i).
Qed.

Lemma receive_return_photo_ok fk d now settings f ku u k i photo :
  account_of d f ku u → items d !! k = Some i →
  is_ok (transact fk (HandlersUser.receive_return_photo now settings f k photo) d).1
  = bool_decide (status i = TAKEN) && bool_decide (current_holder_id i = Some ku).
Proof.
  intros Hacc Hi. unfold transact, HandlersUser.receive_return_photo.
  rewrite bind_run, (ensure_from_account now settings f (begin fk d) ku u) by done.
  case_bool_decide as Hst; simpl.
  - case_bool_decide as Hh.
    + erewrite (return_item_ok now k _ photo None _ i); [done|done|done|done|].
      unfold known_user. simpl. rewrite lookup_insert_eq. by eexists.
    + by erewrite (return_item_not_holder now k _ photo None _ i).
  - by erewrite (return_item_not_taken now k _ photo None _ i).
Qed.

(** X8.  The card of an item in the user menu offers the take button
    exactly when a check-out of the item by the sender, served from the
    same store, succeeds, and the return button exactly when a check-in by
    the sender succeeds.  The handlers that follow the two buttons read
    the id of the item back from the data of the button. *)
Theorem item_buttons_match_custody fk d now settings f ku u k i :
  account_of d f ku u → items d !! k = Some i →
  ∃ body kb,
    HandlersUser.on_item_selected now settings f ("item:" +:+ pretty k) = Some body
    ∧ (body (begin fk d)).1 = Ok (Some kb)
    ∧ (∀ now' photo,
         (∃ b, b ∈ concat kb ∧ Keyboards.callback_data b = "take:" +:+ pretty k)
         ↔ is_ok (transact fk (HandlersUser.receive_take_photo now' settings f k photo)
                    d).1 = true)
    ∧ (∀ now' photo,
         (∃ b, b ∈ concat kb ∧ Keyboards.callback_data b = "return:" +:+ pretty k)
         ↔ is_ok (transact fk (HandlersUser.receive_return_photo now' settings f k photo)
                    d).1 = true)
    ∧ HandlersUser.start_take_item ("take:" +:+ pretty k) = Some k
    ∧ HandlersUser.start_return_item ("return:" +:+ pretty k) = Some k.
Proof.
  intros Hacc Hi. eexists _, _. split; [|split; [|split; [|split; [|split]]]].
  - unfold HandlersUser.on_item_selected.
    change ("item:" +:+ pretty k) with ("item" +:+ String ":" (pretty k)).
    rewrite int_after_colon_pretty by done. reflexivity.
  - rewrite bind_run, (ensure_from_account now settings f (begin fk d) ku u) by done.
    unfold ItemRepository.get_by_id, session_get, gets. rewrite !bind_run. simpl.
    rewrite Hi. reflexivity.
  - intros now' photo.
    rewrite (receive_take_photo_ok fk d now' settings f ku u k i photo) by done.
    split.
    + intros (b & Hb%elem_of_item_actions_keyboard & Hdata).
      destruct Hb as [[Hct ->]|[[_ ->]|[-> | ->]]]; [done|..]; by simplify_eq/=.
    + intros Hct.
      exists (Keyboards.mkButton "✋ Взять позицию" ("take:" +:+ pretty k)).
      split; [|reflexivity].
      apply elem_of_item_actions_keyboard. by left.
  - intros now' photo.
    rewrite (receive_return_photo_ok fk d now' settings f ku u k i photo) by done.
    split.
    + intros (b & Hb%elem_of_item_actions_keyboard & Hdata).
      destruct Hb as [[_ ->]|[[Hcr ->]|[-> | ->]]]; [|done|..]; by simplify_eq/=.
    + intros Hcr.
      exists (Keyboards.mkButton "↩️ Вернуть позицию" ("return:" +:+ pretty k)).
      split; [|reflexivity].
      apply elem_of_item_actions_keyboard. right. by left.
  - unfold HandlersUser.start_take_item.
    change ("take:" +:+ pretty k) with ("take" +:+ String ":" (pretty k)).
    by rewrite int_after_colon_pretty.
  - unfold HandlersUser.start_return_item.
    change ("return:" +:+ pretty k) with ("return" +:+ String ":" (pretty k)).
    by rewrite int_after_colon_pretty.
Qed.

Lemma item_buttons_match_custody_witness :
  ∃ body kb,
    HandlersUser.on_item_selected 5 Sample.settings Sample.from_alice
      ("item:" +:+ pretty 1) = Some body
    ∧ (body (begin true Sample.lent)).1 = Ok (Some kb)
    ∧ (∀ now' photo,
         (∃ b, b ∈ concat kb ∧ Keyboards.callback_data b = "take:" +:+ pretty 1)
         ↔ is_ok (transact true (HandlersUser.receive_take_photo now' Sample.settings
                                   Sample.from_alice 1 photo) Sample.lent).1 = true)
    ∧ (∀ now' photo,
         (∃ b, b ∈ concat kb ∧ Keyboards.callback_data b = "return:" +:+ pretty 1)
         ↔ is_ok (transact true (HandlersUser.receive_return_photo now' Sample.settings
                                   Sample.from_alice 1 photo) Sample.lent).1 = true)
    ∧ HandlersUser.start_take_item ("take:" +:+ pretty 1) = Some 1
    ∧ HandlersUser.start_return_item ("return:" +:+ pretty 1) = Some 1.
Proof.
  apply (item_buttons_match_custody true Sample.lent 5 Sample.settings
           Sample.from_alice 1 (row Sample.alice) 1 Sample.lent_drill).
  - by apply sample_account.
  - reflexivity.
Defined.

(** ** Maintenance of categories and items *)

Lemma update_item_code_ok now admin k code s i :
  items (db s) !! k = Some i → known_user (db s) admin →
  (∀ k' i', items (db s) !! k' = Some i' → k' ≠ k → inventory_code i' ≠ Some code) →
  AdminService.update_item_code now admin k code s
  = (Ok true,
     write (set_admin_logs
              (λ l, l ++ [audit now admin "update_item_code"
                            ("id=" +:+ pretty k +:+ ",new_code=" +:+ code)]))
       (write (set_items (insert k (assign_item (mkItemValues None (Some code)) i))) s)).
Proof.
  intros Hi Ha Hfree. unfold AdminService.update_item_code, ItemRepository.update.
  rewrite !bind_run, update_items_run, Hi. simpl.
  rewrite no_other_code by done.
  cbn -[log_if]. by rewrite log_if_true.
Qed.

Lemma update_item_code_taken now admin k code s i k' i' :
  items (db s) !! k = Some i → items (db s) !! k' = Some i' → k' ≠ k →
  inventory_code i' = Some code →
  AdminService.update_item_code now admin k code s = (Raise DuplicateCode, s).
Proof.
  intros Hi Hi' Hne Hc. unfold AdminService.update_item_code, ItemRepository.update.
  rewrite !bind_run, update_items_run, Hi. simpl.
  rewrite bool_decide_true; [done|]. by exists k', i'.
Qed.

(** X9.  Resetting the inventory code of an item with [/skip] stores the
    empty string as its code, not the absence of a code.  The unique
    constraint on the column then refuses the same reset for a second
    item: the call raises, and nothing of its session is stored. *)
Theorem skip_stores_the_empty_code fk d now1 now2 settings f ka u k1 k2 i1 i2 :
  account_of d f ka u →
  items d !! k1 = Some i1 → items d !! k2 = Some i2 → k1 ≠ k2 →
  code_free d (Some EmptyString) →
  ∃ d1 i1',
    transact fk (HandlersAdmin.adm_item_code_finish now1 settings f (Some "/skip") k1) d
    = (Ok true, d1)
    ∧ items d1 !! k1 = Some i1' ∧ inventory_code i1' = Some EmptyString
    ∧ transact fk (HandlersAdmin.adm_item_code_finish now2 settings f (Some "/skip") k2) d1
      = (Raise DuplicateCode, d1).
Proof.
  intros Hacc H1 H2 Hne Hfree.
  pose (u1 := refreshed settings f u).
  eexists _, _. split; [|split; [|split]].
  - eapply transact_ok_eq; [|reflexivity].
    unfold HandlersAdmin.adm_item_code_finish. simpl. rewrite bind_run.
    rewrite (ensure_from_account now1 settings f (begin fk d) ka u) by done.
    apply (update_item_code_ok now1 _ k1 EmptyString _ i1).
    + done.
    + unfold known_user. simpl. rewrite lookup_insert_eq. by eexists.
    + simpl. intros k' i' Hk' _. by apply (Hfree EmptyString eq_refl k' i').
  - simpl. by rewrite lookup_insert_eq.
  - done.
  - unfold transact, HandlersAdmin.adm_item_code_finish. simpl. rewrite bind_run.
    erewrite (ensure_from_account now2 settings f _ ka u1).
    2: { by apply (account_of_users settings f d _ ka u (is_admin u1)). }
    erewrite (update_item_code_taken now2 _ k2 EmptyString _ i2 k1).
    + done.
    + simpl. by rewrite lookup_insert_ne.
    + simpl. by rewrite lookup_insert_eq.
    + done.
    + done.
Qed.

Lemma skip_stores_the_empty_code_witness :
  ∃ d1 i1',
    transact true (HandlersAdmin.adm_item_code_finish 5 Sample.settings Sample.from_root
                     (Some "/skip") 1) Sample.two_items
    = (Ok true, d1)
    ∧ items d1 !! 1 = Some i1' ∧ inventory_code i1' = Some EmptyString
    ∧ transact true (HandlersAdmin.adm_item_code_finish 6 Sample.settings Sample.from_root
                       (Some "/skip") 2) d1
      = (Raise DuplicateCode, d1).
Proof.
  apply (skip_stores_the_empty_code true Sample.two_items 5 6 Sample.settings
           Sample.from_root 3 (row Sample.root) 1 2 Sample.drill Sample.saw).
  - by apply sample_account.
  - reflexivity.
  - reflexivity.
  - done.
  - intros c [= <-] k i Hk.
    assert (map_Forall (λ _ i, inventory_code i ≠ Some EmptyString)
              (items Sample.two_items)) as Hall by (by apply (bool_decide_unpack _)).
    by apply (Hall k i).
Defined.



Lemma elem_of_select_where {A : Type} (P : Z * A → Prop) `{!∀ kv, Decision (P kv)}
    (tbl : gmap Z A) (e : entity A) :
  e ∈ select_where P tbl ↔ tbl !! obj_id e = Some (row e) ∧ P (obj_id e, row e).
Proof.
  unfold select_where. rewrite list_elem_of_fmap. split.
  - intros ([k a] & -> & Hin). simpl.
    by apply elem_of_map_to_list, map_lookup_filter_Some in Hin.
  - intros [Hk HP]. exists (obj_id e, row e). split; [by destruct e|].
    by apply elem_of_map_to_list, map_lookup_filter_Some.
Qed.

Lemma elem_of_order_by_category_name e l :
  e ∈ order_by_category_name l ↔ e ∈ l.
Proof. unfold order_by_category_name. by rewrite merge_sort_Permutation. Qed.

Lemma elem_of_order_by_item_name e l :
  e ∈ order_by_item_name l ↔ e ∈ l.
Proof. unfold order_by_item_name. by rewrite merge_sort_Permutation. Qed.

Lemma set_active_ok now admin action k b s c :
  categories (db s) !! k = Some c → known_user (db s) admin →
  (ok ← (rowcount ← update_categories k (mkCategoryValues None None (Some b));
         mret (0 <? rowcount));
   log_if ok now admin action ("id=" +:+ pretty k)) s
  = (Ok true,
     write (set_admin_logs (λ l, l ++ [audit now admin action ("id=" +:+ pretty k)]))
       (write (set_categories
                 (insert k (mkCategory (category_name c) (description c) b
                              (category_created_at c)))) s)).
Proof.
  intros Hc Ha. rewrite !bind_run, update_categories_run, Hc.
  cbn -[log_if]. by rewrite log_if_true.
Qed.

(** X11.  Deactivating a category takes it off the list of categories the
    users choose from and leaves every other entry of that list alone; the
    list of the administrator menu still has it, marked inactive.
    Activating it again puts it back on the users' list. *)
Theorem deactivation_hides_the_category now1 now2 admin k c s :
  categories (db s) !! k = Some c → known_user (db s) admin →
  ∃ s1 s2 shown1 all1 shown2,
    AdminService.deactivate_category now1 admin k s = (Ok true, s1)
    ∧ InventoryService.list_categories s1 = (Ok shown1, s1)
    ∧ (∀ e, e ∈ shown1
          ↔ categories (db s) !! obj_id e = Some (row e)
            ∧ is_active (row e) = true ∧ obj_id e ≠ k)
    ∧ CategoryRepository.list_all s1 = (Ok all1, s1)
    ∧ Entity k (mkCategory (category_name c) (description c) false
                  (category_created_at c)) ∈ all1
    ∧ AdminService.activate_category now2 admin k s1 = (Ok true, s2)
    ∧ InventoryService.list_categories s2 = (Ok shown2, s2)
    ∧ Entity k (mkCategory (category_name c) (description c) true
                  (category_created_at c)) ∈ shown2.
Proof.
  intros Hc Ha. eexists _, _, _, _, _.
  split; [by apply (set_active_ok now1 admin "deactivate_category" k false s c)|].
  split; [reflexivity|]. split.
  { intros e. rewrite elem_of_order_by_category_name, elem_of_select_where. simpl.
    destruct (decide (obj_id e = k)) as [-> |Hne].
    - rewrite lookup_insert_eq. split.
      + intros [[= <-] Hact]. done.
      + by intros (_ & _ & ?).
    - rewrite lookup_insert_ne by done. split.
      + by intros [? ?].
      + by intros (? & ? & _). }
  split; [reflexivity|]. split.
  { rewrite elem_of_order_by_category_name, elem_of_select_where. simpl.
    by rewrite lookup_insert_eq. }
  split.
  { apply (set_active_ok now2 admin "activate_category" k true _
             (mkCategory (category_name c) (description c) false
                (category_created_at c))).
    - simpl. by rewrite lookup_insert_eq.
    - exact Ha. }
  split; [reflexivity|].
  rewrite elem_of_order_by_category_name, elem_of_select_where. simpl.
  by rewrite lookup_insert_eq.
Qed.

Lemma deactivation_hides_the_category_witness :
  ∃ s1 s2 shown1 all1 shown2,
    AdminService.deactivate_category 5 Sample.root 1 (begin true Sample.two_items)
    = (Ok true, s1)
    ∧ InventoryService.list_categories s1 = (Ok shown1, s1)
    ∧ (∀ e, e ∈ shown1
          ↔ categories Sample.two_items !! obj_id e = Some (row e)
            ∧ is_active (row e) = true ∧ obj_id e ≠ 1)
    ∧ CategoryRepository.list_all s1 = (Ok all1, s1)
    ∧ Entity 1 (mkCategory "tools" None false 0) ∈ all1
    ∧ AdminService.activate_category 6 Sample.root 1 s1 = (Ok true, s2)
    ∧ InventoryService.list_categories s2 = (Ok shown2, s2)
    ∧ Entity 1 (mkCategory "tools" None true 0) ∈ shown2.
Proof.
  apply (deactivation_hides_the_category 5 6 Sample.root 1
           (mkCategory "tools" None true 0) (begin true Sample.two_items)).
  - reflexivity.
  - by eexists.
Defined.

(** X12.  Renaming a category to the name of another category is
    refused by the unique constraint: the call raises and writes nothing,
    and the session is left exactly as it was before the call, its
    transaction open and what it had written before still pending.  A name
    that no other category carries, the category's own name among them, is
    stored, with one audit entry, and nothing but the name of that one row
    changes. *)
Theorem rename_category_keeps_names_apart now admin k n s c :
  categories (db s) !! k = Some c → known_user (db s) admin →
  ((∃ k' c', categories (db s) !! k' = Some c' ∧ k' ≠ k ∧ category_name c' = n) →
     AdminService.rename_category now admin k n s = (Raise DuplicateName, s))
  ∧ ((∀ k' c', categories (db s) !! k' = Some c' → k' ≠ k → category_name c' ≠ n) →
     AdminService.rename_category now admin k n s
     = (Ok true,
        write (set_admin_logs
                 (λ l, l ++ [audit now admin "rename_category"
                               ("id=" +:+ pretty k +:+ ",new_name=" +:+ n)]))
          (write (set_categories
                    (insert k (mkCategory n (description c) (is_active c)
                                 (category_created_at c)))) s))).
Proof.
  intros Hc Ha. unfold AdminService.rename_category, CategoryRepository.rename.
  rewrite !bind_run, update_categories_run, Hc. split.
  - intros (k' & c' & Hk' & Hne & Hn). simpl.
    rewrite bool_decide_true; [done|]. by exists k', c'.
  - intros Hfree. simpl values_category_name. cbv iota.
    rewrite no_other_name by done.
    cbn -[log_if]. by rewrite log_if_true.
Qed.

Lemma rename_category_keeps_names_apart_witness :
  AdminService.rename_category 5 Sample.root 1 "garden" Sample.toggled
  = (Raise DuplicateName, Sample.toggled)
  ∧ db Sample.toggled ≠ committed Sample.toggled
  ∧ AdminService.rename_category 5 Sample.root 1 "tools" (begin true Sample.two_items)
    = (Ok true,
       write (set_admin_logs
                (λ l, l ++ [audit 5 Sample.root "rename_category"
                              ("id=" +:+ pretty 1 +:+ ",new_name=" +:+ "tools")]))
         (write (set_categories (insert 1 (mkCategory "tools" None true 0)))
            (begin true Sample.two_items))).
Proof.
  split; [|split].
  - apply (proj1 (rename_category_keeps_names_apart 5 Sample.root 1 "garden"
                    Sample.toggled (mkCategory "tools" None true 0)
                    eq_refl (ex_intro _ (row Sample.root) eq_refl))).
    exists 2, (mkCategory "garden" None true 0). by split.
  - intros H. apply (f_equal (λ d, is_admin <$> users d !! 2)) in H.
    vm_compute in H. discriminate H.
  - apply (proj2 (rename_category_keeps_names_apart 5 Sample.root 1 "tools"
                    (begin true Sample.two_items) (mkCategory "tools" None true 0)
                    eq_refl (ex_intro _ (row Sample.root) eq_refl))).
    intros k' c' Hk' Hne.
    assert (map_Forall (λ k' c', k' ≠ 1 → category_name c' ≠ "tools")
              (categories Sample.two_items)) as Hall by (by apply (bool_decide_unpack _)).
    by apply (Hall k' c').
Defined.

Lemma delete_category_ok now admin k s c :
  categories (db s) !! k = Some c → known_user (db s) admin →
  AdminService.delete_category now admin k s
  = (Ok true,
     write (set_admin_logs
              (λ l, l ++ [audit now admin "delete_category" ("id=" +:+ pretty k)]))
       (write (λ d, set_categories (delete k)
                      (if foreign_keys s then cascade_category k d else d)) s)).
Proof.
  intros Hc Ha. unfold AdminService.delete_category, CategoryRepository.hard_delete.
  rewrite !bind_run, delete_categories_run, Hc.
  cbn -[log_if]. rewrite log_if_true; [done|].
  unfold known_user. simpl. by destruct (foreign_keys s).
Qed.

Lemma delete_item_ok now admin k s i :
  items (db s) !! k = Some i → known_user (db s) admin →
  AdminService.delete_item now admin k s
  = (Ok true,
     write (set_admin_logs
              (λ l, l ++ [audit now admin "delete_item" ("id=" +:+ pretty k)]))
       (write (λ d, set_items (delete k)
                      (if foreign_keys s then cascade_item k d else d)) s)).
Proof.
  intros Hi Ha. unfold AdminService.delete_item, ItemRepository.delete.
  rewrite !bind_run, delete_items_run, Hi.
  cbn -[log_if]. rewrite log_if_true; [done|].
  unfold known_user. simpl. by destruct (foreign_keys s).
Qed.

(** X13.  The two deletions are single DELETE statements, so what goes
    with the deleted row is decided by the foreign keys of the store.
    Where they are enforced, deleting a category removes its items and the
    custody events of those items, and deleting an item removes its
    custody events, and nothing else.  Where they are not enforced, only
    the one row goes: the items of a deleted category stay behind with a
    category id that has no row, and the custody events of a deleted item
    stay in the ledger. *)
Theorem deletes_cascade_by_foreign_keys now admin kc c ki i s :
  categories (db s) !! kc = Some c → items (db s) !! ki = Some i →
  known_user (db s) admin →
  (∃ s',
     AdminService.delete_category now admin kc s = (Ok true, s')
     ∧ categories (db s') = delete kc (categories (db s))
     ∧ (foreign_keys s = true →
          (∀ j x, items (db s') !! j = Some x
                  ↔ items (db s) !! j = Some x ∧ category_id x ≠ kc)
          ∧ (∀ t, t ∈ transactions (db s')
                  ↔ t ∈ transactions (db s) ∧ ¬ of_category (db s) kc t))
     ∧ (foreign_keys s = false →
          items (db s') = items (db s) ∧ transactions (db s') = transactions (db s)
          ∧ ∀ j x, items (db s) !! j = Some x → category_id x = kc →
                   items (db s') !! j = Some x
                   ∧ categories (db s') !! category_id x = None))
  ∧ (∃ s',
       AdminService.delete_item now admin ki s = (Ok true, s')
       ∧ items (db s') = delete ki (items (db s))
       ∧ categories (db s') = categories (db s)
       ∧ (foreign_keys s = true →
            ∀ t, t ∈ transactions (db s') ↔ t ∈ transactions (db s) ∧ item_id t ≠ ki)
       ∧ (foreign_keys s = false → transactions (db s') = transactions (db s))).
Proof.
  intros Hc Hi Ha. split.
  - eexists. split; [by apply (delete_category_ok now admin kc s c)|].
    split; [by destruct (foreign_keys s)|]. split.
    + intros ->. simpl. split.
      * intros j x. by rewrite map_lookup_filter_Some.
      * intros t. by rewrite list_elem_of_filter, (comm and).
    + intros ->. simpl. split; [done|]. split; [done|].
      intros j x Hj <-. split; [done|]. by rewrite lookup_delete_eq.
  - eexists. split; [by apply (delete_item_ok now admin ki s i)|].
    split; [by destruct (foreign_keys s)|].
    split; [by destruct (foreign_keys s)|]. split.
    + intros ->. simpl. intros t. by rewrite list_elem_of_filter, (comm and).
    + by intros ->.
Qed.

Lemma deletes_cascade_by_foreign_keys_witness :
  (∃ s',
     AdminService.delete_category 20 Sample.root 1 (begin false Sample.lent)
     = (Ok true, s')
     ∧ categories (db s') = delete 1 (categories Sample.lent)
     ∧ (false = true →
          (∀ j x, items (db s') !! j = Some x
                  ↔ items Sample.lent !! j = Some x ∧ category_id x ≠ 1)
          ∧ (∀ t, t ∈ transactions (db s')
                  ↔ t ∈ transactions Sample.lent ∧ ¬ of_category Sample.lent 1 t))
     ∧ (false = false →
          items (db s') = items Sample.lent
          ∧ transactions (db s') = transactions Sample.lent
          ∧ ∀ j x, items Sample.lent !! j = Some x → category_id x = 1 →
                   items (db s') !! j = Some x
                   ∧ categories (db s') !! category_id x = None))
  ∧ (∃ s',
       AdminService.delete_item 20 Sample.root 1 (begin false Sample.lent)
       = (Ok true, s')
       ∧ items (db s') = delete 1 (items Sample.lent)
       ∧ categories (db s') = categories Sample.lent
       ∧ (false = true →
            ∀ t, t ∈ transactions (db s')
                 ↔ t ∈ transactions Sample.lent ∧ item_id t ≠ 1)
       ∧ (false = false → transactions (db s') = transactions Sample.lent)).
Proof.
  apply (deletes_cascade_by_foreign_keys 20 Sample.root 1
           (mkCategory "tools" None true 0) 1 Sample.lent_drill
           (begin false Sample.lent)).
  - reflexivity.
  - reflexivity.
  - by eexists.
Defined.

Lemma next_id_attained {A : Type} (t : gmap Z A) :
  next_id t = 1 ∨ is_Some (t !! (next_id t - 1)).
Proof.
  unfold next_id.
  apply (map_fold_weak_ind (λ r m, r = 1 ∨ is_Some (m !! (r - 1)))).
  - by left.
  - intros j x m r Hj IH.
    destruct (decide (r ≤ j + 1)) as [Hle|Hgt].
    + right. replace (Z.max (j + 1) r - 1) with j by lia.
      rewrite lookup_insert_eq. by eexists.
    + replace (Z.max (j + 1) r) with r by lia.
      destruct IH as [-> |IH]; [by left|]. right.
      rewrite lookup_insert_ne by lia. done.
Qed.

Lemma next_id_eq {A : Type} (t : gmap Z A) (n : Z) :
  1 ≤ n → (∀ k, is_Some (t !! k) → k < n) →
  n = 1 ∨ is_Some (t !! (n - 1)) →
  next_id t = n.
Proof.
  intros Hn Habove Hatt.
  destruct (next_id_above t) as [H1 Hlt].
  destruct (next_id_attained t) as [Hr|Hr].
  - destruct Hatt as [-> |Hatt]; [done|]. specialize (Hlt _ Hatt). lia.
  - specialize (Habove _ Hr).
    destruct Hatt as [-> |Hatt]; [lia|]. specialize (Hlt _ Hatt). lia.
Qed.

Lemma create_item_ok now admin cat name code s :
  code_free (db s) code →
  foreign_keys s = false ∨ is_Some (categories (db s) !! cat) →
  known_user (db s) admin →
  AdminService.create_item now admin cat name code s
  = (Ok (Entity (next_id (items (db s))) (mkItem cat name code AVAILABLE None now)),
     write (set_admin_logs (λ l, l ++ [create_item_entry now admin cat name]))
       (write (set_items (insert (next_id (items (db s)))
                            (mkItem cat name code AVAILABLE None now))) s)).
Proof.
  intros Hfree Hcat Ha. unfold AdminService.create_item, ItemRepository.create.
  rewrite bind_run, add_item_ok by done.
  rewrite bind_run. unfold AdminLogRepository.log.
  by rewrite add_admin_log_ok by exact Ha.
Qed.

(** X14.  Where foreign keys are not enforced and ids are handed out as
    one more than the largest id in the table, deleting the item with the
    largest id [k], when [k] is 1 or [k - 1] is the id of an item too, and
    then creating an item whose code no remaining item carries gives the
    new item the id [k] again, and with it the custody events that the
    deleted item left in the ledger: the history of the new item is the
    history of the old one.  (When [k - 1] is not in use the new id is
    smaller than [k], and nothing is said.) *)
Theorem a_new_item_inherits_the_ledger now1 now2 admin k i cat name code limit s :
  foreign_keys s = false → known_user (db s) admin →
  items (db s) !! k = Some i → 1 ≤ k →
  (∀ j, is_Some (items (db s) !! j) → j ≤ k) →
  (k = 1 ∨ is_Some (items (db s) !! (k - 1))) →
  (∀ c, code = Some c →
     ∀ j x, items (db s) !! j = Some x → j ≠ k → inventory_code x ≠ Some c) →
  ∃ s1 s2,
    AdminService.delete_item now1 admin k s = (Ok true, s1)
    ∧ AdminService.create_item now2 admin cat name code s1
      = (Ok (Entity k (mkItem cat name code AVAILABLE None now2)), s2)
    ∧ (TransactionRepository.list_for_item k limit s2).1
      = (TransactionRepository.list_for_item k limit s).1.
Proof.
  intros Hfk Ha Hi Hk Hmax Hprev Hfree.
  destruct s as [fk cm d]. simpl in Hfk, Ha, Hi, Hmax, Hprev, Hfree. subst fk.
  assert (next_id (delete k (items d)) = k) as Hnext.
  { apply next_id_eq; [done| |].
    - intros j [x Hj]. apply lookup_delete_Some in Hj as [Hne Hj].
      assert (j ≤ k) by (apply Hmax; by eexists). lia.
    - destruct Hprev as [-> |[x Hx]]; [by left|right].
      exists x. rewrite lookup_delete_ne by lia. done. }
  rewrite (delete_item_ok now1 admin k (mkSession false cm d) i) by done.
  eexists _, _. split; [reflexivity|].
  rewrite create_item_ok.
  - simpl. rewrite Hnext. split; reflexivity.
  - intros c -> j x Hj. simpl in Hj.
    apply lookup_delete_Some in Hj as [Hne Hj]. by apply (Hfree c eq_refl j x).
  - by left.
  - exact Ha.
Qed.

Lemma a_new_item_inherits_the_ledger_witness :
  ∃ s1 s2,
    AdminService.delete_item 20 Sample.root 1 (begin false Sample.lent) = (Ok true, s1)
    ∧ AdminService.create_item 30 Sample.root 1 "ladder" None s1
      = (Ok (Entity 1 (mkItem 1 "ladder" None AVAILABLE None 30)), s2)
    ∧ (TransactionRepository.list_for_item 1 10 s2).1
      = (TransactionRepository.list_for_item 1 10 (begin false Sample.lent)).1.
Proof.
  apply (a_new_item_inherits_the_ledger 20 30 Sample.root 1 Sample.lent_drill 1
           "ladder" None 10 (begin false Sample.lent)).
  - reflexivity.
  - by eexists.
  - reflexivity.
  - lia.
  - intros j [x Hj].
    assert (map_Forall (λ j _, j ≤ 1) (items Sample.lent)) as Hall
      by (by apply (bool_decide_unpack _)).
    by apply (Hall j x).
  - by left.
  - by intros c [=].
Defined.

(** ** The queries behind the menus *)

Lemma not_older_total : Total not_older.
Proof. intros a b. unfold not_older. lia. Qed.

Lemma not_older_trans : Transitive not_older.
Proof. intros a b c. unfold not_older. lia. Qed.

Lemma order_by_created_at_desc_sorted (l : list Transaction) :
  StronglySorted not_older (merge_sort not_older l).
Proof.
  apply (@StronglySorted_merge_sort _ not_older _ not_older_trans not_older_total).
Qed.

Lemma list_for_item_run k limit s :
  TransactionRepository.list_for_item k limit s
  = (Ok (take (Z.to_nat limit)
           (merge_sort not_older (filter (of_item k) (transactions (db s))))), s).
Proof. reflexivity. Qed.

(** X15.  A page of the history of an item holds custody events of that
    item only, all of them from the ledger, at most [limit] of them, the
    most recent first; where the item has no more than [limit] events the
    page has every one of them. *)
Theorem history_page_of_an_item k limit s :
  0 ≤ limit →
  ∃ rows,
    TransactionRepository.list_for_item k limit s = (Ok rows, s)
    ∧ (∀ t, t ∈ rows → t ∈ transactions (db s) ∧ item_id t = k)
    ∧ Z.of_nat (length rows) ≤ limit
    ∧ StronglySorted (λ a b, created_at b ≤ created_at a) rows
    ∧ (Z.of_nat (length (filter (of_item k) (transactions (db s)))) ≤ limit →
       ∀ t, t ∈ transactions (db s) → item_id t = k → t ∈ rows).
Proof.
  intros Hlimit. eexists. split; [apply list_for_item_run|].
  set (sorted := merge_sort not_older (filter (of_item k) (transactions (db s)))).
  assert (sorted ≡ₚ filter (of_item k) (transactions (db s))) as Hperm
    by apply merge_sort_Permutation.
  split; [|split; [|split]].
  - intros t Ht%elem_of_take. destruct Ht as (n & Ht%list_elem_of_lookup_2 & _).
    rewrite Hperm in Ht. by apply list_elem_of_filter in Ht as [? ?].
  - rewrite length_take. lia.
  - assert (StronglySorted not_older sorted) as Hsorted
      by apply order_by_created_at_desc_sorted.
    rewrite <- (take_drop (Z.to_nat limit) sorted) in Hsorted.
    by apply StronglySorted_app_1_l in Hsorted.
  - intros Hall t Ht Hk. rewrite take_ge.
    + rewrite Hperm. by apply list_elem_of_filter.
    + rewrite Hperm. lia.
Qed.

Lemma history_page_of_an_item_witness :
  ∃ rows,
    TransactionRepository.list_for_item 1 10 (begin true Sample.lent)
    = (Ok rows, begin true Sample.lent)
    ∧ (∀ t, t ∈ rows → t ∈ transactions Sample.lent ∧ item_id t = 1)
    ∧ Z.of_nat (length rows) ≤ 10
    ∧ StronglySorted (λ a b, created_at b ≤ created_at a) rows
    ∧ (Z.of_nat (length (filter (of_item 1) (transactions Sample.lent))) ≤ 10 →
       ∀ t, t ∈ transactions Sample.lent → item_id t = 1 → t ∈ rows).
Proof.
  apply (history_page_of_an_item 1 10 (begin true Sample.lent)). lia.
Defined.

(** X16.  A check-out that is later than every event of the ledger is the
    first row of the next page of the history of the item, whatever the
    size of the page. *)
Theorem a_check_out_heads_the_history now k u photo cmt limit s i :
  items (db s) !! k = Some i → status i = AVAILABLE → known_user (db s) u →
  Forall (λ t, created_at t < now) (transactions (db s)) → 0 < limit →
  ∃ tx s' rows,
    InventoryService.take_item now k u photo cmt s = (Ok tx, s')
    ∧ TransactionRepository.list_for_item k limit s' = (Ok rows, s')
    ∧ head rows = Some tx
    ∧ user_id tx = obj_id u ∧ action tx = TAKE.
Proof.
  intros Hi Hst Hu Hold Hlimit. eexists _, _, _.
  split; [by apply (take_item_ok now k u photo cmt s i)|].
  split; [apply list_for_item_run|]. split; [|done].
  simpl. set (tx := mkTransaction k (obj_id u) TAKE photo None cmt now).
  set (events := filter (of_item k) (transactions (db s) ++ [tx])).
  assert (merge_sort not_older events ≡ₚ events) as Hperm
    by apply merge_sort_Permutation.
  assert (StronglySorted not_older (merge_sort not_older events)) as Hsorted
    by apply order_by_created_at_desc_sorted.
  assert (tx ∈ events) as Htx.
  { apply list_elem_of_filter. split; [done|]. apply elem_of_app. right. by left. }
  assert (∀ t, t ∈ events → t = tx ∨ created_at t < now) as Hevents.
  { intros t Ht. apply list_elem_of_filter in Ht as [_ Ht].
    apply elem_of_app in Ht as [Ht|Ht].
    - right. by apply (proj1 (Forall_forall _ _) Hold).
    - left. by apply list_elem_of_singleton in Ht. }
  rewrite <- Hperm in Htx. setoid_rewrite <- Hperm in Hevents.
  destruct (merge_sort not_older events) as [|h rest]; [by apply elem_of_nil in Htx|].
  destruct (Z.to_nat limit) as [|n] eqn:Hn; [lia|]. simpl. f_equal.
  destruct (Hevents h) as [-> |Hh]; [by left|done|].
  apply elem_of_cons in Htx as [<- |Htx]; [done|].
  apply StronglySorted_inv in Hsorted as [_ Hrest].
  assert (not_older h tx) as Hle by by apply (proj1 (Forall_forall _ _) Hrest).
  unfold not_older in Hle. simpl in Hle. lia.
Qed.

Lemma a_check_out_heads_the_history_witness :
  ∃ tx s' rows,
    InventoryService.take_item 30 2 Sample.bob "photo-2" None
      (begin true Sample.returned) = (Ok tx, s')
    ∧ TransactionRepository.list_for_item 2 1 s' = (Ok rows, s')
    ∧ head rows = Some tx
    ∧ user_id tx = obj_id Sample.bob ∧ action tx = TAKE.
Proof.
  apply (a_check_out_heads_the_history 30 2 Sample.bob "photo-2" None 1
           (begin true Sample.returned) Sample.saw).
  - reflexivity.
  - reflexivity.
  - by eexists.
  - by apply (bool_decide_unpack _).
  - lia.
Defined.

Lemma list_items_for_user_run uid s :
  InventoryService.list_items_for_user uid s
  = (Ok (order_by_item_name
           (select_where (λ kv, current_holder_id kv.2 = Some uid) (items (db s)))), s).
Proof. reflexivity. Qed.

(** X17.  The list of the items of a user follows custody: after a
    successful check-out the item is on the list of the account that took
    it, and after the check-in that follows it is on that list no more. *)
Theorem my_items_follow_custody now1 now2 k u photo1 cmt1 photo2 cmt2 s i :
  items (db s) !! k = Some i → status i = AVAILABLE → known_user (db s) u →
  ∃ tx1 s1 mine1 tx2 s2 mine2,
    InventoryService.take_item now1 k u photo1 cmt1 s = (Ok tx1, s1)
    ∧ InventoryService.list_items_for_user (obj_id u) s1 = (Ok mine1, s1)
    ∧ (∃ e, e ∈ mine1 ∧ obj_id e = k ∧ status (row e) = TAKEN)
    ∧ InventoryService.return_item now2 k u photo2 cmt2 s1 = (Ok tx2, s2)
    ∧ InventoryService.list_items_for_user (obj_id u) s2 = (Ok mine2, s2)
    ∧ (∀ e, e ∈ mine2 → obj_id e ≠ k)
    ∧ (∀ e, obj_id e ≠ k →
         (e ∈ mine2 ↔ items (db s) !! obj_id e = Some (row e)
                      ∧ current_holder_id (row e) = Some (obj_id u))).
Proof.
  intros Hi Hst Hu. eexists _, _, _, _, _, _.
  split; [by apply (take_item_ok now1 k u photo1 cmt1 s i)|].
  split; [apply list_items_for_user_run|]. split.
  { exists (Entity k (with_current_holder_id (Some (obj_id u)) (with_status TAKEN i))).
    split; [|done].
    rewrite elem_of_order_by_item_name, elem_of_select_where. simpl.
    by rewrite lookup_insert_eq. }
  split.
  { apply (return_item_ok now2 k u photo2 cmt2 _
             (with_current_holder_id (Some (obj_id u)) (with_status TAKEN i))).
    - simpl. by rewrite lookup_insert_eq.
    - done.
    - done.
    - exact Hu. }
  split; [apply list_items_for_user_run|]. split.
  - intros e. rewrite elem_of_order_by_item_name, elem_of_select_where. simpl.
    intros [He Hh] Hk. rewrite Hk, lookup_insert_eq in He.
    injection He as He. by rewrite <- He in Hh.
  - intros e Hne. rewrite elem_of_order_by_item_name, elem_of_select_where. simpl.
    by rewrite !lookup_insert_ne by done.
Qed.

Lemma my_items_follow_custody_witness :
  ∃ tx1 s1 mine1 tx2 s2 mine2,
    InventoryService.take_item 5 1 Sample.alice "photo-1" None (begin true Sample.store)
    = (Ok tx1, s1)
    ∧ InventoryService.list_items_for_user (obj_id Sample.alice) s1 = (Ok mine1, s1)
    ∧ (∃ e, e ∈ mine1 ∧ obj_id e = 1 ∧ status (row e) = TAKEN)
    ∧ InventoryService.return_item 6 1 Sample.alice "photo-2" None s1 = (Ok tx2, s2)
    ∧ InventoryService.list_items_for_user (obj_id Sample.alice) s2 = (Ok mine2, s2)
    ∧ (∀ e, e ∈ mine2 → obj_id e ≠ 1)
    ∧ (∀ e, obj_id e ≠ 1 →
         (e ∈ mine2 ↔ items Sample.store !! obj_id e = Some (row e)
                      ∧ current_holder_id (row e) = Some (obj_id Sample.alice))).
Proof.
  apply (my_items_follow_custody 5 6 1 Sample.alice "photo-1" None "photo-2" None
           (begin true Sample.store) Sample.drill).
  - reflexivity.
  - reflexivity.
  - by eexists.
Defined.

(** ** Maintenance and the custody invariants *)

(** X18.  The maintenance calls of the administrator service leave custody
    alone.  Whatever they return or raise, renaming, activating,
    deactivating and deleting a category, renaming and deleting an item,
    changing the inventory code of an item and toggling the administrator
    flag keep [state == taken ⇔ holder != none] and the agreement of
    holders with the ledger true of the session, stored or not. *)
Theorem maintenance_keeps_custody (P : DB → Prop) now admin k name code :
  P = holder_iff_taken ∨ P = history_agrees →
  keeps P (AdminService.rename_category now admin k name)
  ∧ keeps P (AdminService.deactivate_category now admin k)
  ∧ keeps P (AdminService.activate_category now admin k)
  ∧ keeps P (AdminService.delete_category now admin k)
  ∧ keeps P (AdminService.rename_item now admin k name)
  ∧ keeps P (AdminService.update_item_code now admin k code)
  ∧ keeps P (AdminService.delete_item now admin k)
  ∧ keeps P (AdminService.toggle_admin now admin k).
Proof.
  intros HP.
  assert (∀ d d', transactions d' = transactions d →
                  (∀ j i, items d' !! j = Some i → items d !! j = Some i) →
                  P d → P d') as Hframe.
  { intros d d' Htx Hitems. destruct HP as [-> | ->].
    - by apply every_item_frame.
    - by apply agrees_with_frame. }
  assert (∀ f d, P d → P (set_admin_logs f d)) as Hlogs
    by (intros f d; by apply Hframe).
  assert (∀ f d, P d → P (set_users f d)) as Husers
    by (intros f d; by apply Hframe).
  assert (∀ f d, P d → P (set_categories f d)) as Hcats
    by (intros f d; by apply Hframe).
  assert (∀ v d i, items d !! k = Some i → P d →
                   P (set_items (insert k (assign_item v i)) d)) as Hassign.
  { intros v d i Hi Hd. destruct HP as [-> | ->].
    - eapply every_item_insert; [reflexivity| |exact Hd]. simpl. by apply (Hd k i).
    - by apply agrees_with_assign. }
  assert (∀ d, P d → P (set_items (delete k) d)) as Hdel.
  { intros d. apply Hframe; [done|]. simpl. intros j i Hj.
    by apply lookup_delete_Some in Hj as [_ Hj]. }
  assert (∀ d, P d → P (set_items (delete k) (cascade_item k d))) as Hdelfk.
  { intros d. destruct HP as [-> | ->].
    - apply every_item_frame. simpl. intros j i Hj.
      by apply lookup_delete_Some in Hj as [_ Hj].
    - apply agrees_with_cascade_item. }
  assert (∀ d, P d → P (cascade_category k d)) as Hcatfk.
  { intros d. destruct HP as [-> | ->].
    - apply every_item_frame. simpl. intros j i Hj.
      by apply map_lookup_filter_Some in Hj as [Hj _].
    - apply agrees_with_cascade_category. }
  split; [|split; [|split; [|split; [|split; [|split; [|split]]]]]].
  - by apply keeps_rename_category.
  - by apply keeps_deactivate_category.
  - by apply keeps_activate_category.
  - by apply keeps_delete_category.
  - by apply keeps_rename_item.
  - by apply keeps_update_item_code.
  - by apply keeps_delete_item.
  - by apply keeps_toggle_admin.
Qed.

Lemma maintenance_keeps_custody_witness :
  keeps holder_iff_taken (AdminService.rename_category 5 Sample.root 1 "tools")
  ∧ keeps holder_iff_taken (AdminService.deactivate_category 5 Sample.root 1)
  ∧ keeps holder_iff_taken (AdminService.activate_category 5 Sample.root 1)
  ∧ keeps holder_iff_taken (AdminService.delete_category 5 Sample.root 1)
  ∧ keeps holder_iff_taken (AdminService.rename_item 5 Sample.root 1 "tools")
  ∧ keeps holder_iff_taken (AdminService.update_item_code 5 Sample.root 1 "D-2")
  ∧ keeps holder_iff_taken (AdminService.delete_item 5 Sample.root 1)
  ∧ keeps holder_iff_taken (AdminService.toggle_admin 5 Sample.root 1).
Proof.
  apply (maintenance_keeps_custody holder_iff_taken 5 Sample.root 1 "tools" "D-2").
  by left.
Defined.

(** ** From the environment to the gate *)

Lemma admin_gate_witness :
  transact true (HandlersAdmin._require_admin 5 Sample.settings Sample.from_root)
    Sample.store
  = (Ok (is_admin (row Sample.root) || allow_listed Sample.settings Sample.from_root),
     set_users (insert 3 (refreshed Sample.settings Sample.from_root (row Sample.root)))
       Sample.store)
  ∧ transact true (HandlersAdmin._require_admin 5 Sample.settings Sample.from_carol)
      Sample.store
    = (Ok (allow_listed Sample.settings Sample.from_carol),
       set_users (insert (next_id (users Sample.store))
                    (mkUser 400 (Some "carol") None None
                       (allow_listed Sample.settings Sample.from_carol) 5))
         Sample.store).
Proof.
  split.
  - apply (proj1 (admin_gate true Sample.store 5 Sample.settings Sample.from_root)).
    by apply sample_account.
  - apply (proj2 (admin_gate true Sample.store 5 Sample.settings Sample.from_carol)).
    intros k u Hk.
    assert (map_Forall (λ _ u, telegram_id u ≠ 400) (users Sample.store)) as Hall
      by (by apply (bool_decide_unpack _)).
    by apply (Hall k u).
Defined.

Lemma ensure_from_unique now settings f s :
  unique_telegram_ids (db s) →
  (∃ k u, account_of (db s) f k u
     ∧ ensure_from now settings f s
       = (Ok (Entity k (refreshed settings f u)),
          write (set_users (insert k (refreshed settings f u))) s))
  ∨ ((∀ k u, users (db s) !! k = Some u → telegram_id u ≠ from_id f)
     ∧ ensure_from now settings f s
       = (Ok (Entity (next_id (users (db s)))
                (mkUser (from_id f) (from_username f) (from_first_name f)
                   (from_last_name f) (allow_listed settings f) now)),
          write (set_users (insert (next_id (users (db s)))
                   (mkUser (from_id f) (from_username f) (from_first_name f)
                      (from_last_name f) (allow_listed settings f) now))) s)).
Proof.
  intros Huniq. unfold ensure_from.
  destruct (ensure_user_cases now (from_id f) (from_username f) (from_first_name f)
              (from_last_name f) (Config.initial_admin_ids settings)
              (Config.initial_admin_usernames settings) s)
    as [(k & u & Hk & Hu & Hrun)|[[Hnone Hrun]|[(k1 & u1 & k2 & u2 & Hne & H1 & Ht1 & H2 & Ht2) _]]].
  - left. exists k, u. split; [|exact Hrun].
    split; [done|]. split; [done|].
    intros k' u' Hk' Hu'. apply (Huniq k' u' k u); congruence.
  - right. by split.
  - destruct Hne. apply (Huniq k1 u1 k2 u2); congruence.
Qed.

(** X19.  From the environment to the gate: with a bot token set, a
    telegram id written in decimal in INITIAL_ADMIN_IDS, with whatever
    blanks around it, is let through the gate of the administrator menus,
    whether the sender has an account yet or not and whatever flag the
    account carries. *)
Theorem a_configured_id_passes_the_gate environ token raw part fk d now f :
  environ !! "BOT_TOKEN" = Some token → token ≠ EmptyString →
  environ !! "INITIAL_ADMIN_IDS" = Some raw →
  part ∈ split "," raw → strip part = pretty (from_id f) →
  unique_telegram_ids d →
  ∃ settings,
    Config.get_settings environ = inr settings
    ∧ (transact fk (HandlersAdmin._require_admin now settings f) d).1 = Ok true.
Proof.
  intros Htoken Hne Hraw Hpart Hid Huniq.
  unfold Config.get_settings. rewrite Htoken. simpl.
  rewrite (proj2 (truthy_true token) Hne). eexists. split; [reflexivity|].
  set (settings := Config.mkSettings _ _ _ _).
  assert (allow_listed settings f = true) as Hlisted.
  { apply make_admin_matches. left. simpl. rewrite Hraw.
    by apply (parse_admin_ids_elem raw part). }
  unfold transact, HandlersAdmin._require_admin, HandlersAdmin._get_admin_user.
  rewrite !bind_run.
  destruct (ensure_from_unique now settings f (begin fk d) Huniq)
    as [(k & u & _ & ->)|[_ ->]]; simpl; rewrite Hlisted.
  - by rewrite orb_true_r.
  - done.
Qed.

Lemma a_configured_id_passes_the_gate_witness :
  ∃ settings,
    Config.get_settings Sample.environ = inr settings
    ∧ (transact true (HandlersAdmin._require_admin 5 settings Sample.from_carol)
         Sample.store).1 = Ok true.
Proof.
  apply (a_configured_id_passes_the_gate Sample.environ "token" "300, 400" " 400").
  - reflexivity.
  - discriminate.
  - reflexivity.
  - vm_compute. apply list_elem_of_further, list_elem_of_here.
  - reflexivity.
  - intros k1 u1 k2 u2 H1 H2 Ht.
    assert (map_Forall (λ k1 u1, map_Forall (λ k2 u2,
              telegram_id u1 = telegram_id u2 → k1 = k2) (users Sample.store))
              (users Sample.store)) as Hall
      by (by apply (bool_decide_unpack _)).
    by apply (Hall k1 u1 H1 k2 u2 H2).
Defined.

(** X20.  Seeing the same sender twice is seeing it once: where telegram
    ids are unique, a second [ensure_user] with the same data of the same
    sender returns the account the first one returned and leaves the
    session as the first one left it, at whatever later instant it runs. *)
Theorem ensure_user_is_idempotent now1 now2 settings f s :
  unique_telegram_ids (db s) →
  ∃ user s1,
    ensure_from now1 settings f s = (Ok user, s1)
    ∧ ensure_from now2 settings f s1 = (Ok user, s1).
Proof.
  intros Huniq.
  destruct (ensure_from_unique now1 settings f s Huniq)
    as [(k & u & Hacc & ->)|[Hnone ->]]; eexists _, _; (split; [reflexivity|]).
  - set (u1 := refreshed settings f u).
    assert (refreshed settings f u1 = u1) as Hsame.
    { unfold u1, refreshed. simpl. by rewrite <- orb_assoc, orb_diag. }
    rewrite (ensure_from_account now2 settings f _ k u1).
    + rewrite Hsame. f_equal. destruct s as [fk cm d]. unfold write. simpl.
      f_equal. destruct d. unfold set_users. simpl. f_equal.
      apply insert_insert_eq.
    + by apply (account_of_users settings f (db s) _ k u (is_admin u1)).
  - set (n := next_id (users (db s))).
    set (u0 := mkUser (from_id f) (from_username f) (from_first_name f)
                 (from_last_name f) (allow_listed settings f) now1).
    assert (refreshed settings f u0 = u0) as Hsame.
    { unfold u0, refreshed. simpl. by rewrite orb_diag. }
    rewrite (ensure_from_account now2 settings f _ n u0).
    + rewrite Hsame. f_equal. destruct s as [fk cm d]. unfold write. simpl.
      f_equal. destruct d. unfold set_users. simpl. f_equal.
      apply insert_insert_eq.
    + split; [|split].
      * simpl. by rewrite lookup_insert_eq.
      * done.
      * intros k' u' Hk' Hu'. simpl in Hk'.
        destruct (decide (k' = n)) as [-> |Hne]; [done|].
        rewrite lookup_insert_ne in Hk' by done. by destruct (Hnone k' u' Hk').
Qed.

Lemma ensure_user_is_idempotent_witness :
  ∃ user s1,
    ensure_from 5 Sample.settings Sample.from_carol (begin true Sample.store)
    = (Ok user, s1)
    ∧ ensure_from 6 Sample.settings Sample.from_carol s1 = (Ok user, s1).
Proof.
  apply (ensure_user_is_idempotent 5 6 Sample.settings Sample.from_carol
           (begin true Sample.store)).
  intros k1 u1 k2 u2 H1 H2 Ht.
  assert (map_Forall (λ k1 u1, map_Forall (λ k2 u2,
            telegram_id u1 = telegram_id u2 → k1 = k2) (users Sample.store))
            (users Sample.store)) as Hall
    by (by apply (bool_decide_unpack _)).
  by apply (Hall k1 u1 H1 k2 u2 H2).
Defined.

(** X21.  The list of administrators, which is the list of the accounts
    that are notified of every check-out and check-in, follows the flag:
    after a toggle the account is on the list exactly when it was not an
    administrator before, and the entries of the other accounts are what
    they were. *)
Theorem the_admin_list_follows_the_flag now admin target s u :
  users (db s) !! target = Some u → known_user (db s) admin →
  ∃ s1 admins,
    AdminService.toggle_admin now admin target s = (Ok (Some (negb (is_admin u))), s1)
    ∧ UserRepository.list_admins s1 = (Ok admins, s1)
    ∧ ((∃ e, e ∈ admins ∧ obj_id e = target) ↔ is_admin u = false)
    ∧ (∀ e, obj_id e ≠ target →
         (e ∈ admins ↔ users (db s) !! obj_id e = Some (row e)
                       ∧ is_admin (row e) = true)).
Proof.
  intros Hu Ha. eexists _, _.
  split; [by apply toggle_admin_found|]. split; [reflexivity|]. split.
  - split.
    + intros (e & He & Hid). apply elem_of_select_where in He as [He Hflag].
      simpl in He, Hflag. rewrite Hid, lookup_insert_eq in He.
      injection He as He. rewrite <- He in Hflag. simpl in Hflag.
      by apply negb_true_iff.
    + intros Hflag. exists (Entity target (with_is_admin (negb (is_admin u)) u)).
      split; [|done]. apply elem_of_select_where. simpl.
      rewrite lookup_insert_eq. split; [done|]. by rewrite Hflag.
  - intros e Hne. rewrite elem_of_select_where. simpl.
    by rewrite lookup_insert_ne by done.
Qed.

Lemma the_admin_list_follows_the_flag_witness :
  ∃ s1 admins,
    AdminService.toggle_admin 5 Sample.root 2 (begin true Sample.store)
    = (Ok (Some (negb false)), s1)
    ∧ UserRepository.list_admins s1 = (Ok admins, s1)
    ∧ ((∃ e, e ∈ admins ∧ obj_id e = 2) ↔ false = false)
    ∧ (∀ e, obj_id e ≠ 2 →
         (e ∈ admins ↔ users Sample.store !! obj_id e = Some (row e)
                       ∧ is_admin (row e) = true)).
Proof.
  apply (the_admin_list_follows_the_flag 5 Sample.root 2 (begin true Sample.store)
           (row Sample.bob)).
  - reflexivity.
  - by eexists.
Defined.

(** ** The overview of the administrator *)

Lemma mapM_read {A B : Type} (f : A → M B) (g : A → B) (l : list A) (s : Session) :
  (∀ x, f x s = (Ok (g x), s)) → mapM f l s = (Ok (g <$> l), s).
Proof.
  intros Hf. induction l as [|x l IH]; [done|].
  simpl. rewrite bind_run, Hf, bind_run, IH. done.
Qed.

Lemma get_latest_take_run k s :
  TransactionRepository.get_latest_take_for_item k s
  = (Ok (fold_left newer (filter (is_take_of k) (transactions (db s))) None), s).
Proof.
  unfold TransactionRepository.get_latest_take_for_item, gets,
    order_by_created_at_desc_limit_1.
  rewrite bind_run.
  by destruct (fold_left newer (filter (is_take_of k) (transactions (db s))) None).
Qed.

Lemma overview_rows s :
  ∃ kb n,
    HandlersAdmin._build_overview_text_and_kb s = (Ok (kb, n), s)
    ∧ ∀ k name h,
        (k, name, h) ∈ kb
        ↔ ∃ i, items (db s) !! k = Some i ∧ status i = TAKEN ∧ name = item_name i
               ∧ h = match fold_left newer
                             (filter (is_take_of k) (transactions (db s))) None with
                     | Some tx =>
                         HandlersAdmin._user_short
                           (Entity (user_id tx) <$> users (db s) !! user_id tx)
                     | None => "неизвестно"
                     end.
Proof.
  unfold HandlersAdmin._build_overview_text_and_kb, ItemRepository.list_on_hands,
    ItemRepository.list_available, CategoryRepository.list_all, gets.
  repeat (rewrite bind_run; cbn -[mapM]).
  erewrite (mapM_read _
              (λ item : entity Item,
                 (obj_id item, item_name (row item),
                  match fold_left newer
                          (filter (is_take_of (obj_id item)) (transactions (db s)))
                          None with
                  | Some tx =>
                      HandlersAdmin._user_short
                        (Entity (user_id tx) <$> users (db s) !! user_id tx)
                  | None => "неизвестно"
                  end))).
  2: { intros item. by rewrite bind_run, get_latest_take_run. }
  eexists _, _. split; [reflexivity|].
  intros k name h. rewrite list_elem_of_fmap. split.
  - intros (item & [= -> -> ->] & Hin).
    apply elem_of_select_where in Hin as [Hk Hst]. by exists (row item).
  - intros (i & Hk & Hst & -> & ->). exists (Entity k i). split; [done|].
    by apply elem_of_select_where.
Qed.

(** X22.  The overview takes the holder of an item on hands from the
    ledger, not from the item.  Once an administrator overrides to
    [taken] an item that nobody holds and that was last taken by some
    account, the overview lists the item under the display name of that
    account, while the item itself still has no holder. *)
Theorem the_overview_reads_the_ledger now admin k i a ua s :
  items (db s) !! k = Some i → current_holder_id i = None →
  latest_taker (db s) k = Some a → users (db s) !! a = Some ua →
  known_user (db s) admin →
  ∃ s1 kb n i1,
    AdminService.set_item_status now admin k TAKEN s = (Ok true, s1)
    ∧ HandlersAdmin._build_overview_text_and_kb s1 = (Ok (kb, n), s1)
    ∧ (k, item_name i, HandlersAdmin._user_short (Some (Entity a ua))) ∈ kb
    ∧ items (db s1) !! k = Some i1 ∧ status i1 = TAKEN ∧ current_holder_id i1 = None.
Proof.
  intros Hi Hh Hlatest Ha Hadmin. eexists.
  rewrite (set_item_status_ok now admin k TAKEN s i) by done.
  destruct (overview_rows
              (write (set_admin_logs
                        (λ l, l ++ [set_item_status_entry now admin k TAKEN]))
                 (write (set_items (insert k (forced TAKEN i))) s)))
    as (kb & n & Hrun & Hrows).
  exists kb, n, (forced TAKEN i). split; [reflexivity|]. split; [exact Hrun|].
  split.
  - apply Hrows. exists (forced TAKEN i). simpl.
    split; [by rewrite lookup_insert_eq|]. split; [done|]. split; [done|].
    rewrite latest_taker_fold in Hlatest.
    destruct (fold_left newer (filter (is_take_of k) (transactions (db s))) None)
      as [tx|]; [|done].
    injection Hlatest as ->. by rewrite Ha.
  - simpl. by rewrite lookup_insert_eq.
Qed.

Lemma the_overview_reads_the_ledger_witness :
  ∃ s1 kb n i1,
    AdminService.set_item_status 20 Sample.root 1 TAKEN (begin true Sample.returned)
    = (Ok true, s1)
    ∧ HandlersAdmin._build_overview_text_and_kb s1 = (Ok (kb, n), s1)
    ∧ (1, item_name Sample.drill, HandlersAdmin._user_short (Some Sample.alice)) ∈ kb
    ∧ items (db s1) !! 1 = Some i1 ∧ status i1 = TAKEN ∧ current_holder_id i1 = None.
Proof.
  apply (the_overview_reads_the_ledger 20 Sample.root 1 Sample.drill 1
           (row Sample.alice) (begin true Sample.returned)).
  - reflexivity.
  - reflexivity.
  - reflexivity.
  - reflexivity.
  - by eexists.
Defined.

(** X23.  Where holders agree with the ledger, the overview is right:
    every item whose status is [taken] has a row, every row is such an
    item, and the name next to an item is the display name of the account
    that holds it. *)
Theorem the_overview_names_the_holder s :
  history_agrees (db s) →
  ∃ kb n,
    HandlersAdmin._build_overview_text_and_kb s = (Ok (kb, n), s)
    ∧ (∀ k i, items (db s) !! k = Some i → status i = TAKEN →
         ∃ h, (k, item_name i, h) ∈ kb)
    ∧ (∀ k name h, (k, name, h) ∈ kb →
         ∃ i a, items (db s) !! k = Some i ∧ status i = TAKEN
                ∧ name = item_name i ∧ current_holder_id i = Some a
                ∧ h = HandlersAdmin._user_short (Entity a <$> users (db s) !! a)).
Proof.
  intros Hagree. destruct (overview_rows s) as (kb & n & Hrun & Hrows).
  exists kb, n. split; [exact Hrun|]. split.
  - intros k i Hi Hst. eexists. apply Hrows. by exists i.
  - intros k name h (i & Hi & Hst & -> & ->)%Hrows.
    destruct (Hagree k i Hi) as [Htaken _].
    destruct (Htaken Hst) as [[a Ha] Hlatest].
    exists i, a. split; [done|]. split; [done|]. split; [done|]. split; [done|].
    rewrite Ha, latest_taker_fold in Hlatest.
    destruct (fold_left newer (filter (is_take_of k) (transactions (db s))) None)
      as [tx|]; [|done].
    by injection Hlatest as ->.
Qed.

Lemma sample_lent_history_agrees : history_agrees Sample.lent.
Proof.
  intros k i Hk. unfold Sample.lent in Hk. simpl in Hk.
  apply lookup_singleton_Some in Hk as [<- <-].
  split; [|done]. intros _. split; [by eexists|reflexivity].
Qed.

Lemma the_overview_names_the_holder_witness :
  ∃ kb n,
    HandlersAdmin._build_overview_text_and_kb (begin true Sample.lent)
    = (Ok (kb, n), begin true Sample.lent)
    ∧ (∀ k i, items Sample.lent !! k = Some i → status i = TAKEN →
         ∃ h, (k, item_name i, h) ∈ kb)
    ∧ (∀ k name h, (k, name, h) ∈ kb →
         ∃ i a, items Sample.lent !! k = Some i ∧ status i = TAKEN
                ∧ name = item_name i ∧ current_holder_id i = Some a
                ∧ h = HandlersAdmin._user_short (Entity a <$> users Sample.lent !! a)).
Proof.
  apply (the_overview_names_the_holder (begin true Sample.lent)).
  apply sample_lent_history_agrees.
Defined.
